(** * SkyGuard: the per-tick engine of [src/components/DroneSimulation.tsx]

    A shallow embedding of the [Drone] class, of [initSimulation] and of
    [updateSimulation].

    Modelling decisions.
    - JavaScript numbers are exact rationals ([Q]): the engine does not
      model the rounding of doubles, and an equation between numbers is one
      of exact arithmetic.  Module [Double] embeds in binary64 the arithmetic
      of [moveTo], of the speed of a hostile drone and of the jamming damage,
      to tell where the program parts from the exact model.  [Infinity] as the initial value of a running minimum
      (maximum) is [None].  [Date.now()] is an integer number of
      milliseconds ([Z]).
    - [Math.sqrt], [Math.atan2], [Math.cos], [Math.sin], [Date.now] and
      [Math.random] belong to the host: they are the fields of [Host], and the
      engine is parametric in it.  The n-th call the engine makes of
      [Date.now()] returns [dateNow n], the n-th call of [Math.random()]
      returns [mathRandom n]; the state counts the calls made so far.
    - Drones are objects mutated in place and shared through the arrays of the
      simulation state.  A reference to a drone of the arrays is its position
      ([DroneRef]); [this] is such a reference, and [friend !== this] compares
      positions.  The field [target], which outlives the arrays it was taken
      from, holds the [id] of its referent, and so do the entries of
      [jammingTargets]; an id names one drone of its array in every state
      the engine reaches.
    - [trace] is a ghost field: it records each invocation of [update] by the
      orchestrator and the divisor of each ratio computation, and nothing
      reads it.
    - Rendering is left out.  Of the publication of statistics to the UI,
      the values computed from the state are functions of the state
      ([engagedCount], [threatCount], [integrity]); the reading of the clock
      that paces the publication is left out. *)

From Stdlib Require Import QArith Qround ZArith List String Bool Lia Lqa.
From Stdlib Require Import DecimalString DecimalNat PrimFloat.
From stdpp Require Import base list.

#[local] Set Warnings "-inexact-float".
Local Open Scope Q_scope.

(** ** Numbers *)

Definition Qleb (a b : Q) : bool := Qle_bool a b.
Definition Qltb (a b : Q) : bool := negb (Qle_bool b a).
Definition ofNat (n : nat) : Q := inject_Z (Z.of_nat n).

(** [x < m] where [m] is a running minimum that starts at [Infinity]. *)
Definition ltMin (x : Q) (m : option Q) : bool :=
  match m with None => true | Some v => Qltb x v end.
(** [m <= r] for the same kind of running minimum. *)
Definition minLe (m : option Q) (r : Q) : bool :=
  match m with None => false | Some v => Qleb v r end.
(** [m > r]. *)
Definition minGt (m : option Q) (r : Q) : bool :=
  match m with None => true | Some v => Qltb r v end.
(** [x > m] where [m] is a running maximum that starts at [-Infinity]. *)
Definition gtMax (x : Q) (m : option Q) : bool :=
  match m with None => true | Some v => Qltb v x end.

(** [!o] for a reference that may be [null]. *)
Definition isNull {A : Type} (o : option A) : bool :=
  match o with Some _ => false | None => true end.

(** [o && m <= r]: the reference [o], if it is not [null] and the distance [m]
    that goes with it is within [r]. *)
Definition inRange (o : option nat) (m : option Q) (r : Q) : option nat :=
  match o with
  | Some k => if minLe m r then Some k else None
  | None => None
  end.

(** ** Constants *)

Definition CANVAS_WIDTH : Q := 800.
Definition CANVAS_HEIGHT : Q := 600.
Definition THREATENING_RANGE : Q := 150.
Definition FIRING_RANGE : Q := 50.
Definition JAMMING_RANGE : Q := 100.
Definition DRONE_SPEED : Q := 2.
Definition BOMBER_SPEED : Q := 1.2.
Definition HOSTILE_SPEED : Q := 1.5.

Inductive FormationType :=
  | circle | arrowhead | spearhead | double_file | extended_line.

(** ** Data model *)

Module Point.
Record t := mk { x : Q; y : Q }.
End Point.

Module Asset.
Record t := mk {
  x : Q; y : Q; size : Q; type : string; label : string;
  priority : Q; health : Q; maxHealth : Q }.
Definition pos (a : t) : Point.t := Point.mk (x a) (y a).
Definition set_health (h : Q) (a : t) : t :=
  mk (x a) (y a) (size a) (type a) (label a) (priority a) h (maxHealth a).
(** What a reference outside the array reads as; the engine builds no such
    reference. *)
Definition nowhere : t := mk 0 0 0 EmptyString EmptyString 0 0 0.
End Asset.

Module Particle.
Record t := mk {
  x : Q; y : Q; vx : Q; vy : Q; life : Q; maxLife : Q;
  color : string; size : Q }.
End Particle.

Module Drone.
Inductive kind := drone | bomber.

Definition kind_eqb (a b : kind) : bool :=
  match a, b with drone, drone | bomber, bomber => true | _, _ => false end.

Record t := mk {
  id : string;
  x : Q; y : Q; vx : Q; vy : Q;
  isFriendly : bool;
  type : kind;
  target : option string;
  health : Q;
  isEngaging : bool;
  trail : list Point.t;
  lastFired : Z;
  lostCoords : option Point.t;
  isJammed : bool;
  jammingTargets : list string }.

Definition pos (d : t) : Point.t := Point.mk (x d) (y d).

Definition set_pos (x' y' : Q) (d : t) : t :=
  mk (id d) x' y' (vx d) (vy d) (isFriendly d) (type d) (target d) (health d)
     (isEngaging d) (trail d) (lastFired d) (lostCoords d) (isJammed d)
     (jammingTargets d).
Definition set_vel (vx' vy' : Q) (d : t) : t :=
  mk (id d) (x d) (y d) vx' vy' (isFriendly d) (type d) (target d) (health d)
     (isEngaging d) (trail d) (lastFired d) (lostCoords d) (isJammed d)
     (jammingTargets d).
Definition set_target (tg : option string) (d : t) : t :=
  mk (id d) (x d) (y d) (vx d) (vy d) (isFriendly d) (type d) tg (health d)
     (isEngaging d) (trail d) (lastFired d) (lostCoords d) (isJammed d)
     (jammingTargets d).
Definition set_health (h : Q) (d : t) : t :=
  mk (id d) (x d) (y d) (vx d) (vy d) (isFriendly d) (type d) (target d) h
     (isEngaging d) (trail d) (lastFired d) (lostCoords d) (isJammed d)
     (jammingTargets d).
Definition set_isEngaging (b : bool) (d : t) : t :=
  mk (id d) (x d) (y d) (vx d) (vy d) (isFriendly d) (type d) (target d)
     (health d) b (trail d) (lastFired d) (lostCoords d) (isJammed d)
     (jammingTargets d).
Definition set_trail (tr : list Point.t) (d : t) : t :=
  mk (id d) (x d) (y d) (vx d) (vy d) (isFriendly d) (type d) (target d)
     (health d) (isEngaging d) tr (lastFired d) (lostCoords d) (isJammed d)
     (jammingTargets d).
Definition set_lastFired (z : Z) (d : t) : t :=
  mk (id d) (x d) (y d) (vx d) (vy d) (isFriendly d) (type d) (target d)
     (health d) (isEngaging d) (trail d) z (lostCoords d) (isJammed d)
     (jammingTargets d).
Definition set_lostCoords (c : option Point.t) (d : t) : t :=
  mk (id d) (x d) (y d) (vx d) (vy d) (isFriendly d) (type d) (target d)
     (health d) (isEngaging d) (trail d) (lastFired d) c (isJammed d)
     (jammingTargets d).
Definition set_isJammed (b : bool) (d : t) : t :=
  mk (id d) (x d) (y d) (vx d) (vy d) (isFriendly d) (type d) (target d)
     (health d) (isEngaging d) (trail d) (lastFired d) (lostCoords d) b
     (jammingTargets d).
Definition set_jammingTargets (l : list string) (d : t) : t :=
  mk (id d) (x d) (y d) (vx d) (vy d) (isFriendly d) (type d) (target d)
     (health d) (isEngaging d) (trail d) (lastFired d) (lostCoords d)
     (isJammed d) l.

(** The constructor of the class. *)
Definition new (id : string) (x y : Q) (isFriendly : bool) (type : kind) : t :=
  mk id x y 0 0 isFriendly type None
     (match type with bomber => 150 | drone => 100 end)
     false [] 0%Z None false [].

(** What a reference outside the arrays reads as; the engine builds no such
    reference. *)
Definition nowhere : t := new EmptyString 0 0 false drone.

(** [friend.target === hostile] *)
Definition targets (friend hostile : t) : bool :=
  match target friend with
  | Some s => String.eqb s (id hostile)
  | None => false
  end.
End Drone.

(** The map presets. *)
Inductive MapKey := base | city | convoy | airport.

Definition mapAssets (selectedMap : MapKey) : list Asset.t :=
  match selectedMap with
  | base =>
      [ Asset.mk 400 300 30 "command" "Command Center" 10 3000 3000;
        Asset.mk 300 280 20 "aa" "AA Gun" 7 1000 1000;
        Asset.mk 500 320 20 "aa" "AA Gun" 7 1000 1000;
        Asset.mk 350 350 15 "radar" "Radar" 8 800 800;
        Asset.mk 450 250 15 "supply" "Supply Depot" 5 1200 1200 ]
  | city =>
      [ Asset.mk 400 300 35 "hospital" "Hospital" 10 2500 2500;
        Asset.mk 300 250 25 "building" "Office Tower" 6 1500 1500;
        Asset.mk 500 280 25 "building" "Apartment" 8 1500 1500;
        Asset.mk 350 380 20 "power" "Power Station" 9 2000 2000;
        Asset.mk 480 360 18 "building" "School" 9 1500 1500 ]
  | convoy =>
      [ Asset.mk 350 300 18 "vehicle" "Supply Truck" 6 500 500;
        Asset.mk 400 300 18 "vehicle" "Supply Truck" 6 500 500;
        Asset.mk 450 300 18 "vehicle" "Supply Truck" 6 500 500;
        Asset.mk 320 300 20 "armor" "APC" 8 800 800;
        Asset.mk 480 300 20 "armor" "Tank" 7 1200 1200 ]
  | airport =>
      [ Asset.mk 400 280 30 "tower" "Control Tower" 9 2000 2000;
        Asset.mk 300 320 22 "hangar" "Hangar 1" 7 2500 2500;
        Asset.mk 500 320 22 "hangar" "Hangar 2" 7 2500 2500;
        Asset.mk 400 360 18 "fuel" "Fuel Depot" 10 1000 1000;
        Asset.mk 350 240 16 "radar" "Radar" 8 800 800 ]
  end.

(** [`${prefix}${n}`] *)
Definition label (prefix : string) (n : nat) : string :=
  (prefix ++ NilEmpty.string_of_uint (Nat.to_uint n))%string.

(** The host: the numeric library, the clock and the random source. *)
Record Host := mkHost {
  sqrt : Q -> Q;
  atan2 : Q -> Q -> Q;
  cos : Q -> Q;
  sin : Q -> Q;
  PI : Q;
  dateNow : nat -> Z;
  mathRandom : nat -> Q }.

Inductive Event :=
  | EvUpdate (friendly : bool) (id : string) (health : Q)
  | EvDivide (divisor : Q).

Record SimState := mkSim {
  friendlyDrones : list Drone.t;
  hostileDrones : list Drone.t;
  groundAssets : list Asset.t;
  destroyedAssets : list Asset.t;
  particles : list Particle.t;
  friendlyLosses : nat;
  clockReads : nat;
  randomReads : nat;
  trace : list Event }.

Definition set_friendlyDrones (l : list Drone.t) (w : SimState) : SimState :=
  mkSim l (hostileDrones w) (groundAssets w) (destroyedAssets w) (particles w)
        (friendlyLosses w) (clockReads w) (randomReads w) (trace w).
Definition set_hostileDrones (l : list Drone.t) (w : SimState) : SimState :=
  mkSim (friendlyDrones w) l (groundAssets w) (destroyedAssets w) (particles w)
        (friendlyLosses w) (clockReads w) (randomReads w) (trace w).
Definition set_groundAssets (l : list Asset.t) (w : SimState) : SimState :=
  mkSim (friendlyDrones w) (hostileDrones w) l (destroyedAssets w) (particles w)
        (friendlyLosses w) (clockReads w) (randomReads w) (trace w).
Definition set_destroyedAssets (l : list Asset.t) (w : SimState) : SimState :=
  mkSim (friendlyDrones w) (hostileDrones w) (groundAssets w) l (particles w)
        (friendlyLosses w) (clockReads w) (randomReads w) (trace w).
Definition set_particles (l : list Particle.t) (w : SimState) : SimState :=
  mkSim (friendlyDrones w) (hostileDrones w) (groundAssets w)
        (destroyedAssets w) l (friendlyLosses w) (clockReads w)
        (randomReads w) (trace w).
Definition set_friendlyLosses (n : nat) (w : SimState) : SimState :=
  mkSim (friendlyDrones w) (hostileDrones w) (groundAssets w)
        (destroyedAssets w) (particles w) n (clockReads w) (randomReads w)
        (trace w).
Definition set_clockReads (n : nat) (w : SimState) : SimState :=
  mkSim (friendlyDrones w) (hostileDrones w) (groundAssets w)
        (destroyedAssets w) (particles w) (friendlyLosses w) n (randomReads w)
        (trace w).
Definition set_randomReads (n : nat) (w : SimState) : SimState :=
  mkSim (friendlyDrones w) (hostileDrones w) (groundAssets w)
        (destroyedAssets w) (particles w) (friendlyLosses w) (clockReads w) n
        (trace w).
Definition set_trace (l : list Event) (w : SimState) : SimState :=
  mkSim (friendlyDrones w) (hostileDrones w) (groundAssets w)
        (destroyedAssets w) (particles w) (friendlyLosses w) (clockReads w)
        (randomReads w) l.

(** References into the arrays of the state. *)
Inductive DroneRef := Friendly (i : nat) | Hostile (j : nat).

Inductive TargetRef := OfDrone (r : DroneRef) | OfAsset (k : nat).

Definition sameRef (a b : DroneRef) : bool :=
  match a, b with
  | Friendly i, Friendly j | Hostile i, Hostile j => Nat.eqb i j
  | _, _ => false
  end.

Definition deref (w : SimState) (r : DroneRef) : Drone.t :=
  match r with
  | Friendly i => default Drone.nowhere (friendlyDrones w !! i)
  | Hostile j => default Drone.nowhere (hostileDrones w !! j)
  end.

(** [modify r f w]: the object behind [r] is mutated by [f]. *)
Definition modify (r : DroneRef) (f : Drone.t -> Drone.t) (w : SimState) : SimState :=
  match r with
  | Friendly i => set_friendlyDrones (alter f i (friendlyDrones w)) w
  | Hostile j => set_hostileDrones (alter f j (hostileDrones w)) w
  end.

Definition modifyAsset (k : nat) (f : Asset.t -> Asset.t) (w : SimState) : SimState :=
  set_groundAssets (alter f k (groundAssets w)) w.

(** [forEach] over an array whose elements the callback may mutate: the
    callback receives the position and reads the element from the state. *)
Fixpoint forIndices {St : Type} (f : nat -> St -> St) (k n : nat) (s : St) : St :=
  match n with
  | O => s
  | S n' => forIndices f (S k) n' (f k s)
  end.

Definition forEachIndex {St : Type} (n : nat) (f : nat -> St -> St) (s : St) : St :=
  forIndices f 0 n s.

(** ** The engine *)

Section Engine.
Variable H : Host.

(** *** Host calls and the primitives of the state *)

(** [Date.now()] *)
Definition readClock (w : SimState) : Z * SimState :=
  (dateNow H (clockReads w), set_clockReads (S (clockReads w)) w).

(** [Math.random()] *)
Definition readRandom (w : SimState) : Q * SimState :=
  (mathRandom H (randomReads w), set_randomReads (S (randomReads w)) w).

(** [addParticle = p => sim.particles.push(p)] *)
Definition addParticle (p : Particle.t) (w : SimState) : SimState :=
  set_particles (particles w ++ [p]) w.

Definition logEvent (e : Event) (w : SimState) : SimState :=
  set_trace (trace w ++ [e]) w.

(** The [/] of a ratio computation; the divisor goes to the trace. *)
Definition divide (a b : Q) (w : SimState) : Q * SimState :=
  (a / b, logEvent (EvDivide b) w).

Definition assetAt (w : SimState) (k : nat) : Asset.t :=
  default Asset.nowhere (groundAssets w !! k).

(** *** Methods of [Drone] that touch [this] only *)

Definition calculateDistance (this : Drone.t) (other : Point.t) : Q :=
  let dx := Drone.x this - Point.x other in
  let dy := Drone.y this - Point.y other in
  sqrt H (dx * dx + dy * dy).

Definition pushTrail (this : Drone.t) : Drone.t :=
  let tr := Point.mk (Drone.x this) (Drone.y this) :: Drone.trail this in
  Drone.set_trail (if (10 <? length tr)%nat then removelast tr else tr) this.

Definition moveTo (tx ty speed : Q) (this : Drone.t) : Drone.t :=
  let dx := tx - Drone.x this in
  let dy := ty - Drone.y this in
  let dist := sqrt H (dx * dx + dy * dy) in
  let this :=
    if Qltb 1 dist then
      let vx := (dx / dist) * speed in
      let vy := (dy / dist) * speed in
      let this := Drone.set_vel vx vy this in
      Drone.set_pos (Drone.x this + Drone.vx this)
                    (Drone.y this + Drone.vy this) this
    else this in
  pushTrail this.

(** *** [fireAt] *)

Definition targetPos (w : SimState) (t : TargetRef) : Point.t :=
  match t with
  | OfDrone r => Drone.pos (deref w r)
  | OfAsset k => Asset.pos (assetAt w k)
  end.

Definition targetHealth (w : SimState) (t : TargetRef) : Q :=
  match t with
  | OfDrone r => Drone.health (deref w r)
  | OfAsset k => Asset.health (assetAt w k)
  end.

(** [target.health -= damage] *)
Definition damageTarget (t : TargetRef) (damage : Q) (w : SimState) : SimState :=
  match t with
  | OfDrone r =>
      modify r (fun d => Drone.set_health (Drone.health d - damage) d) w
  | OfAsset k =>
      modifyAsset k (fun a => Asset.set_health (Asset.health a - damage) a) w
  end.

(** One round of the loop of [fireAt]. *)
Definition hitParticle (t : TargetRef) (color : string) (w : SimState) : SimState :=
  let p := targetPos w t in
  let '(r1, w) := readRandom w in
  let '(r2, w) := readRandom w in
  let '(r3, w) := readRandom w in
  let '(r4, w) := readRandom w in
  let '(r5, w) := readRandom w in
  let '(r6, w) := readRandom w in
  addParticle
    (Particle.mk (Point.x p + (r1 - 0.5) * 10) (Point.y p + (r2 - 0.5) * 10)
                 ((r3 - 0.5) * 4) ((r4 - 0.5) * 4)
                 (10 + r5 * 10) 20 color (1 + r6 * 2)) w.

Definition fireAt (this : DroneRef) (target : TargetRef) (color : string)
           (damage : Q) (w : SimState) : SimState :=
  let '(now, w) := readClock w in
  if (now - Drone.lastFired (deref w this) <? 100)%Z then w
  else
    let '(now', w) := readClock w in
    let w := modify this (Drone.set_lastFired now') w in
    let w := damageTarget target damage w in
    let w := hitParticle target color w in
    hitParticle target color w.

(** *** Scans *)

(** [arr.reduce((closest, a) => dist(a) < dist(closest) ? a : closest)] *)
Definition nearestByReduce {A : Type} (pos : A -> Point.t) (this : Drone.t)
           (l : list A) : option A :=
  match l with
  | [] => None
  | a :: l' =>
      Some (fold_left
              (fun closest a =>
                 if Qltb (calculateDistance this (pos a))
                         (calculateDistance this (pos closest))
                 then a else closest) l' a)
  end.

(** The [forEach] that keeps the nearest element and its distance, starting
    from [null] and [Infinity]; the element is kept as its position [k]. *)
Fixpoint nearestFrom {A : Type} (pos : A -> Point.t) (this : Drone.t)
         (k : nat) (l : list A) (best : option nat * option Q)
  : option nat * option Q :=
  match l with
  | [] => best
  | a :: l' =>
      let d := calculateDistance this (pos a) in
      nearestFrom pos this (S k) l'
                  (if ltMin d (snd best) then (Some k, Some d) else best)
  end.

Definition nearest {A : Type} (pos : A -> Point.t) (this : Drone.t) (l : list A)
  : option nat * option Q :=
  nearestFrom pos this 0 l (None, None).

(** The counting loop shared by [calculateThreatScore] and [shouldEngage]:
    friends other than [this] whose target is [hostile]. *)
Fixpoint countEngagers (this : DroneRef) (hostile : Drone.t) (k : nat)
         (fs : list Drone.t) : nat :=
  match fs with
  | [] => 0%nat
  | friend :: fs' =>
      ((if negb (sameRef (Friendly k) this) && Drone.targets friend hostile
        then 1 else 0)
       + countEngagers this hostile (S k) fs')%nat
  end.

(** [reduce((sum, a) => sum + f(a), 0)] *)
Definition sumOf {A : Type} (f : A -> Q) (l : list A) : Q :=
  fold_left (fun sum a => sum + f a) l 0.

(** *** Threat assessment *)

(** The nearest-asset loop of [calculateThreatScore]: the least distance and
    the priority of the asset that realises it. *)
Definition nearestAssetPriority (hostile : Drone.t) (assets : list Asset.t)
  : option Q * Q :=
  fold_left
    (fun (acc : option Q * Q) asset =>
       let d := calculateDistance hostile (Asset.pos asset) in
       if ltMin d (fst acc)
       then (Some d,
             if Qeq_bool (Asset.priority asset) 0 then 5
             else Asset.priority asset)
       else acc)
    assets (None, 5).

Definition friendlyBombersExist (fs : list Drone.t) : bool :=
  existsb (fun d => Drone.kind_eqb (Drone.type d) Drone.bomber
                    && Qltb 0 (Drone.health d)) fs.

Definition calculateThreatScore (w : SimState) (this : DroneRef)
           (hostile : Drone.t) (hasCommunication : bool) : Q :=
  let me := deref w this in
  let score := 0 in
  let '(minDist, targetPriority) :=
    nearestAssetPriority hostile (groundAssets w) in
  let score :=
    if minLe minDist THREATENING_RANGE
    then score + (1000 + targetPriority * 10) else score in
  let bombers := friendlyBombersExist (friendlyDrones w) in
  let score :=
    if Drone.kind_eqb (Drone.type me) Drone.drone && bombers then
      if Drone.kind_eqb (Drone.type hostile) Drone.drone
      then score + 2000 else score - 500
    else
      if Drone.kind_eqb (Drone.type hostile) Drone.bomber
      then score + 500 else score in
  let score := score + 100 in
  let distToSelf := calculateDistance me (Drone.pos hostile) in
  let score := score + 50 / (distToSelf + 1) in
  let score :=
    if hasCommunication then
      score - ofNat (countEngagers this hostile 0 (friendlyDrones w)) * 30
    else score in
  score.

Definition isCriticalThreat (w : SimState) (hostile : Drone.t) : bool :=
  let minDist :=
    fold_left
      (fun (minDist : option Q) asset =>
         let d := calculateDistance hostile (Asset.pos asset) in
         if ltMin d minDist then Some d else minDist)
      (groundAssets w) None in
  minLe minDist THREATENING_RANGE.

Definition shouldEngage (this : DroneRef) (target : Drone.t) (w : SimState)
  : bool * SimState :=
  let myDistance := calculateDistance (deref w this) (Drone.pos target) in
  let currentEngagers := countEngagers this target 0 (friendlyDrones w) in
  let '(engagementRatio, w) :=
    divide (ofNat currentEngagers) (ofNat (length (friendlyDrones w))) w in
  (Qltb myDistance 200 || Qltb engagementRatio 0.3, w).

(** The target-selection loop of [update]: the position of the first hostile
    of greatest score. *)
Fixpoint selectFrom (w : SimState) (this : DroneRef) (hasCommunication : bool)
         (k : nat) (hs : list Drone.t) (best : option nat * option Q)
  : option nat * option Q :=
  match hs with
  | [] => best
  | hostile :: hs' =>
      let threatScore := calculateThreatScore w this hostile hasCommunication in
      selectFrom w this hasCommunication (S k) hs'
                 (if gtMax threatScore (snd best)
                  then (Some k, Some threatScore) else best)
  end.

Definition selectTarget (w : SimState) (this : DroneRef)
           (hasCommunication : bool) : option nat :=
  fst (selectFrom w this hasCommunication 0 (hostileDrones w) (None, None)).

(** *** Movement and formation *)

Definition maintainDefensivePosition (this : DroneRef) (w : SimState) : SimState :=
  let assets := groundAssets w in
  if (length assets =? 0)%nat then w
  else
    let '(centerX, w) :=
      divide (sumOf Asset.x assets) (ofNat (length assets)) w in
    let '(centerY, w) :=
      divide (sumOf Asset.y assets) (ofNat (length assets)) w in
    let me := deref w this in
    let dist :=
      sqrt H ((Drone.x me - centerX) ^ 2 + (Drone.y me - centerY) ^ 2) in
    if Qltb 100 dist
    then modify this (moveTo centerX centerY (DRONE_SPEED * 0.5)) w
    else w.

(** [friendlyDrones.indexOf(this)], [None] for [-1]. *)
Definition indexOf (this : DroneRef) (w : SimState) : option nat :=
  match this with
  | Friendly i => if (i <? length (friendlyDrones w))%nat then Some i else None
  | Hostile _ => None
  end.

(** The [while] loop of the spearhead case; it stops within [index + 1]
    rounds, since each round takes at least one from [remaining]. *)
Fixpoint spearheadRow (fuel remaining r : nat) : nat * nat :=
  match fuel with
  | O => (remaining, r)
  | S fuel' =>
      if (r + 1 <=? remaining)%nat
      then spearheadRow fuel' (remaining - (r + 1)) (r + 1)
      else (remaining, r)
  end.

Definition floorQ (q : Q) : Q := inject_Z (Qfloor q).

(** The [switch] of [patrolPosition]: [(targetOffsetX, targetOffsetY)]. *)
Definition formationOffset (formation : FormationType) (index len : nat)
           (w : SimState) : (Q * Q) * SimState :=
  let spacing := 50 in
  match formation with
  | arrowhead =>
      if (index =? 0)%nat then ((0, - spacing * 1.5), w)
      else
        let '(half, w) := divide (ofNat index + 1) 2 w in
        let row := floorQ half in
        let side := if (index mod 2 =? 0)%nat then 1 else -1 in
        ((side * row * spacing, - spacing * 1.5 + row * spacing), w)
  | spearhead =>
      let '(remaining, r) := spearheadRow (S index) index 0 in
      let rowWidth := (ofNat r + 1) * spacing in
      let '(a, w) := divide (- rowWidth) 2 w in
      let '(b, w) := divide spacing 2 w in
      let startX := a + b in
      ((startX + ofNat remaining * spacing, (ofNat r - 1.5) * spacing), w)
  | double_file =>
      let '(half, w) := divide (ofNat index) 2 w in
      let dfRow := floorQ half in
      let dfCol := if (index mod 2 =? 0)%nat then -1 else 1 in
      let '(quarter, w) := divide (ofNat len) 4 w in
      ((dfCol * spacing * 0.8, (dfRow - quarter) * spacing), w)
  | extended_line =>
      let '(half, w) := divide (ofNat len) 2 w in
      (((ofNat index - half) * spacing, 0), w)
  | circle => ((0, 0), w)
  end.

Definition separationStep (this : DroneRef) (me : Drone.t) (separationDist : Q)
           (k : nat) (other : Drone.t) (acc : Q * Q * nat) : Q * Q * nat :=
  let '(sepX, sepY, count) := acc in
  if negb (sameRef (Friendly k) this) && Qltb 0 (Drone.health other) then
    let d := calculateDistance me (Drone.pos other) in
    if Qltb d separationDist && Qltb 0 d then
      let force := (separationDist - d) / separationDist in
      (sepX + (Drone.x me - Drone.x other) / d * force,
       sepY + (Drone.y me - Drone.y other) / d * force,
       S count)
    else acc
  else acc.

Fixpoint separationFrom (this : DroneRef) (me : Drone.t) (separationDist : Q)
         (k : nat) (drones : list Drone.t) (acc : Q * Q * nat) : Q * Q * nat :=
  match drones with
  | [] => acc
  | other :: rest =>
      separationFrom this me separationDist (S k) rest
                     (separationStep this me separationDist k other acc)
  end.

Definition applySeparation (this : DroneRef) (separationDist : Q)
           (w : SimState) : SimState :=
  let me := deref w this in
  let '(sepX, sepY, count) :=
    separationFrom this me separationDist 0 (friendlyDrones w) (0, 0, 0%nat) in
  if (0 <? count)%nat then
    modify this (fun d => Drone.set_pos (Drone.x d + sepX * 1.5)
                                        (Drone.y d + sepY * 1.5) d) w
  else w.

Definition patrolPosition (this : DroneRef) (formation : FormationType)
           (w : SimState) : SimState :=
  let assets := groundAssets w in
  if (length assets =? 0)%nat then w
  else
    let '(centerX, w) :=
      divide (sumOf Asset.x assets) (ofNat (length assets)) w in
    let '(centerY, w) :=
      divide (sumOf Asset.y assets) (ofNat (length assets)) w in
    match indexOf this w with
    | None => w
    | Some index =>
        let w :=
          match formation with
          | circle =>
              let me := deref w this in
              let angle :=
                atan2 H (Drone.y me - centerY) (Drone.x me - centerX) in
              let orbitRadius := 120 in
              let targetX := centerX + cos H (angle + 0.02) * orbitRadius in
              let targetY := centerY + sin H (angle + 0.02) * orbitRadius in
              modify this (moveTo targetX targetY (DRONE_SPEED * 0.3)) w
          | _ =>
              let '((targetOffsetX, targetOffsetY), w) :=
                formationOffset formation index (length (friendlyDrones w)) w in
              let targetX := centerX + targetOffsetX in
              let targetY := centerY + targetOffsetY in
              let me := deref w this in
              let distToSlot :=
                sqrt H ((targetX - Drone.x me) ^ 2 + (targetY - Drone.y me) ^ 2) in
              if Qltb 5 distToSlot
              then modify this (moveTo targetX targetY (DRONE_SPEED * 0.5)) w
              else w
          end in
        applySeparation this 40 w
    end.

(** *** [update]: the friendly side *)

(** Communication lost: the autonomous mode. *)
Definition autonomousMode (this : DroneRef) (w : SimState) : SimState :=
  let '(r, w) := readRandom w in
  let groundThreat := Qltb r 0.7 in
  let me := deref w this in
  if groundThreat && (0 <? length (groundAssets w))%nat then
    match nearestByReduce Asset.pos me (groundAssets w) with
    | Some nearestAsset =>
        modify this (moveTo (Asset.x nearestAsset) (Asset.y nearestAsset)
                            DRONE_SPEED) w
    | None => w
    end
  else if (0 <? length (hostileDrones w))%nat then
    match nearestByReduce Drone.pos me (hostileDrones w) with
    | Some nearestHostile =>
        modify this (moveTo (Drone.x nearestHostile) (Drone.y nearestHostile)
                            DRONE_SPEED) w
    | None => w
    end
  else
    let '(r1, w) := readRandom w in
    let w := modify this (fun d => Drone.set_pos (Drone.x d + (r1 - 0.5))
                                                 (Drone.y d) d) w in
    let '(r2, w) := readRandom w in
    modify this (fun d => Drone.set_pos (Drone.x d)
                                        (Drone.y d + (r2 - 0.5)) d) w.

(** One round of the loop over lost neighbours; the boolean is
    [performingRescue]. *)
Definition rescueStep (this : DroneRef) (k : nat) (st : SimState * bool)
  : SimState * bool :=
  let '(w, performingRescue) := st in
  let friend := deref w (Friendly k) in
  if negb (sameRef (Friendly k) this) then
    match Drone.lostCoords friend with
    | Some lost =>
        let dist := calculateDistance (deref w this) (Drone.pos friend) in
        if Qltb dist 100 then
          (modify (Friendly k) (Drone.set_lostCoords None) w, performingRescue)
        else if negb performingRescue then
          (modify this (moveTo (Point.x lost) (Point.y lost)
                               (DRONE_SPEED * 0.8)) w, true)
        else st
    | None => st
    end
  else st.

Definition rescueLoop (this : DroneRef) (w : SimState) : SimState * bool :=
  forEachIndex (length (friendlyDrones w)) (rescueStep this) (w, false).

(** Mark self as lost if too far from the centre of the swarm. *)
Definition markLost (this : DroneRef) (w : SimState) : SimState :=
  let fs := friendlyDrones w in
  if (1 <? length fs)%nat then
    let '(avgX, w) := divide (sumOf Drone.x fs) (ofNat (length fs)) w in
    let '(avgY, w) := divide (sumOf Drone.y fs) (ofNat (length fs)) w in
    let me := deref w this in
    if Qltb 300 (calculateDistance me (Point.mk avgX avgY))
       && isNull (Drone.lostCoords me)
    then modify this (Drone.set_lostCoords (Some (Drone.pos me))) w
    else w
  else w.

(** One round of the jamming loop. *)
Definition jamStep (this : DroneRef) (j : nat) (w : SimState) : SimState :=
  let h := deref w (Hostile j) in
  if Qltb 0 (Drone.health h)
     && Qleb (calculateDistance (deref w this) (Drone.pos h)) JAMMING_RANGE
  then
    let w := modify (Hostile j) (Drone.set_isJammed true) w in
    let w := modify this (fun d => Drone.set_jammingTargets
                                     (Drone.jammingTargets d ++ [Drone.id h]) d) w in
    let w := modify (Hostile j)
                    (fun d => Drone.set_health (Drone.health d - 0.1) d) w in
    let '(r, w) := readRandom w in
    if Qltb r 0.1 then
      let p := Drone.pos (deref w (Hostile j)) in
      let '(r1, w) := readRandom w in
      let '(r2, w) := readRandom w in
      let '(r3, w) := readRandom w in
      let '(r4, w) := readRandom w in
      addParticle
        (Particle.mk (Point.x p + (r1 - 0.5) * 10) (Point.y p + (r2 - 0.5) * 10)
                     ((r3 - 0.5) * 2) ((r4 - 0.5) * 2) 10 10 "#a855f7" 1.5) w
    else w
  else w.

Definition jamLoop (this : DroneRef) (w : SimState) : SimState :=
  forEachIndex (length (hostileDrones w)) (jamStep this) w.

(** The body of [if (isCritical || this.shouldEngage(...))]: fire within
    firing range, pursuit otherwise. *)
Definition strike (this : DroneRef) (j : nat) (w : SimState) : SimState :=
  let dist := calculateDistance (deref w this)
                                (Drone.pos (deref w (Hostile j))) in
  if Qleb dist FIRING_RANGE then
    let damage :=
      match Drone.type (deref w this) with
      | Drone.bomber => 20
      | Drone.drone => 2
      end in
    fireAt this (OfDrone (Hostile j)) "#fbbf24" damage w
  else
    let h := deref w (Hostile j) in
    modify this (moveTo (Drone.x h) (Drone.y h) DRONE_SPEED) w.

(** The body of [if (highestPriorityTarget)], after [this.target] and
    [this.isEngaging] are set: the strike, or the defensive position. *)
Definition engageTarget (this : DroneRef) (j : nat) (w : SimState) : SimState :=
  let isCritical := isCriticalThreat w (deref w (Hostile j)) in
  let '(go, w) :=
    if isCritical then (true, w)
    else shouldEngage this (deref w (Hostile j)) w in
  if go then strike this j w
  else maintainDefensivePosition this w.

(** The friendly decision logic: selection of the target, then pursuit,
    fire, defence or patrol. *)
Definition engagement (this : DroneRef) (hasCommunication : bool)
           (formation : FormationType) (w : SimState) : SimState :=
  match selectTarget w this hasCommunication with
  | Some j =>
      let w := modify this
                 (Drone.set_target (Some (Drone.id (deref w (Hostile j))))) w in
      let w := modify this (Drone.set_isEngaging true) w in
      engageTarget this j w
  | None =>
      let w := modify this (Drone.set_target None) w in
      let w := modify this (Drone.set_isEngaging false) w in
      patrolPosition this formation w
  end.

(** *** [update]: the hostile side *)

(** The block "Combat Logic": at most one of three actions, in order of
    priority, and none for a jammed drone. *)
Definition hostileCombat (this : DroneRef) (me : Drone.t) (currentSpeed : Q)
           (nearestAsset : option nat) (minAssetDist : option Q)
           (nearestFriendly : option nat) (minFriendlyDist : option Q)
           (w : SimState) : SimState :=
  if negb (Drone.isJammed me) then
    match inRange nearestFriendly minFriendlyDist FIRING_RANGE with
    | Some f =>
        let dmg := match Drone.type me with
                   | Drone.bomber => 15 | Drone.drone => 1.5 end in
        fireAt this (OfDrone (Friendly f)) "#ef4444" dmg w
    | None =>
        match inRange nearestAsset minAssetDist FIRING_RANGE with
        | Some a =>
            let dmg := match Drone.type me with
                       | Drone.bomber => 50 | Drone.drone => 5 end in
            fireAt this (OfAsset a) "#f97316" dmg w
        | None =>
            match inRange nearestFriendly minFriendlyDist
                          (FIRING_RANGE * 1.5) with
            | Some f =>
                let fr := deref w (Friendly f) in
                modify this (moveTo (Drone.x fr) (Drone.y fr) currentSpeed) w
            | None => w
            end
        end
    end
  else w.

(** The block "Movement Logic". *)
Definition hostileMovement (this : DroneRef) (currentSpeed : Q)
           (nearestAsset : option nat) (minAssetDist : option Q)
           (nearestFriendly : option nat) (w : SimState) : SimState :=
  match nearestAsset with
  | Some a =>
      if minGt minAssetDist (FIRING_RANGE * 0.8) then
        let asset := assetAt w a in
        modify this (moveTo (Asset.x asset) (Asset.y asset) currentSpeed) w
      else w
  | None =>
      match nearestFriendly with
      | Some f =>
          let fr := deref w (Friendly f) in
          modify this (moveTo (Drone.x fr) (Drone.y fr) currentSpeed) w
      | None => w
      end
  end.

(** [currentSpeed]: the speed of the type, a fifth of it when jammed. *)
Definition hostileSpeed (me : Drone.t) : Q :=
  let currentSpeed :=
    match Drone.type me with
    | Drone.bomber => BOMBER_SPEED
    | Drone.drone => HOSTILE_SPEED
    end in
  if Drone.isJammed me then currentSpeed * 0.2 else currentSpeed.

Definition hostileLogic (this : DroneRef) (w : SimState) : SimState :=
  let me := deref w this in
  let currentSpeed := hostileSpeed me in
  let '(nearestAsset, minAssetDist) := nearest Asset.pos me (groundAssets w) in
  let '(nearestFriendly, minFriendlyDist) :=
    nearest Drone.pos me (friendlyDrones w) in
  let w := hostileCombat this me currentSpeed nearestAsset minAssetDist
                         nearestFriendly minFriendlyDist w in
  hostileMovement this currentSpeed nearestAsset minAssetDist nearestFriendly w.

(** *** [update] *)

Definition update (this : DroneRef) (hasCommunication jammingEnabled : bool)
           (formation : FormationType) (w : SimState) : SimState :=
  let w := modify this (Drone.set_jammingTargets []) w in
  if Drone.isFriendly (deref w this) then
    if negb hasCommunication then autonomousMode this w
    else
      let '(w, performingRescue) := rescueLoop this w in
      let w := markLost this w in
      if performingRescue then w
      else
        let w := if jammingEnabled then jamLoop this w else w in
        engagement this hasCommunication formation w
  else hostileLogic this w.

(** *** The orchestrator *)

Definition ageParticle (p : Particle.t) : Particle.t :=
  Particle.mk (Particle.x p + Particle.vx p) (Particle.y p + Particle.vy p)
              (Particle.vx p) (Particle.vy p) (Particle.life p - 1)
              (Particle.maxLife p) (Particle.color p) (Particle.size p * 0.95).

Definition ageParticles (w : SimState) : SimState :=
  set_particles
    (List.filter (fun p => Qltb 0 (Particle.life p))
                 (map ageParticle (particles w))) w.

Fixpoint explosionParticles (n : nat) (x y : Q) (color : string) (scale : Q)
         (w : SimState) : SimState :=
  match n with
  | O => w
  | S n' =>
      let '(r1, w) := readRandom w in
      let '(r2, w) := readRandom w in
      let '(r3, w) := readRandom w in
      let '(r4, w) := readRandom w in
      explosionParticles n' x y color scale
        (addParticle
           (Particle.mk x y ((r1 - 0.5) * 8 * scale) ((r2 - 0.5) * 8 * scale)
                        (20 + r3 * 20) 40 color ((2 + r4 * 4) * scale)) w)
  end.

(** [for (let i = 0; i < count; i++)] with [count = 20 * scale]. *)
Definition createExplosion (x y : Q) (color : string) (scale : Q)
           (w : SimState) : SimState :=
  explosionParticles (Z.to_nat (Qceiling (20 * scale))) x y color scale w.

Definition clearJamFlags (w : SimState) : SimState :=
  set_hostileDrones (map (Drone.set_isJammed false) (hostileDrones w)) w.

Definition updateFriendlies (communication jammingEnabled : bool)
           (formation : FormationType) (w : SimState) : SimState :=
  forEachIndex (length (friendlyDrones w))
    (fun i w =>
       let d := deref w (Friendly i) in
       update (Friendly i) communication jammingEnabled formation
              (logEvent (EvUpdate true (Drone.id d) (Drone.health d)) w)) w.

Definition updateHostiles (communication jammingEnabled : bool)
           (formation : FormationType) (w : SimState) : SimState :=
  forEachIndex (length (hostileDrones w))
    (fun j w =>
       let d := deref w (Hostile j) in
       if Qltb 0 (Drone.health d) then
         update (Hostile j) communication jammingEnabled formation
                (logEvent (EvUpdate false (Drone.id d) (Drone.health d)) w)
       else w) w.

Definition checkDeadFriendlies (w : SimState) : SimState :=
  let '(surviving, w) :=
    fold_left
      (fun (acc : list Drone.t * SimState) d =>
         let '(surviving, w) := acc in
         if Qltb 0 (Drone.health d) then (surviving ++ [d], w)
         else (surviving,
               set_friendlyLosses (S (friendlyLosses w))
                 (createExplosion (Drone.x d) (Drone.y d) "#3b82f6" 1 w)))
      (friendlyDrones w) ([], w) in
  set_friendlyDrones surviving w.

Definition checkDeadAssets (w : SimState) : SimState :=
  let '(surviving, w) :=
    fold_left
      (fun (acc : list Asset.t * SimState) a =>
         let '(surviving, w) := acc in
         if Qltb 0 (Asset.health a) then (surviving ++ [a], w)
         else (surviving,
               set_destroyedAssets (destroyedAssets w ++ [a])
                 (createExplosion (Asset.x a) (Asset.y a) "#f59e0b" 2.5 w)))
      (groundAssets w) ([], w) in
  set_groundAssets surviving w.

Definition checkDeadHostiles (w : SimState) : SimState :=
  let '(surviving, w) :=
    fold_left
      (fun (acc : list Drone.t * SimState) d =>
         let '(surviving, w) := acc in
         if Qltb 0 (Drone.health d) then (surviving ++ [d], w)
         else (surviving,
               createExplosion (Drone.x d) (Drone.y d) "#f97316" 1 w))
      (hostileDrones w) ([], w) in
  set_hostileDrones surviving w.

(** The casualty partition. *)
Definition casualtyPartition (w : SimState) : SimState :=
  checkDeadHostiles (checkDeadAssets (checkDeadFriendlies w)).

(** The two update passes of one tick. *)
Definition updatePasses (communication jammingEnabled : bool)
           (formation : FormationType) (w : SimState) : SimState :=
  updateHostiles communication jammingEnabled formation
    (updateFriendlies communication jammingEnabled formation w).

Definition updateSimulation (communication jammingEnabled : bool)
           (formation : FormationType) (w : SimState) : SimState :=
  casualtyPartition
    (updatePasses communication jammingEnabled formation
       (clearJamFlags (ageParticles w))).

(** A run: one tick per entry, with the values of the two live flags. *)
Fixpoint run (formation : FormationType) (flags : list (bool * bool))
         (w : SimState) : SimState :=
  match flags with
  | [] => w
  | (communication, jammingEnabled) :: rest =>
      run formation rest
          (updateSimulation communication jammingEnabled formation w)
  end.

(** *** [initSimulation] *)

Definition spawnFriendly (formation : FormationType) (friendlyCount : nat)
           (centerX centerY : Q) (i : nat) (w : SimState) : SimState :=
  let '(x, y, w) :=
    match formation with
    | circle =>
        let '(frac, w) := divide (ofNat i) (ofNat friendlyCount) w in
        let angle := frac * PI H * 2 in
        (centerX + cos H angle * 150, centerY + sin H angle * 150, w)
    | extended_line =>
        let '(half, w) := divide (ofNat friendlyCount) 2 w in
        (centerX + (ofNat i - half) * 50, centerY, w)
    | double_file =>
        let '(half, w) := divide (ofNat i) 2 w in
        let '(quarter, w) := divide (ofNat friendlyCount) 4 w in
        (centerX, centerY + (floorQ half - quarter) * 50, w)
    | _ =>
        (centerX + (if (i mod 2 =? 0)%nat then 1 else -1) * (ofNat i * 10),
         centerY + ofNat i * 10, w)
    end in
  set_friendlyDrones
    (friendlyDrones w ++ [Drone.new (label "F-" (i + 1)) x y true Drone.drone]) w.

Definition spawnFriendlyBomber (i : nat) (w : SimState) : SimState :=
  let '(r1, w) := readRandom w in
  let x := r1 * CANVAS_WIDTH * 0.3 in
  let '(r2, w) := readRandom w in
  let y := r2 * CANVAS_HEIGHT in
  set_friendlyDrones
    (friendlyDrones w ++ [Drone.new (label "B-" (i + 1)) x y true Drone.bomber]) w.

Definition spawnHostile (i : nat) (w : SimState) : SimState :=
  let '(r, w) := readRandom w in
  let edge := Qfloor (r * 4) in
  let '(x, y, w) :=
    match edge with
    | 0%Z => let '(r, w) := readRandom w in (r * CANVAS_WIDTH, 0, w)
    | 1%Z => let '(r, w) := readRandom w in (CANVAS_WIDTH, r * CANVAS_HEIGHT, w)
    | 2%Z => let '(r, w) := readRandom w in (r * CANVAS_WIDTH, CANVAS_HEIGHT, w)
    | 3%Z => let '(r, w) := readRandom w in (0, r * CANVAS_HEIGHT, w)
    | _ => (0, 0, w)
    end in
  set_hostileDrones
    (hostileDrones w ++ [Drone.new (label "H-" (i + 1)) x y false Drone.drone]) w.

Definition spawnHostileBomber (i : nat) (w : SimState) : SimState :=
  let '(r1, w) := readRandom w in
  let x := CANVAS_WIDTH - r1 * 100 in
  let '(r2, w) := readRandom w in
  let y := r2 * CANVAS_HEIGHT in
  set_hostileDrones
    (hostileDrones w ++ [Drone.new (label "HB-" (i + 1)) x y false Drone.bomber]) w.

Definition initSimulation (selectedMap : MapKey)
           (friendlyCount hostileCount bomberCount hostileBomberCount : nat)
           (formation : FormationType) (w : SimState) : SimState :=
  let w := set_groundAssets (mapAssets selectedMap) w in
  let w := set_destroyedAssets [] w in
  let w := set_particles [] w in
  let w := set_friendlyLosses 0 w in
  let w := set_friendlyDrones [] w in
  let assets := groundAssets w in
  let '(centerX, w) := divide (sumOf Asset.x assets) (ofNat (length assets)) w in
  let '(centerY, w) := divide (sumOf Asset.y assets) (ofNat (length assets)) w in
  let w := forEachIndex friendlyCount
             (spawnFriendly formation friendlyCount centerX centerY) w in
  let w := forEachIndex bomberCount spawnFriendlyBomber w in
  let w := set_hostileDrones [] w in
  let w := forEachIndex hostileCount spawnHostile w in
  forEachIndex hostileBomberCount spawnHostileBomber w.
End Engine.

(** The state of [simRef] before the first [initSimulation]. *)
Definition emptySim : SimState := mkSim [] [] [] [] [] 0 0 0 [].

(** ** A host to run the engine on

    The square root is rounded down to six decimals; the clock advances by
    [period] milliseconds per reading, and every random draw is [draw].  The
    trigonometric functions are those of a flat host and are exact at the
    angle 0 only: the runs below use no circle formation. *)

Definition sqrt6 (q : Q) : Q :=
  Qmake (Z.sqrt (Qnum q * 1000000000000 / QDen q)) 1000000.

Definition steadyHost (start period : Z) (draw : Q) : Host :=
  mkHost sqrt6 (fun _ _ => 0) (fun _ => 1) (fun _ => 0) 3.141592653589793
         (fun n => (start + period * Z.of_nat n)%Z) (fun _ => draw).

(** ** The arithmetic in doubles

    The engine above computes in exact rationals.  JavaScript computes in
    binary64, rounding each operation to the nearest double.  This module
    embeds in binary64 the arithmetic of [moveTo], of the speed of a hostile
    drone and of the jamming damage, to tell where the two part. *)
Module Double.
Local Open Scope float_scope.

(** What [moveTo] reads and writes of a drone. *)
Record Mover := mkMover {
  x : float; y : float; vx : float; vy : float; trail : list (float * float)
}.

Definition origin : Mover := mkMover 0 0 0 0 [].

Definition moveTo (tx ty speed : float) (this : Mover) : Mover :=
  let dx := tx - x this in
  let dy := ty - y this in
  let dist := PrimFloat.sqrt (dx * dx + dy * dy) in
  let this :=
    if 1 <? dist then
      let vx := (dx / dist) * speed in
      let vy := (dy / dist) * speed in
      mkMover (x this + vx) (y this + vy) vx vy (trail this)
    else this in
  let tr := (x this, y this) :: trail this in
  mkMover (x this) (y this) (vx this) (vy this)
          (if (10 <? length tr)%nat then removelast tr else tr).

Definition BOMBER_SPEED : float := 1.2.
Definition HOSTILE_SPEED : float := 1.5.

(** [currentSpeed] of the hostile logic. *)
Definition hostileSpeed (type : Drone.kind) (isJammed : bool) : float :=
  let currentSpeed :=
    match type with
    | Drone.bomber => BOMBER_SPEED
    | Drone.drone => HOSTILE_SPEED
    end in
  if isJammed then currentSpeed * 0.2 else currentSpeed.

(** [h.health -= 0.1] of the jamming loop. *)
Definition jam (health : float) : float := health - 0.1.

End Double.

(** * Vocabulary of the statements *)

(** ** Frames: what an operation may change

    [changes l d d'] relates an object before and after: identity,
    allegiance and type stay, health does not grow, and a field outside [l]
    keeps its value.  [evolves p w w'] lifts this to the arrays, position by
    position, and adds the particles and the events appended to the trace. *)

Inductive Field :=
  | fPos | fVel | fTarget | fHealth | fEngaging | fTrail | fLastFired
  | fLost | fJammed | fJamList.

Definition Field_eqb (a b : Field) : bool :=
  match a, b with
  | fPos, fPos | fVel, fVel | fTarget, fTarget | fHealth, fHealth
  | fEngaging, fEngaging | fTrail, fTrail | fLastFired, fLastFired
  | fLost, fLost | fJammed, fJammed | fJamList, fJamList => true
  | _, _ => false
  end.

Definition may (l : list Field) (f : Field) : bool := existsb (Field_eqb f) l.

Definition keeps {A : Type} (l : list Field) (f : Field) (a a' : A) : Prop :=
  if may l f then True else a' = a.

Record changes (l : list Field) (d d' : Drone.t) : Prop := mkChanges {
  ch_id : Drone.id d' = Drone.id d;
  ch_isFriendly : Drone.isFriendly d' = Drone.isFriendly d;
  ch_type : Drone.type d' = Drone.type d;
  ch_mono : Drone.health d' <= Drone.health d;
  ch_x : keeps l fPos (Drone.x d) (Drone.x d');
  ch_y : keeps l fPos (Drone.y d) (Drone.y d');
  ch_vx : keeps l fVel (Drone.vx d) (Drone.vx d');
  ch_vy : keeps l fVel (Drone.vy d) (Drone.vy d');
  ch_target : keeps l fTarget (Drone.target d) (Drone.target d');
  ch_health : keeps l fHealth (Drone.health d) (Drone.health d');
  ch_isEngaging : keeps l fEngaging (Drone.isEngaging d) (Drone.isEngaging d');
  ch_trail : keeps l fTrail (Drone.trail d) (Drone.trail d');
  ch_lastFired : keeps l fLastFired (Drone.lastFired d) (Drone.lastFired d');
  ch_lostCoords : keeps l fLost (Drone.lostCoords d) (Drone.lostCoords d');
  ch_isJammed : keeps l fJammed (Drone.isJammed d) (Drone.isJammed d');
  ch_jammingTargets :
    keeps l fJamList (Drone.jammingTargets d) (Drone.jammingTargets d') }.

Record assetChanges (allowed : bool) (a a' : Asset.t) : Prop := mkAssetChanges {
  ach_x : Asset.x a' = Asset.x a;
  ach_y : Asset.y a' = Asset.y a;
  ach_size : Asset.size a' = Asset.size a;
  ach_type : Asset.type a' = Asset.type a;
  ach_label : Asset.label a' = Asset.label a;
  ach_priority : Asset.priority a' = Asset.priority a;
  ach_maxHealth : Asset.maxHealth a' = Asset.maxHealth a;
  ach_mono : Asset.health a' <= Asset.health a;
  ach_health : if allowed then True else Asset.health a' = Asset.health a }.

Record Perm := mkPerm {
  onFriendly : list Field;
  onHostile : list Field;
  onAssets : bool;
  onParticles : bool;
  onTrace : Event -> Prop }.

Definition on (p : Perm) (r : DroneRef) : list Field :=
  match r with Friendly _ => onFriendly p | Hostile _ => onHostile p end.

Record evolves (p : Perm) (w w' : SimState) : Prop := mkEvolves {
  ev_friendly :
    Forall2 (changes (onFriendly p)) (friendlyDrones w) (friendlyDrones w');
  ev_hostile :
    Forall2 (changes (onHostile p)) (hostileDrones w) (hostileDrones w');
  ev_assets :
    Forall2 (assetChanges (onAssets p)) (groundAssets w) (groundAssets w');
  ev_particles : if onParticles p then True else particles w' = particles w;
  ev_trace :
    exists evs, trace w' = trace w ++ evs /\ Forall (onTrace p) evs }.

(** A reference that points into its array. *)
Definition validRef (w : SimState) (r : DroneRef) : Prop :=
  match r with
  | Friendly i => (i < length (friendlyDrones w))%nat
  | Hostile j => (j < length (hostileDrones w))%nat
  end.

(** Whom a shot may hurt under [p]. *)
Definition mayHurt (p : Perm) (t : TargetRef) : Prop :=
  match t with
  | OfDrone r => may (on p r) fHealth = true
  | OfAsset _ => onAssets p = true
  end.

(** [l] allows every field of [fs]. *)
Definition allows (l fs : list Field) : bool := forallb (may l) fs.

(** The fields a move writes. *)
Definition moveFields : list Field := [fPos; fVel; fTrail].

(** Every division by a number other than zero may go to the trace. *)
Definition divisionsMay (p : Perm) : Prop :=
  forall d : Q, ~ d == 0 -> onTrace p (EvDivide d).

(** The fields the friendly side of [update] writes: on the friendly drones
    and on the hostile ones. *)
Definition friendlyWrites : list Field :=
  [fPos; fVel; fTrail; fTarget; fEngaging; fLastFired; fLost; fJamList].
Definition friendlyHurts : list Field := [fHealth; fJammed].

(** The fields the hostile side of [update] writes: on the hostile drones
    and on the friendly ones. *)
Definition hostileWrites : list Field := [fPos; fVel; fTrail; fLastFired; fJamList].
Definition hostileHurts : list Field := [fHealth].

(** The arrays hold what [initSimulation] puts there: friendly drones in
    [friendlyDrones], hostile ones in [hostileDrones]. *)
Definition sided (w : SimState) : Prop :=
  Forall (fun d => Drone.isFriendly d = true) (friendlyDrones w)
  /\ Forall (fun d => Drone.isFriendly d = false) (hostileDrones w).

(** [update] may be logged for the drones that satisfy [ok]. *)
Definition updatesMay (p : Perm) (ok : bool -> Drone.t -> Prop) : Prop :=
  forall side d, ok side d -> onTrace p (EvUpdate side (Drone.id d) (Drone.health d)).

(** [q] permits whatever [p] permits. *)
Definition weaker (p q : Perm) : Prop :=
  allows (onFriendly q) (onFriendly p) = true
  /\ allows (onHostile q) (onHostile p) = true
  /\ (onAssets p = true -> onAssets q = true)
  /\ (onParticles p = true -> onParticles q = true)
  /\ (forall e, onTrace p e -> onTrace q e).

(** [health > 0], the test of the casualty partition. *)
Definition droneAlive (d : Drone.t) : bool := Qltb 0 (Drone.health d).
Definition assetAlive (a : Asset.t) : bool := Qltb 0 (Asset.health a).

(** The arrays and the trace are the same in both states. *)
Definition sameArrays (w w' : SimState) : Prop :=
  friendlyDrones w' = friendlyDrones w
  /\ hostileDrones w' = hostileDrones w
  /\ groundAssets w' = groundAssets w
  /\ trace w' = trace w.

(** The clock never runs backwards. *)
Definition monotoneClock (H : Host) : Prop :=
  forall n m : nat, (n <= m)%nat -> (dateNow H n <= dateNow H m)%Z.

(** A host whose clock reads 1000, 1200, 1400, ... and whose random draws
    are all 1/2. *)
Definition benchHost : Host := steadyHost 1000 200 0.5.

(** One interceptor facing one hostile 30 units away; the interceptor last
    fired at [lastFired]. *)
Definition duel (lastFired : Z) : SimState :=
  mkSim [Drone.set_lastFired lastFired (Drone.new "F-1" 0 0 true Drone.drone)]
        [Drone.new "H-1" 30 0 false Drone.drone]
        [] [] [] 0 0 0 [].

(** Ten interceptors in extended line around the assets of the base map and
    one hostile on the lower edge, as [initSimulation] sets them up. *)
Definition tenAgainstOne : SimState :=
  initSimulation benchHost base 10 1 0 0 extended_line emptySim.

(** The score of [calculateThreatScore] without its type-preference term:
    the threatening-range term, the ground-attack bonus, the proximity bonus
    and the penalty for friends already on the target. *)
Definition scoreSansPreference (H : Host) (w : SimState) (this : DroneRef)
           (hostile : Drone.t) (hasCommunication : bool) : Q :=
  let '(minDist, targetPriority) :=
    nearestAssetPriority H hostile (groundAssets w) in
  (if minLe minDist THREATENING_RANGE then 1000 + targetPriority * 10 else 0)
  + 100
  + 50 / (calculateDistance H (deref w this) (Drone.pos hostile) + 1)
  - (if hasCommunication
     then ofNat (countEngagers this hostile 0 (friendlyDrones w)) * 30
     else 0).

(** A friendly bomber alone, facing a hostile bomber and a hostile
    interceptor. *)
Definition loneBomber : SimState :=
  mkSim [Drone.new "B-1" 0 0 true Drone.bomber]
        [Drone.new "HB-1" 300 0 false Drone.bomber;
         Drone.new "H-1" 0 400 false Drone.drone]
        [] [] [] 0 0 0 [].

(** A hostile interceptor with a friendly interceptor 30 units to its left
    and a ground asset 30 units to its right: both within firing range. *)
Definition crossfire : SimState :=
  mkSim [Drone.new "F-1" 0 0 true Drone.drone]
        [Drone.new "H-1" 30 0 false Drone.drone]
        [Asset.mk 60 0 20 "aa" "AA Gun" 7 1000 1000]
        [] [] 0 0 0 [].

(** The unit direction of a move of [d] towards [(tx, ty)], null when the
    point is within 1 of the drone. *)
Definition heading (H : Host) (d : Drone.t) (tx ty : Q) : Q * Q :=
  let dx := tx - Drone.x d in
  let dy := ty - Drone.y d in
  let dist := sqrt H (dx * dx + dy * dy) in
  if Qltb 1 dist then (dx / dist, dy / dist) else (0, 0).

(** The point the block "Movement Logic" heads for, if any. *)
Definition movementTarget (w : SimState) (nearestAsset : option nat)
           (minAssetDist : option Q) (nearestFriendly : option nat)
  : option Point.t :=
  match nearestAsset with
  | Some a =>
      if minGt minAssetDist (FIRING_RANGE * 0.8)
      then Some (Asset.pos (default Asset.nowhere (groundAssets w !! a)))
      else None
  | None =>
      match nearestFriendly with
      | Some f => Some (Drone.pos (deref w (Friendly f)))
      | None => None
      end
  end.

(** The hostile drone chases: no friendly drone and no asset within firing
    range, and a friendly drone within one and a half times that range. *)
Definition chases (H : Host) (w : SimState) (j : nat) : bool :=
  let me := deref w (Hostile j) in
  let '(na, mad) := nearest H Asset.pos me (groundAssets w) in
  let '(nf, mfd) := nearest H Drone.pos me (friendlyDrones w) in
  isNull (inRange nf mfd FIRING_RANGE)
  && isNull (inRange na mad FIRING_RANGE)
  && negb (isNull (inRange nf mfd (FIRING_RANGE * 1.5))).

(** A hostile interceptor with a friendly interceptor [gap] units to its
    right and a ground asset 100 units to its right, jammed or not. *)
Definition pursuit (gap : Q) (jammed : bool) : SimState :=
  mkSim [Drone.new "F-1" gap 0 true Drone.drone]
        [Drone.set_isJammed jammed (Drone.new "H-1" 0 0 false Drone.drone)]
        [Asset.mk 100 0 20 "aa" "AA Gun" 7 1000 1000]
        [] [] 0 0 0 [].

(** What a hostile drone that does not chase may change in its step, and
    what the reset of its jam flag and jam list changes. *)
Definition firePerm : Perm :=
  mkPerm [fHealth] [fJammed; fJamList; fLastFired] true true (fun _ => True).

(** What the jamming of one friendly drone does to a hostile drone. *)
Definition jammedBy (H : Host) (jammer : Drone.t) (h : Drone.t) : Drone.t :=
  if Qltb 0 (Drone.health h)
     && Qleb (calculateDistance H jammer (Drone.pos h)) JAMMING_RANGE
  then Drone.set_health (Drone.health h - 0.1) (Drone.set_isJammed true h)
  else h.

(** What a jamming loop may change. *)
Definition jamPerm : Perm :=
  mkPerm [fJamList] [fJamList; fJammed; fHealth] false true (fun _ => True).

(** What a friendly step that leaves the hostile drones alone may change. *)
Definition quietPerm : Perm :=
  mkPerm friendlyWrites [] false false (fun _ => True).

(** Two interceptors within jamming range of one hostile drone. *)
Definition twoJammers : SimState :=
  mkSim [Drone.new "F-1" 0 0 true Drone.drone;
         Drone.new "F-2" 0 50 true Drone.drone]
        [Drone.new "H-1" 60 0 false Drone.drone]
        [] [] [] 0 0 0 [].

(** A friendly bomber and a hostile interceptor 30 units apart, as their
    constructors make them, and no asset. *)
Definition ambush : SimState :=
  mkSim [Drone.new "B-1" 0 0 true Drone.bomber]
        [Drone.new "H-1" 30 0 false Drone.drone]
        [] [] [] 0 0 0 [].

(** Two interceptors 400 units apart, the second marked as lost where it
    stands and with a target of its own; one hostile interceptor near the
    first. *)
Definition strayed : SimState :=
  mkSim [Drone.new "F-1" 0 0 true Drone.drone;
         Drone.set_lostCoords (Some (Point.mk 400 0))
           (Drone.set_target (Some "H-9"%string)
              (Drone.new "F-2" 400 0 true Drone.drone))]
        [Drone.new "H-1" 30 0 false Drone.drone]
        [] [] [] 0 0 0 [].

(** A hostile interceptor, jammed or not, alone with a ground asset 100 away
    from it, at (60, 80). *)
Definition oblique (jammed : bool) : SimState :=
  mkSim []
        [Drone.set_isJammed jammed (Drone.new "H-1" 0 0 false Drone.drone)]
        [Asset.mk 60 80 20 "aa" "AA Gun" 7 1000 1000]
        [] [] 0 0 0 [].

(** Two interceptors within firing range of a hostile interceptor whose
    health is down to 1. *)
Definition overkill : SimState :=
  mkSim [Drone.new "F-1" 0 0 true Drone.drone;
         Drone.new "F-2" 0 30 true Drone.drone]
        [Drone.set_health 1 (Drone.new "H-1" 30 0 false Drone.drone)]
        [] [] [] 0 0 0 [].

(** [tenAgainstOne] after one tick with communication and without jamming. *)
Definition afterOneTick : SimState :=
  run benchHost extended_line [(true, false)] tenAgainstOne.

(** What the friendly decision logic may change once the target is set. *)
Definition pursuitPerm : Perm :=
  mkPerm (fLastFired :: moveFields) [fHealth] false true (fun _ => True).

(** What a friendly step may change. *)
Definition friendlyPerm : Perm :=
  mkPerm friendlyWrites friendlyHurts false true (fun _ => True).

(** What a friendly step that stops before the decision logic may change. *)
Definition detourPerm : Perm :=
  mkPerm (fLost :: fJamList :: moveFields) [] false false (fun _ => True).

(** The number of friendly drones that report [isEngaging] with [h] as
    target. *)
Definition engagedOn (w : SimState) (h : Drone.t) : nat :=
  length (List.filter (fun d => Drone.isEngaging d && Drone.targets d h)
                      (friendlyDrones w)).

(** An [update] is logged with positive health. *)
Definition updateOfLiving (e : Event) : Prop :=
  match e with
  | EvUpdate _ _ health => 0 < health
  | EvDivide _ => True
  end.

(** A division is logged with a divisor other than zero. *)
Definition divisorNonzero (e : Event) : Prop :=
  match e with
  | EvUpdate _ _ _ => True
  | EvDivide divisor => ~ divisor == 0
  end.

(** Both. *)
Definition soundEvent (e : Event) : Prop :=
  updateOfLiving e /\ divisorNonzero e.

(** The trace of [w'] is that of [w] followed by sound events. *)
Definition soundlyExtends (w w' : SimState) : Prop :=
  exists evs, trace w' = trace w ++ evs /\ Forall soundEvent evs.

Definition allFields : list Field :=
  [fPos; fVel; fTarget; fHealth; fEngaging; fTrail; fLastFired; fLost;
   fJammed; fJamList].

(** The friendly pass, the hostile pass, and a whole tick before its
    partition, with the updates of the living only. *)
Definition friendlyPassPerm : Perm :=
  mkPerm friendlyWrites friendlyHurts false true soundEvent.
Definition hostilePassPerm : Perm :=
  mkPerm hostileHurts hostileWrites true true soundEvent.
Definition tickPerm : Perm :=
  mkPerm allFields allFields true true soundEvent.

(** [d'] is [d] later in its life: same identity, no more health. *)
Definition droneHeir (d d' : Drone.t) : Prop :=
  Drone.id d' = Drone.id d /\ Drone.type d' = Drone.type d
  /\ Drone.health d' <= Drone.health d.
Definition assetHeir (a a' : Asset.t) : Prop :=
  Asset.label a' = Asset.label a /\ Asset.x a' = Asset.x a
  /\ Asset.y a' = Asset.y a /\ Asset.health a' <= Asset.health a.

(** Every element of [l'] is the heir of an element of [l]. *)
Definition descend {A : Type} (heir : A -> A -> Prop) (l l' : list A) : Prop :=
  forall x', In x' l' -> exists x, In x l /\ heir x x'.

Definition friendliesAlive (w : SimState) : Prop :=
  Forall (fun d => 0 < Drone.health d) (friendlyDrones w).

Definition allAlive (w : SimState) : Prop :=
  Forall (fun d => 0 < Drone.health d) (friendlyDrones w)
  /\ Forall (fun d => 0 < Drone.health d) (hostileDrones w)
  /\ Forall (fun a => 0 < Asset.health a) (groundAssets w).

(** The drones of each array bear different ids. *)
Definition distinctIds (w : SimState) : Prop :=
  NoDup (map Drone.id (friendlyDrones w))
  /\ NoDup (map Drone.id (hostileDrones w)).

(** The labels [prefix1], [prefix2], ... *)
Definition labels (prefix : string) (k n : nat) : list string :=
  map (fun i => label prefix (i + 1)) (seq k n).

(** During [initSimulation]: the friendly drones and the assets created so
    far are on their side and alive, and the trace is sound. *)
Definition fit (w0 w : SimState) : Prop :=
  Forall (fun d => Drone.isFriendly d = true /\ 0 < Drone.health d)
         (friendlyDrones w)
  /\ Forall (fun a => 0 < Asset.health a) (groundAssets w)
  /\ soundlyExtends w0 w.

Definition hostilesFit (w : SimState) : Prop :=
  Forall (fun d => Drone.isFriendly d = false /\ 0 < Drone.health d)
         (hostileDrones w).

(** ** Vocabulary of the further properties *)

(** ** Scans

    [firstBest lt val l k v]: [k] is the first position of [l] whose value
    [v] no other value beats for [lt]. *)
Definition firstBest {A : Type} (lt : Q -> Q -> Prop) (val : A -> Q)
           (l : list A) (k : nat) (v : Q) : Prop :=
  (exists a, l !! k = Some a /\ v = val a)
  /\ (forall k' a', l !! k' = Some a' -> ~ lt (val a') v)
  /\ (forall k' a', l !! k' = Some a' -> (k' < k)%nat -> lt v (val a')).

(** The shape shared by the loops that keep the best element seen so far. *)
Fixpoint scanFrom {A : Type} (better : Q -> option Q -> bool) (val : A -> Q)
         (k : nat) (l : list A) (best : option nat * option Q)
  : option nat * option Q :=
  match l with
  | [] => best
  | a :: l' =>
      scanFrom better val (S k) l'
               (if better (val a) (snd best) then (Some k, Some (val a)) else best)
  end.

Definition scanned {A : Type} (lt : Q -> Q -> Prop) (val : A -> Q)
           (pre : list A) (best : option nat * option Q) : Prop :=
  match best with
  | (Some k, Some v) => firstBest lt val pre k v
  | (None, None) => pre = []
  | _ => False
  end.

(** [asset.priority || 5] *)
Definition priorityOr5 (a : Asset.t) : Q :=
  if Qeq_bool (Asset.priority a) 0 then 5 else Asset.priority a.

(** ** The writes of [update]

    The mutations [update] and the methods it calls apply to a drone, and
    the one they apply to an asset. *)
Inductive mutator : (Drone.t -> Drone.t) -> Prop :=
  | mut_moveTo H tx ty speed : mutator (moveTo H tx ty speed)
  | mut_shift dx dy :
      mutator (fun d => Drone.set_pos (Drone.x d + dx) (Drone.y d + dy) d)
  | mut_shiftX dx :
      mutator (fun d => Drone.set_pos (Drone.x d + dx) (Drone.y d) d)
  | mut_shiftY dy :
      mutator (fun d => Drone.set_pos (Drone.x d) (Drone.y d + dy) d)
  | mut_target t : mutator (Drone.set_target t)
  | mut_isEngaging b : mutator (Drone.set_isEngaging b)
  | mut_lastFired z : mutator (Drone.set_lastFired z)
  | mut_lostCoords c : mutator (Drone.set_lostCoords c)
  | mut_isJammed b : mutator (Drone.set_isJammed b)
  | mut_jamReset : mutator (Drone.set_jammingTargets [])
  | mut_jamPush id :
      mutator (fun d => Drone.set_jammingTargets
                          (Drone.jammingTargets d ++ [id]) d)
  | mut_hurt damage :
      mutator (fun d => Drone.set_health (Drone.health d - damage) d).

(** Those of them [update] applies to a drone other than its own: the
    rescue loop reconnects a friend, the jamming loop marks and wears a
    hostile drone, a shot hurts its target. *)
Inductive foreign : (Drone.t -> Drone.t) -> Prop :=
  | for_lostCoords c : foreign (Drone.set_lostCoords c)
  | for_isJammed b : foreign (Drone.set_isJammed b)
  | for_hurt damage :
      foreign (fun d => Drone.set_health (Drone.health d - damage) d).

(** [writesOf this w0 w]: [w] comes from [w0] by mutations of [this], foreign
    mutations of other drones, damage to assets, readings of the clock and
    of the random source, particles pushed and events logged, and by nothing
    else. *)
Inductive writesOf (this : DroneRef) (w0 : SimState) : SimState -> Prop :=
  | wo_refl : writesOf this w0 w0
  | wo_self f w :
      mutator f -> writesOf this w0 w -> writesOf this w0 (modify this f w)
  | wo_other r f w :
      foreign f -> writesOf this w0 w -> writesOf this w0 (modify r f w)
  | wo_asset k damage w :
      writesOf this w0 w ->
      writesOf this w0 (modifyAsset k (fun a => Asset.set_health
                                                  (Asset.health a - damage) a) w)
  | wo_clock n w : writesOf this w0 w -> writesOf this w0 (set_clockReads n w)
  | wo_random n w : writesOf this w0 w -> writesOf this w0 (set_randomReads n w)
  | wo_particle q w : writesOf this w0 w -> writesOf this w0 (addParticle q w)
  | wo_log e w : writesOf this w0 w -> writesOf this w0 (logEvent e w).

(** [writes w0 w]: [w] comes from [w0] by the writes of one drone after
    another. *)
Inductive writes (w0 : SimState) : SimState -> Prop :=
  | wr_refl : writes w0 w0
  | wr_then this w1 w2 : writes w0 w1 -> writesOf this w1 w2 -> writes w0 w2.

(** ** Counts *)

(** The number of elements of [l] that fail [alive]. *)
Definition casualties {A : Type} (alive : A -> bool) (l : list A) : nat :=
  length (List.filter (fun a => negb (alive a)) l).

(** A particle of an explosion at [(x, y)]. *)
Definition debris (x y : Q) (color : string) (p : Particle.t) : Prop :=
  Particle.x p = x /\ Particle.y p = y /\ Particle.color p = color
  /\ Particle.maxLife p = 40.

(** The state but for its particles and the count of random draws. *)
Definition sameButParticles (w w' : SimState) : Prop :=
  sameArrays w w'
  /\ destroyedAssets w' = destroyedAssets w
  /\ friendlyLosses w' = friendlyLosses w
  /\ clockReads w' = clockReads w.

(** Every drone of the arrays has a trail of at most ten points. *)
Definition shortTrail (d : Drone.t) : Prop := (length (Drone.trail d) <= 10)%nat.

Definition boundedTrails (w : SimState) : Prop :=
  Forall shortTrail (friendlyDrones w) /\ Forall shortTrail (hostileDrones w).

(** ** The rosters of [initSimulation] *)

(** The drones [new Drone(`${prefix}${i + 1}`, 0, 0, side, type)] for [i]
    from 0 to [n - 1]. *)
Definition recruits (prefix : string) (side : bool) (type : Drone.kind)
           (n : nat) : list Drone.t :=
  map (fun i => Drone.new (label prefix (i + 1)) 0 0 side type) (seq 0 n).

(** A drone but for its position. *)
Definition unplaced (d : Drone.t) : Drone.t := Drone.set_pos 0 0 d.

(** The random source draws from the interval [[0, 1)]. *)
Definition unitDraws (H : Host) : Prop :=
  forall n, 0 <= mathRandom H n /\ mathRandom H n < 1.

(** Where [initSimulation] puts a hostile drone: an interceptor on the edge
    of the canvas, a bomber in the strip of 100 along the right edge. *)
Definition hostileStart (d : Drone.t) : Prop :=
  0 <= Drone.x d /\ Drone.x d <= CANVAS_WIDTH
  /\ 0 <= Drone.y d /\ Drone.y d <= CANVAS_HEIGHT
  /\ match Drone.type d with
     | Drone.drone =>
         Drone.x d = 0 \/ Drone.x d = CANVAS_WIDTH
         \/ Drone.y d = 0 \/ Drone.y d = CANVAS_HEIGHT
     | Drone.bomber => CANVAS_WIDTH - 100 < Drone.x d
     end.

(** A target that is in its array. *)
Definition validTarget (w : SimState) (t : TargetRef) : Prop :=
  match t with
  | OfDrone r => validRef w r
  | OfAsset k => (k < length (groundAssets w))%nat
  end.

(** A spark of [fireAt]. *)
Definition spark (color : string) (p : Particle.t) : Prop :=
  Particle.color p = color /\ Particle.maxLife p = 20.

(** Two interceptors 50 units apart, the second marked as lost. *)
Definition reunion : SimState :=
  mkSim [Drone.new "F-1" 0 0 true Drone.drone;
         Drone.set_lostCoords (Some (Point.mk 50 0))
           (Drone.new "F-2" 50 0 true Drone.drone)]
        [] [] [] [] 0 0 0 [].

(** ** Sides

    What the friendly pass and the hostile pass of a tick may change,
    whatever they log. *)
Definition friendlyRaid : Perm :=
  mkPerm friendlyWrites friendlyHurts false true (fun _ => True).
Definition hostileRaid : Perm :=
  mkPerm hostileHurts hostileWrites true true (fun _ => True).

(** What a tick without jamming may change before its partition: no jam
    flag. *)
Definition unjammedTick : Perm :=
  mkPerm (fHealth :: friendlyWrites) (fHealth :: hostileWrites) true true
         (fun _ => True).

(** What a tick without communication may change before its partition:
    nothing of a hostile drone but what its own step writes. *)
Definition silentTick : Perm :=
  mkPerm (fHealth :: friendlyWrites) hostileWrites true true (fun _ => True).

(** No hostile drone is marked as jammed. *)
Definition noneJammed (w : SimState) : Prop :=
  Forall (fun d => Drone.isJammed d = false) (hostileDrones w).

(** ** The statistics of [updateSimulation]

    The values the block "Update UI Stats" computes from the state at the end
    of a tick.  [Math.round] rounds to the nearest integer, a half upwards. *)
Definition mathRound (q : Q) : Z := Qfloor (q + 0.5).

Definition engagedCount (w : SimState) : nat :=
  length (List.filter Drone.isEngaging (friendlyDrones w)).

Definition threatCount (H : Host) (w : SimState) : nat :=
  length
    (List.filter
       (fun hostile =>
          existsb (fun asset =>
                     Qleb (calculateDistance H hostile (Asset.pos asset))
                          THREATENING_RANGE)
                  (groundAssets w))
       (hostileDrones w)).

(** [(totalHealth, totalMaxHealth)] after the two loops. *)
Definition assetTotals (w : SimState) : Q * Q :=
  fold_left (fun (acc : Q * Q) a => (fst acc + 0, snd acc + Asset.maxHealth a))
            (destroyedAssets w)
            (fold_left (fun (acc : Q * Q) a =>
                          (fst acc + Asset.health a, snd acc + Asset.maxHealth a))
                       (groundAssets w) (0, 0)).

Definition integrity (w : SimState) : Z :=
  let '(totalHealth, totalMaxHealth) := assetTotals w in
  if Qltb 0 totalMaxHealth
  then mathRound (totalHealth / totalMaxHealth * 100)
  else 0%Z.

(** The assets standing have a health between nothing and their full
    health, and every asset has some full health. *)
Definition assetsSound (w : SimState) : Prop :=
  Forall (fun a => 0 <= Asset.health a /\ Asset.health a <= Asset.maxHealth a
                   /\ 0 < Asset.maxHealth a) (groundAssets w)
  /\ Forall (fun a => 0 < Asset.maxHealth a) (destroyedAssets w).

(** ** Ownership

    [d'] is [d] but for its health, its lost coordinates and its jam flag:
    what the step of another drone can have changed. *)
Definition touched (d d' : Drone.t) : Prop :=
  d' = Drone.set_health (Drone.health d')
         (Drone.set_lostCoords (Drone.lostCoords d')
            (Drone.set_isJammed (Drone.isJammed d') d)).

(** A drone reports [isEngaging] exactly when it has a target. *)
Definition coherent (d : Drone.t) : Prop :=
  Drone.isEngaging d = negb (isNull (Drone.target d)).

(** [engagedCount] counts the friendly drones that have a target. *)
Definition targeting (d : Drone.t) : bool := negb (isNull (Drone.target d)).

(** ** The ledger of the jamming

    The step of the friendly drone at position [i] in the friendly pass, as
    [updateFriendlies] makes it. *)
Definition friendlyTurn (H : Host) (communication jammingEnabled : bool)
           (formation : FormationType) (i : nat) (w : SimState) : SimState :=
  let d := deref w (Friendly i) in
  update H (Friendly i) communication jammingEnabled formation
         (logEvent (EvUpdate true (Drone.id d) (Drone.health d)) w).

(** Whether the friendly drone at [i], taking its step from [w] with
    communication and jamming enabled, jams the hostile drone at [j]: it
    makes no rescue move, and the hostile drone is alive and within jamming
    range of it. *)
Definition jams (H : Host) (i j : nat) (w : SimState) : bool :=
  negb (snd (rescueLoop H (Friendly i)
               (modify (Friendly i) (Drone.set_jammingTargets []) w)))
  && Qltb 0 (Drone.health (deref w (Hostile j)))
  && Qleb (calculateDistance H (deref w (Friendly i))
                             (Drone.pos (deref w (Hostile j))))
          JAMMING_RANGE.

(** The number of friendly drones, from position [k] on and [n] of them, that
    jam the hostile drone at [j] when they take their steps one after another
    from [w]. *)
Fixpoint jammersFrom (H : Host) (formation : FormationType) (j k n : nat)
         (w : SimState) : nat :=
  match n with
  | O => 0
  | S n' =>
      ((if jams H k j w then 1 else 0)
       + jammersFrom H formation j (S k) n'
                     (friendlyTurn H true true formation k w))%nat
  end.

(** The number of friendly drones that jam the hostile drone at [j] in the
    friendly pass from [w], with communication and jamming enabled. *)
Definition jammers (H : Host) (formation : FormationType) (j : nat)
           (w : SimState) : nat :=
  jammersFrom H formation j 0 (length (friendlyDrones w)) w.

(** The damage of a shot of the decision logic, if any. *)
Definition shotDamage (shot : Q) : Prop := shot = 0 \/ shot = 2 \/ shot = 20.

(** * Properties *)

(** ** The engine on small inputs *)

(** [`${prefix}${n}`] prints [n] in decimal. *)
Example label_example : label "HB-" 12 = "HB-12"%string.
Proof. reflexivity. Qed.

(** A move of speed 2 from the origin towards (30, 40), 50 away, ends at
    (1.2, 1.6) and leaves one point in the trail. *)
Example moveTo_example :
  let d := moveTo benchHost 30 40 2 (Drone.new "F-1" 0 0 true Drone.drone) in
  Drone.x d == 1.2 /\ Drone.y d == 1.6 /\ length (Drone.trail d) = 1%nat.
Proof. vm_compute. auto. Qed.

(** Within 1 of the point the drone stays where it is. *)
Example moveTo_near_example :
  Drone.pos (moveTo benchHost 0.5 0 2 (Drone.new "F-1" 0 0 true Drone.drone))
  = Point.mk 0 0.
Proof. vm_compute. reflexivity. Qed.

(** The drone at position 4 of a spearhead is the second of the third row. *)
Example spearheadRow_example : spearheadRow 5 4 0 = (1%nat, 2%nat).
Proof. reflexivity. Qed.

(** The drone at position 3 of an arrowhead: row 2, on the left. *)
Example arrowhead_example :
  let '(x, y) := fst (formationOffset arrowhead 3 10 emptySim) in
  x == -100 /\ y == 25.
Proof. vm_compute. auto. Qed.

(** The rosters [initSimulation] builds. *)
Example initSimulation_example :
  let w := initSimulation benchHost base 2 1 1 1 arrowhead emptySim in
  map Drone.id (friendlyDrones w) = ["F-1"; "F-2"; "B-1"]%string
  /\ map Drone.id (hostileDrones w) = ["H-1"; "HB-1"]%string
  /\ map Drone.health (friendlyDrones w) = [100; 100; 150].
Proof. vm_compute. auto. Qed.

(** ** Comparisons *)

Lemma Qltb_lt (a b : Q) : Qltb a b = true <-> a < b.
Proof.
  unfold Qltb. rewrite negb_true_iff, <- not_true_iff_false, Qle_bool_iff.
  split; [apply Qnot_le_lt | apply Qlt_not_le].
Qed.

Lemma Qltb_ge (a b : Q) : Qltb a b = false <-> b <= a.
Proof.
  unfold Qltb. rewrite negb_false_iff. apply Qle_bool_iff.
Qed.

Lemma Qleb_le (a b : Q) : Qleb a b = true <-> a <= b.
Proof. apply Qle_bool_iff. Qed.

Lemma Qleb_gt (a b : Q) : Qleb a b = false <-> b < a.
Proof.
  unfold Qleb. rewrite <- not_true_iff_false, Qle_bool_iff.
  split; [apply Qnot_le_lt | apply Qlt_not_le].
Qed.

(** ** Frames *)

Lemma keeps_refl {A : Type} l f (a : A) : keeps l f a a.
Proof. unfold keeps. destruct (may l f); auto. Qed.

Lemma keeps_trans {A : Type} l f (a b c : A) :
  keeps l f a b -> keeps l f b c -> keeps l f a c.
Proof. unfold keeps. destruct (may l f); auto. intros; congruence. Qed.

Lemma keeps_may {A : Type} l f (a b : A) : may l f = true -> keeps l f a b.
Proof. unfold keeps. intros ->. exact I. Qed.

Lemma changes_refl l d : changes l d d.
Proof. constructor; auto using keeps_refl. apply Qle_refl. Qed.

Lemma changes_trans l a b c : changes l a b -> changes l b c -> changes l a c.
Proof.
  intros [] []; constructor; try congruence; eauto using keeps_trans.
  eapply Qle_trans; eauto.
Qed.

Lemma assetChanges_refl b a : assetChanges b a a.
Proof. constructor; auto. apply Qle_refl. destruct b; auto. Qed.

Lemma assetChanges_trans b x y z :
  assetChanges b x y -> assetChanges b y z -> assetChanges b x z.
Proof.
  intros [] []; constructor; try congruence.
  - eapply Qle_trans; eauto.
  - destruct b; auto; congruence.
Qed.

Lemma Forall2_refl_of {A : Type} (R : A -> A -> Prop) (l : list A) :
  (forall a, R a a) -> Forall2 R l l.
Proof. intros HR. induction l; constructor; auto. Qed.

Lemma Forall2_trans_of {A : Type} (R : A -> A -> Prop) (l1 l2 l3 : list A) :
  (forall a b c, R a b -> R b c -> R a c) ->
  Forall2 R l1 l2 -> Forall2 R l2 l3 -> Forall2 R l1 l3.
Proof.
  intros HR H12. revert l3.
  induction H12; intros l3 H23; inversion H23; subst; constructor; eauto.
Qed.

Lemma evolves_refl p w : evolves p w w.
Proof.
  constructor.
  - apply Forall2_refl_of, changes_refl.
  - apply Forall2_refl_of, changes_refl.
  - apply Forall2_refl_of, assetChanges_refl.
  - destruct (onParticles p); auto.
  - exists []. split; [now rewrite app_nil_r | constructor].
Qed.

Lemma evolves_trans p w1 w2 w3 :
  evolves p w1 w2 -> evolves p w2 w3 -> evolves p w1 w3.
Proof.
  intros [F1 H1 A1 P1 (e1 & T1 & O1)] [F2 H2 A2 P2 (e2 & T2 & O2)].
  constructor.
  - eapply Forall2_trans_of; eauto using changes_trans.
  - eapply Forall2_trans_of; eauto using changes_trans.
  - eapply Forall2_trans_of; eauto using assetChanges_trans.
  - destruct (onParticles p); auto; congruence.
  - exists (e1 ++ e2). split.
    + rewrite T2, T1. now rewrite <- app_assoc.
    + apply Forall_app; auto.
Qed.

Ltac changes_tac :=
  constructor; cbn;
  auto using keeps_refl, keeps_may, Qle_refl.

Lemma changes_set_pos l x y d :
  may l fPos = true -> changes l d (Drone.set_pos x y d).
Proof. intros; changes_tac. Qed.

Lemma changes_set_vel l x y d :
  may l fVel = true -> changes l d (Drone.set_vel x y d).
Proof. intros; changes_tac. Qed.

Lemma changes_set_target l t d :
  may l fTarget = true -> changes l d (Drone.set_target t d).
Proof. intros; changes_tac. Qed.

Lemma changes_set_health l h d :
  may l fHealth = true -> h <= Drone.health d ->
  changes l d (Drone.set_health h d).
Proof. intros; changes_tac. Qed.

Lemma changes_set_isEngaging l b d :
  may l fEngaging = true -> changes l d (Drone.set_isEngaging b d).
Proof. intros; changes_tac. Qed.

Lemma changes_set_trail l t d :
  may l fTrail = true -> changes l d (Drone.set_trail t d).
Proof. intros; changes_tac. Qed.

Lemma changes_set_lastFired l z d :
  may l fLastFired = true -> changes l d (Drone.set_lastFired z d).
Proof. intros; changes_tac. Qed.

Lemma changes_set_lostCoords l c d :
  may l fLost = true -> changes l d (Drone.set_lostCoords c d).
Proof. intros; changes_tac. Qed.

Lemma changes_set_isJammed l b d :
  may l fJammed = true -> changes l d (Drone.set_isJammed b d).
Proof. intros; changes_tac. Qed.

Lemma changes_set_jammingTargets l t d :
  may l fJamList = true -> changes l d (Drone.set_jammingTargets t d).
Proof. intros; changes_tac. Qed.

Lemma assetChanges_set_health h a :
  h <= Asset.health a -> assetChanges true a (Asset.set_health h a).
Proof. intros; constructor; cbn; auto. Qed.

Section Frames.
Variable H : Host.
Variable p : Perm.

Lemma changes_pushTrail l d :
  may l fTrail = true -> changes l d (pushTrail d).
Proof. intros; unfold pushTrail; changes_tac. Qed.

Lemma changes_moveTo l tx ty speed d :
  may l fPos = true -> may l fVel = true -> may l fTrail = true ->
  changes l d (moveTo H tx ty speed d).
Proof.
  intros. unfold moveTo, pushTrail.
  destruct (Qltb 1 _); changes_tac.
Qed.

Lemma evolves_env w0 w w' :
  friendlyDrones w' = friendlyDrones w ->
  hostileDrones w' = hostileDrones w ->
  groundAssets w' = groundAssets w ->
  particles w' = particles w ->
  trace w' = trace w ->
  evolves p w0 w -> evolves p w0 w'.
Proof.
  intros E1 E2 E3 E4 E5 [? ? ? ? ?].
  constructor; rewrite ?E1, ?E2, ?E3, ?E4, ?E5; auto.
Qed.

Lemma evolves_clock w0 w n :
  evolves p w0 w -> evolves p w0 (set_clockReads n w).
Proof. now apply evolves_env. Qed.

Lemma evolves_random w0 w n :
  evolves p w0 w -> evolves p w0 (set_randomReads n w).
Proof. now apply evolves_env. Qed.

Lemma evolves_friendlyLosses w0 w n :
  evolves p w0 w -> evolves p w0 (set_friendlyLosses n w).
Proof. now apply evolves_env. Qed.

Lemma evolves_destroyedAssets w0 w l :
  evolves p w0 w -> evolves p w0 (set_destroyedAssets l w).
Proof. now apply evolves_env. Qed.

Lemma evolves_addParticle w0 w q :
  onParticles p = true -> evolves p w0 w -> evolves p w0 (addParticle q w).
Proof.
  intros E [? ? ? ? ?]. constructor; cbn; auto. now rewrite E.
Qed.

Lemma evolves_logEvent w0 w e :
  onTrace p e -> evolves p w0 w -> evolves p w0 (logEvent e w).
Proof.
  intros E [? ? ? ? (evs & T & O)]. constructor; cbn; auto.
  exists (evs ++ [e]). split.
  - now rewrite T, <- app_assoc.
  - apply Forall_app. split; auto.
Qed.

Lemma evolves_modify r f w0 w :
  (forall d, changes (on p r) d (f d)) ->
  evolves p w0 w -> evolves p w0 (modify r f w).
Proof.
  intros Hf [HF HH HA HP HT].
  destruct r; constructor; cbn; auto;
    apply Forall2_alter_r; auto; intros; eapply changes_trans; eauto.
Qed.

Lemma evolves_modifyAsset k f w0 w :
  (forall a, assetChanges (onAssets p) a (f a)) ->
  evolves p w0 w -> evolves p w0 (modifyAsset k f w).
Proof.
  intros Hf [HF HH HA HP HT].
  constructor; cbn; auto.
  apply Forall2_alter_r; auto; intros; eapply assetChanges_trans; eauto.
Qed.

Lemma evolves_validRef w0 w r :
  evolves p w0 w -> validRef w0 r -> validRef w r.
Proof.
  intros [HF HH _ _ _]. destruct r; cbn;
    [rewrite <- (Forall2_length _ _ _ HF) | rewrite <- (Forall2_length _ _ _ HH)];
    auto.
Qed.

Lemma evolves_validRef_both w0 w w' r :
  evolves p w0 w -> evolves p w0 w' -> validRef w r -> validRef w' r.
Proof.
  intros [HF HH _ _ _] [HF' HH' _ _ _]. destruct r; cbn.
  - rewrite <- (Forall2_length _ _ _ HF'), (Forall2_length _ _ _ HF). auto.
  - rewrite <- (Forall2_length _ _ _ HH'), (Forall2_length _ _ _ HH). auto.
Qed.

Lemma forIndices_invariant {St : Type} (P : St -> Prop) f k n (s : St) :
  P s -> (forall i s, (k <= i < k + n)%nat -> P s -> P (f i s)) ->
  P (forIndices f k n s).
Proof.
  revert k s. induction n as [|n IH]; intros k s Hs Hf; cbn; auto.
  apply IH.
  - apply Hf; auto. lia.
  - intros i s' Hi. apply Hf. lia.
Qed.

Lemma evolves_damageTarget t damage w0 w :
  mayHurt p t -> 0 <= damage ->
  evolves p w0 w -> evolves p w0 (damageTarget t damage w).
Proof.
  intros Ht Hd Hev. destruct t as [r|k]; cbn in *.
  - apply evolves_modify; auto. intros d.
    apply changes_set_health; auto. lra.
  - apply evolves_modifyAsset; auto. intros a. rewrite Ht.
    apply assetChanges_set_health. lra.
Qed.

Lemma evolves_hitParticle t color w0 w :
  onParticles p = true ->
  evolves p w0 w -> evolves p w0 (hitParticle H t color w).
Proof.
  intros Hp Hev. unfold hitParticle, readRandom. cbv beta iota zeta.
  apply evolves_addParticle; auto.
  repeat apply evolves_random. exact Hev.
Qed.

Lemma evolves_fireAt this target color damage w0 w :
  may (on p this) fLastFired = true -> mayHurt p target ->
  onParticles p = true -> 0 <= damage ->
  evolves p w0 w -> evolves p w0 (fireAt H this target color damage w).
Proof.
  intros Hl Ht Hp Hd Hev. unfold fireAt, readClock. cbv beta iota zeta.
  destruct (_ <? _)%Z.
  - now apply evolves_clock.
  - apply evolves_hitParticle; auto.
    apply evolves_hitParticle; auto.
    apply evolves_damageTarget; auto.
    apply evolves_modify; [intros; now apply changes_set_lastFired|].
    now do 2 apply evolves_clock.
Qed.

Lemma allows_may l fs f : allows l fs = true -> In f fs -> may l f = true.
Proof.
  unfold allows. rewrite forallb_forall. auto.
Qed.

Lemma ofNat_nonzero n : n <> 0%nat -> ~ ofNat n == 0.
Proof.
  intros Hn E. unfold ofNat, Qeq in E. cbn in E. lia.
Qed.

Lemma two_nonzero : ~ 2 == 0.
Proof. intros E; discriminate E. Qed.

Lemma four_nonzero : ~ 4 == 0.
Proof. intros E; discriminate E. Qed.
End Frames.

Lemma allows_may_b l fs f :
  allows l fs = true -> existsb (Field_eqb f) fs = true -> may l f = true.
Proof.
  unfold allows. rewrite forallb_forall, existsb_exists.
  intros Hl (g & Hg & E). destruct f, g; try discriminate E; auto.
Qed.

Lemma allows_subset l fs fs' :
  allows l fs = true ->
  forallb (fun f => existsb (Field_eqb f) fs) fs' = true ->
  allows l fs' = true.
Proof.
  intros Hl Hs. unfold allows. rewrite forallb_forall in *.
  intros f Hf. eapply allows_may_b; eauto.
Qed.

Ltac solve_may :=
  cbn [on] in *;
  match goal with
  | Hl : allows ?l ?fs = true |- may ?l ?f = true =>
      apply (allows_may_b l fs f Hl); reflexivity
  end.

Ltac solve_allows :=
  cbn [on] in *;
  match goal with
  | Hl : allows ?l ?fs = true |- allows ?l ?fs' = true =>
      apply (allows_subset l fs fs' Hl); reflexivity
  end.

Ltac solve_changes :=
  first
    [ apply changes_refl
    | apply changes_moveTo; solve_may
    | apply changes_set_pos; solve_may
    | apply changes_set_vel; solve_may
    | apply changes_set_target; solve_may
    | apply changes_set_isEngaging; solve_may
    | apply changes_set_trail; solve_may
    | apply changes_set_lastFired; solve_may
    | apply changes_set_lostCoords; solve_may
    | apply changes_set_isJammed; solve_may
    | apply changes_set_jammingTargets; solve_may
    | apply changes_set_health; [solve_may | lra] ].

Ltac solve_division :=
  match goal with
  | Hd : divisionsMay ?p |- onTrace ?p (EvDivide _) =>
      apply Hd;
      first [ apply two_nonzero | apply four_nonzero
            | apply ofNat_nonzero; cbn in *; lia ]
  end.

Ltac frame_step :=
  lazymatch goal with
  | |- evolves _ _ (set_clockReads _ _) => apply evolves_clock
  | |- evolves _ _ (set_randomReads _ _) => apply evolves_random
  | |- evolves _ _ (set_friendlyLosses _ _) => apply evolves_friendlyLosses
  | |- evolves _ _ (set_destroyedAssets _ _) => apply evolves_destroyedAssets
  | |- evolves _ _ (addParticle _ _) => apply evolves_addParticle; [assumption|]
  | |- evolves _ _ (logEvent (EvDivide _) _) =>
      apply evolves_logEvent; [solve_division|]
  | |- evolves _ _ (modify _ _ _) =>
      apply evolves_modify; [intros; solve_changes|]
  | |- evolves _ _ (if ?c then _ else _) => destruct c eqn:?
  | |- evolves _ _ (match ?o with _ => _ end) => destruct o eqn:?
  | |- evolves _ _ _ => assumption
  end.

Ltac frame := repeat frame_step.

Section FrameOfMethods.
Variable H : Host.
Variable p : Perm.
Hypothesis divisions : divisionsMay p.

Lemma length_eqb_false {A : Type} (l : list A) :
  (length l =? 0)%nat = false -> length l <> 0%nat.
Proof. now rewrite Nat.eqb_neq. Qed.

Lemma evolves_maintainDefensivePosition this w0 w :
  allows (on p this) moveFields = true ->
  evolves p w0 w -> evolves p w0 (maintainDefensivePosition H this w).
Proof.
  intros Hm Hev. unfold maintainDefensivePosition, divide.
  destruct (length (groundAssets w) =? 0)%nat eqn:E; [assumption|].
  apply length_eqb_false in E.
  cbv beta iota zeta. frame.
Qed.

Lemma evolves_formationOffset formation index len w0 w :
  evolves p w0 w ->
  evolves p w0 (snd (formationOffset formation index len w)).
Proof.
  intros Hev. unfold formationOffset, divide.
  destruct formation; cbv beta iota zeta; cbn [snd]; try assumption.
  - destruct (index =? 0)%nat; cbn [snd]; frame.
  - destruct (spearheadRow _ _ _). cbn [snd]. frame.
  - frame.
  - frame.
Qed.

Lemma evolves_applySeparation this d w0 w :
  allows (on p this) moveFields = true ->
  evolves p w0 w -> evolves p w0 (applySeparation H this d w).
Proof.
  intros Hm Hev. unfold applySeparation.
  destruct (separationFrom _ _ _ _ _ _) as [[sx sy] c]. frame.
Qed.

Lemma evolves_patrolPosition this formation w0 w :
  allows (on p this) moveFields = true ->
  evolves p w0 w -> evolves p w0 (patrolPosition H this formation w).
Proof.
  intros Hm Hev. unfold patrolPosition.
  destruct (length (groundAssets w) =? 0)%nat eqn:E; [assumption|].
  apply length_eqb_false in E.
  unfold divide. cbv beta iota zeta.
  set (w1 := logEvent _ (logEvent _ w)).
  assert (Hev1 : evolves p w0 w1) by (subst w1; frame).
  clearbody w1.
  destruct (indexOf _ _); [|assumption].
  apply evolves_applySeparation; auto.
  destruct formation.
  - frame.
  - pose proof (evolves_formationOffset arrowhead n
                  (length (friendlyDrones w1)) _ _ Hev1) as Ho.
    destruct (formationOffset _ _ _ _) as [[ox oy] w2]. cbn [snd] in Ho. frame.
  - pose proof (evolves_formationOffset spearhead n
                  (length (friendlyDrones w1)) _ _ Hev1) as Ho.
    destruct (formationOffset _ _ _ _) as [[ox oy] w2]. cbn [snd] in Ho. frame.
  - pose proof (evolves_formationOffset double_file n
                  (length (friendlyDrones w1)) _ _ Hev1) as Ho.
    destruct (formationOffset _ _ _ _) as [[ox oy] w2]. cbn [snd] in Ho. frame.
  - pose proof (evolves_formationOffset extended_line n
                  (length (friendlyDrones w1)) _ _ Hev1) as Ho.
    destruct (formationOffset _ _ _ _) as [[ox oy] w2]. cbn [snd] in Ho. frame.
Qed.

Lemma evolves_autonomousMode this w0 w :
  allows (on p this) moveFields = true ->
  evolves p w0 w -> evolves p w0 (autonomousMode H this w).
Proof.
  intros Hm Hev. unfold autonomousMode, readRandom.
  cbv beta iota zeta. frame.
Qed.

Lemma evolves_rescueStep this k w0 st :
  allows (on p this) moveFields = true ->
  may (onFriendly p) fLost = true ->
  evolves p w0 (fst st) -> evolves p w0 (fst (rescueStep H this k st)).
Proof.
  intros Hm Hl Hev. destruct st as [w b]. cbn [fst] in Hev.
  unfold rescueStep.
  destruct (negb _); [|assumption].
  destruct (Drone.lostCoords _); [|assumption].
  destruct (Qltb _ _); cbn [fst].
  - apply evolves_modify; auto. intros. now apply changes_set_lostCoords.
  - destruct (negb b); cbn [fst]; frame.
Qed.

Lemma evolves_rescueLoop this w0 w :
  allows (on p this) moveFields = true ->
  may (onFriendly p) fLost = true ->
  evolves p w0 w -> evolves p w0 (fst (rescueLoop H this w)).
Proof.
  intros Hm Hl Hev. unfold rescueLoop, forEachIndex.
  apply (forIndices_invariant (fun st => evolves p w0 (fst st))); auto.
  intros. now apply evolves_rescueStep.
Qed.

Lemma evolves_markLost this w0 w :
  may (on p this) fLost = true ->
  evolves p w0 w -> evolves p w0 (markLost H this w).
Proof.
  intros Hl Hev. unfold markLost, divide.
  destruct (1 <? length (friendlyDrones w))%nat eqn:E; [|assumption].
  apply Nat.ltb_lt in E.
  cbv beta iota zeta.
  destruct (_ && _).
  - apply evolves_modify; [intros; now apply changes_set_lostCoords|]. frame.
  - frame.
Qed.

Lemma evolves_jamStep this j w0 w :
  may (on p this) fJamList = true ->
  allows (onHostile p) friendlyHurts = true ->
  onParticles p = true ->
  evolves p w0 w -> evolves p w0 (jamStep H this j w).
Proof.
  intros Hl Hh Hp Hev. unfold jamStep, readRandom.
  cbv beta iota zeta.
  destruct (_ && _); [|assumption].
  destruct (Qltb _ _).
  - frame_step. repeat apply evolves_random.
    apply evolves_modify; [intros; solve_changes|].
    apply evolves_modify; [intros; now apply changes_set_jammingTargets|].
    frame.
  - apply evolves_random.
    apply evolves_modify; [intros; solve_changes|].
    apply evolves_modify; [intros; now apply changes_set_jammingTargets|].
    frame.
Qed.

Lemma evolves_jamLoop this w0 w :
  may (on p this) fJamList = true ->
  allows (onHostile p) friendlyHurts = true ->
  onParticles p = true ->
  evolves p w0 w -> evolves p w0 (jamLoop H this w).
Proof.
  intros Hl Hh Hp Hev. unfold jamLoop, forEachIndex.
  apply (forIndices_invariant (fun w => evolves p w0 w)); auto.
  intros. now apply evolves_jamStep.
Qed.

Lemma evolves_shouldEngage i target w0 w :
  validRef w (Friendly i) ->
  evolves p w0 w -> evolves p w0 (snd (shouldEngage H (Friendly i) target w)).
Proof.
  intros Hv Hev. unfold shouldEngage, divide. cbv beta iota zeta. cbn [snd].
  frame.
Qed.

Lemma evolves_strike this j w0 w :
  allows (on p this) (fLastFired :: moveFields) = true ->
  may (onHostile p) fHealth = true ->
  onParticles p = true ->
  evolves p w0 w ->
  evolves p w0 (strike H this j w).
Proof.
  intros Hf Hh Hp Hev. unfold strike.
  destruct (Qleb _ _).
  - apply evolves_fireAt; auto; [solve_may | now destruct (Drone.type _)].
  - frame.
Qed.

Lemma evolves_engageTarget i j w0 w :
  validRef w (Friendly i) ->
  allows (onFriendly p) (fLastFired :: moveFields) = true ->
  may (onHostile p) fHealth = true ->
  onParticles p = true ->
  evolves p w0 w ->
  evolves p w0 (engageTarget H (Friendly i) j w).
Proof.
  intros Hv Hf Hh Hp Hev. unfold engageTarget.
  destruct (isCriticalThreat _ _ _).
  - now apply evolves_strike.
  - pose proof (evolves_shouldEngage i (deref w (Hostile j)) _ _ Hv Hev) as Hs.
    destruct (shouldEngage _ _ _ _) as [go w2]. cbn [snd] in Hs.
    destruct go.
    + now apply evolves_strike.
    + apply evolves_maintainDefensivePosition; auto. solve_allows.
Qed.

Lemma evolves_engagement i hasCommunication formation w0 w :
  validRef w (Friendly i) ->
  allows (onFriendly p) friendlyWrites = true ->
  may (onHostile p) fHealth = true ->
  onParticles p = true ->
  evolves p w0 w ->
  evolves p w0 (engagement H (Friendly i) hasCommunication formation w).
Proof.
  intros Hv Hf Hh Hp Hev. unfold engagement.
  destruct (selectTarget _ _ _ _) as [j|].
  - apply evolves_engageTarget; auto.
    + cbn in *. now rewrite !length_alter.
    + solve_allows.
    + frame.
  - apply evolves_patrolPosition; auto; [solve_allows|]. frame.
Qed.

Lemma evolves_hostileCombat this me speed na mad nf mfd w0 w :
  allows (on p this) hostileWrites = true ->
  may (onFriendly p) fHealth = true ->
  onAssets p = true ->
  onParticles p = true ->
  evolves p w0 w ->
  evolves p w0 (hostileCombat H this me speed na mad nf mfd w).
Proof.
  intros Hw Hf Ha Hp Hev. unfold hostileCombat.
  destruct (negb _); [|assumption].
  destruct (inRange nf _ _).
  - apply evolves_fireAt; auto; [solve_may | now destruct (Drone.type _)].
  - destruct (inRange na _ _).
    + apply evolves_fireAt; auto; [solve_may | now destruct (Drone.type _)].
    + frame.
Qed.

Lemma evolves_hostileMovement this speed na mad nf w0 w :
  allows (on p this) moveFields = true ->
  evolves p w0 w ->
  evolves p w0 (hostileMovement H this speed na mad nf w).
Proof.
  intros Hw Hev. unfold hostileMovement. frame.
Qed.

Lemma evolves_hostileLogic this w0 w :
  allows (on p this) hostileWrites = true ->
  may (onFriendly p) fHealth = true ->
  onAssets p = true ->
  onParticles p = true ->
  evolves p w0 w -> evolves p w0 (hostileLogic H this w).
Proof.
  intros Hw Hf Ha Hp Hev. unfold hostileLogic.
  destruct (nearest _ _ _ (groundAssets w)) as [nearestAsset minAssetDist].
  destruct (nearest _ _ _ (friendlyDrones w)) as [nearestFriendly minFriendlyDist].
  apply evolves_hostileMovement; [solve_allows|].
  now apply evolves_hostileCombat.
Qed.

Lemma evolves_deref r w w' :
  evolves p w w' -> changes (on p r) (deref w r) (deref w' r).
Proof.
  intros [HF HH _ _ _]. destruct r as [i|j]; cbn.
  - destruct (friendlyDrones w !! i) as [d|] eqn:E.
    + destruct (Forall2_lookup_l _ _ _ _ _ HF E) as (d' & -> & Hd). exact Hd.
    + apply lookup_ge_None in E. rewrite (Forall2_length _ _ _ HF) in E.
      apply lookup_ge_None in E. rewrite E. apply changes_refl.
  - destruct (hostileDrones w !! j) as [d|] eqn:E.
    + destruct (Forall2_lookup_l _ _ _ _ _ HH E) as (d' & -> & Hd). exact Hd.
    + apply lookup_ge_None in E. rewrite (Forall2_length _ _ _ HH) in E.
      apply lookup_ge_None in E. rewrite E. apply changes_refl.
Qed.

Lemma evolves_update_friendly i communication jammingEnabled formation w0 w :
  validRef w (Friendly i) ->
  Drone.isFriendly (deref w (Friendly i)) = true ->
  allows (onFriendly p) friendlyWrites = true ->
  allows (onHostile p) friendlyHurts = true ->
  onParticles p = true ->
  evolves p w0 w ->
  evolves p w0 (update H (Friendly i) communication jammingEnabled formation w).
Proof.
  intros Hv Hside Hf Hh Hp Hev. unfold update.
  set (w1 := modify _ _ w).
  assert (Hev1 : evolves p w w1) by (subst w1; frame_step; apply evolves_refl).
  assert (Hside1 : Drone.isFriendly (deref w1 (Friendly i)) = true).
  { rewrite (ch_isFriendly _ _ _ (evolves_deref (Friendly i) _ _ Hev1)). exact Hside. }
  rewrite Hside1.
  assert (Hev01 : evolves p w0 w1) by exact (evolves_trans p w0 w w1 Hev Hev1).
  assert (Hv1 : validRef w1 (Friendly i))
    by exact (evolves_validRef p w w1 (Friendly i) Hev1 Hv).
  clearbody w1. clear Hev1.
  destruct (negb communication).
  - apply evolves_autonomousMode; auto. solve_allows.
  - pose proof (evolves_rescueLoop (Friendly i) w0 w1) as Hr.
    assert (Hev2 : evolves p w0 (fst (rescueLoop H (Friendly i) w1))).
    { apply Hr; auto; [solve_allows | solve_may]. }
    clear Hr. destruct (rescueLoop _ _ _) as [w2 performingRescue].
    cbn [fst] in Hev2.
    assert (Hev3 : evolves p w0 (markLost H (Friendly i) w2)).
    { apply evolves_markLost; auto. solve_may. }
    destruct performingRescue; [assumption|].
    assert (Hev4 : evolves p w0 (if jammingEnabled
                                 then jamLoop H (Friendly i) (markLost H (Friendly i) w2)
                                 else markLost H (Friendly i) w2)).
    { destruct jammingEnabled; auto. apply evolves_jamLoop; auto. solve_may. }
    apply evolves_engagement; auto; [|solve_may].
    eapply evolves_validRef_both; [exact Hev |exact Hev4| exact Hv].
Qed.

Lemma evolves_update_hostile j communication jammingEnabled formation w0 w :
  Drone.isFriendly (deref w (Hostile j)) = false ->
  allows (onHostile p) hostileWrites = true ->
  may (onFriendly p) fHealth = true ->
  onAssets p = true ->
  onParticles p = true ->
  evolves p w0 w ->
  evolves p w0 (update H (Hostile j) communication jammingEnabled formation w).
Proof.
  intros Hside Hw Hf Ha Hp Hev. unfold update.
  set (w1 := modify _ _ w).
  assert (Hev1 : evolves p w w1) by (subst w1; frame_step; apply evolves_refl).
  assert (Hside1 : Drone.isFriendly (deref w1 (Hostile j)) = false).
  { rewrite (ch_isFriendly _ _ _ (evolves_deref (Hostile j) _ _ Hev1)). exact Hside. }
  rewrite Hside1.
  apply evolves_hostileLogic; auto.
  exact (evolves_trans p w0 w w1 Hev Hev1).
Qed.

Lemma sided_deref_friendly w0 w i :
  sided w0 -> evolves p w0 w -> validRef w0 (Friendly i) ->
  Drone.isFriendly (deref w (Friendly i)) = true.
Proof.
  intros [Hs _] Hev Hv.
  rewrite (ch_isFriendly _ _ _ (evolves_deref (Friendly i) _ _ Hev)).
  cbn in *. destruct (lookup_lt_is_Some_2 _ _ Hv) as [d Hd]. rewrite Hd. cbn.
  eapply Forall_lookup_1 in Hs; eauto.
Qed.

Lemma sided_deref_hostile w0 w j :
  sided w0 -> evolves p w0 w -> validRef w0 (Hostile j) ->
  Drone.isFriendly (deref w (Hostile j)) = false.
Proof.
  intros [_ Hs] Hev Hv.
  rewrite (ch_isFriendly _ _ _ (evolves_deref (Hostile j) _ _ Hev)).
  cbn in *. destruct (lookup_lt_is_Some_2 _ _ Hv) as [d Hd]. rewrite Hd. cbn.
  eapply Forall_lookup_1 in Hs; eauto.
Qed.

Lemma evolves_updateFriendlies communication jammingEnabled formation w :
  sided w ->
  allows (onFriendly p) friendlyWrites = true ->
  allows (onHostile p) friendlyHurts = true ->
  onParticles p = true ->
  (forall w' i, evolves p w w' -> validRef w (Friendly i) ->
                let d := deref w' (Friendly i) in
                onTrace p (EvUpdate true (Drone.id d) (Drone.health d))) ->
  evolves p w (updateFriendlies H communication jammingEnabled formation w).
Proof.
  intros Hs Hf Hh Hp Hup. unfold updateFriendlies, forEachIndex.
  apply (forIndices_invariant (fun w' => evolves p w w')).
  - apply evolves_refl.
  - intros i w' Hi Hev.
    assert (Hv : validRef w (Friendly i)) by (cbn; lia).
    assert (Hev' : evolves p w (logEvent
              (EvUpdate true (Drone.id (deref w' (Friendly i)))
                        (Drone.health (deref w' (Friendly i)))) w')).
    { apply evolves_logEvent; [now apply Hup | assumption]. }
    apply evolves_update_friendly; auto.
    + eapply evolves_validRef; eauto.
    + eapply sided_deref_friendly; eauto.
Qed.

Lemma evolves_updateHostiles communication jammingEnabled formation w :
  sided w ->
  allows (onHostile p) hostileWrites = true ->
  may (onFriendly p) fHealth = true ->
  onAssets p = true ->
  onParticles p = true ->
  (forall w' j, evolves p w w' -> validRef w (Hostile j) ->
                let d := deref w' (Hostile j) in
                0 < Drone.health d ->
                onTrace p (EvUpdate false (Drone.id d) (Drone.health d))) ->
  evolves p w (updateHostiles H communication jammingEnabled formation w).
Proof.
  intros Hs Hw Hf Ha Hp Hup. unfold updateHostiles, forEachIndex.
  apply (forIndices_invariant (fun w' => evolves p w w')).
  - apply evolves_refl.
  - intros j w' Hj Hev.
    assert (Hv : validRef w (Hostile j)) by (cbn; lia).
    destruct (Qltb 0 _) eqn:E; [|assumption].
    apply Qltb_lt in E.
    assert (Hev' : evolves p w (logEvent
              (EvUpdate false (Drone.id (deref w' (Hostile j)))
                        (Drone.health (deref w' (Hostile j)))) w')).
    { apply evolves_logEvent; [now apply Hup | assumption]. }
    apply evolves_update_hostile; auto.
    eapply sided_deref_hostile; eauto.
Qed.
End FrameOfMethods.

(** ** Weakening a frame *)

Lemma keeps_weaken {A : Type} l l' f (a a' : A) :
  allows l' l = true -> keeps l f a a' -> keeps l' f a a'.
Proof.
  unfold keeps. intros Hl.
  destruct (may l f) eqn:E.
  - intros _. unfold may in E. apply existsb_exists in E as (g & Hg & E).
    assert (f = g) as <- by (destruct f, g; try discriminate E; reflexivity).
    unfold allows in Hl. rewrite forallb_forall in Hl. now rewrite (Hl f Hg).
  - intros ->. destruct (may l' f); auto.
Qed.

Lemma changes_weaken l l' d d' :
  allows l' l = true -> changes l d d' -> changes l' d d'.
Proof.
  intros Hl []. constructor; eauto using keeps_weaken.
Qed.

Lemma assetChanges_weaken b b' a a' :
  (b = true -> b' = true) -> assetChanges b a a' -> assetChanges b' a a'.
Proof.
  intros Hb []. constructor; auto.
  destruct b'; auto. destruct b; auto. discriminate (Hb eq_refl).
Qed.

Lemma evolves_weaken p q w w' : weaker p q -> evolves p w w' -> evolves q w w'.
Proof.
  intros (Hf & Hh & Ha & Hp & Ht) [EF EH EA EP (evs & E1 & E2)]. constructor.
  - eapply Forall2_impl; eauto. intros; eapply changes_weaken; eauto.
  - eapply Forall2_impl; eauto. intros; eapply changes_weaken; eauto.
  - eapply Forall2_impl; eauto. intros; eapply assetChanges_weaken; eauto.
  - destruct (onParticles q) eqn:Eq; auto.
    destruct (onParticles p); auto. discriminate (Hp eq_refl).
  - exists evs. split; auto. eapply Forall_impl; eauto.
Qed.

(** ** The casualty partition *)

Section Partition.
Variable H : Host.

Lemma partition_fold {A : Type} (alive : A -> bool)
      (dead : A -> SimState -> SimState) (l acc : list A) (w : SimState) :
  fold_left
    (fun (st : list A * SimState) d =>
       let '(surviving, w) := st in
       if alive d then (surviving ++ [d], w) else (surviving, dead d w))
    l (acc, w)
  = (acc ++ List.filter alive l,
     fold_left (fun w d => if alive d then w else dead d w) l w).
Proof.
  revert acc w. induction l as [|a l IH]; intros acc w; cbn.
  - now rewrite app_nil_r.
  - destruct (alive a); rewrite IH; auto. now rewrite <- app_assoc.
Qed.

Lemma sameArrays_refl w : sameArrays w w.
Proof. split; [|split; [|split]]; reflexivity. Qed.

Lemma sameArrays_trans w1 w2 w3 :
  sameArrays w1 w2 -> sameArrays w2 w3 -> sameArrays w1 w3.
Proof.
  intros (?&?&?&?) (?&?&?&?). split; [|split; [|split]]; congruence.
Qed.

Lemma sameArrays_explosionParticles n x y c s w :
  sameArrays w (explosionParticles H n x y c s w).
Proof.
  revert w. induction n as [|n IH]; intros w; cbn.
  - apply sameArrays_refl.
  - eapply sameArrays_trans; [|apply IH]. split; [|split; [|split]]; reflexivity.
Qed.

Lemma sameArrays_createExplosion x y c s w :
  sameArrays w (createExplosion H x y c s w).
Proof. apply sameArrays_explosionParticles. Qed.

Lemma sameArrays_friendlyLosses n w w' :
  sameArrays w w' -> sameArrays w (set_friendlyLosses n w').
Proof. intros (?&?&?&?). split; [|split; [|split]]; assumption. Qed.

Lemma sameArrays_destroyedAssets l w w' :
  sameArrays w w' -> sameArrays w (set_destroyedAssets l w').
Proof. intros (?&?&?&?). split; [|split; [|split]]; assumption. Qed.

Lemma sameArrays_fold {A : Type} (alive : A -> bool)
      (dead : A -> SimState -> SimState) (l : list A) (w : SimState) :
  (forall a w, sameArrays w (dead a w)) ->
  sameArrays w (fold_left (fun w d => if alive d then w else dead d w) l w).
Proof.
  intros Hd. revert w. induction l as [|a l IH]; intros w; cbn.
  - apply sameArrays_refl.
  - eapply sameArrays_trans; [|apply IH].
    destruct (alive a); [apply sameArrays_refl | apply Hd].
Qed.

Lemma checkDeadFriendlies_arrays w :
  friendlyDrones (checkDeadFriendlies H w)
  = List.filter droneAlive (friendlyDrones w)
  /\ hostileDrones (checkDeadFriendlies H w) = hostileDrones w
  /\ groundAssets (checkDeadFriendlies H w) = groundAssets w
  /\ trace (checkDeadFriendlies H w) = trace w.
Proof.
  unfold checkDeadFriendlies.
  rewrite (partition_fold droneAlive
             (fun d w => set_friendlyLosses (S (friendlyLosses w))
                           (createExplosion H (Drone.x d) (Drone.y d) "#3b82f6" 1 w))).
  cbn.
  match goal with
  | |- context [fold_left ?f ?l w] =>
      assert (Hs : sameArrays w (fold_left f l w))
  end.
  { apply sameArrays_fold. intros a w'.
    apply sameArrays_friendlyLosses, sameArrays_createExplosion. }
  destruct Hs as (?&?&?&?). split; [|split; [|split]]; auto.
Qed.

Lemma checkDeadAssets_arrays w :
  friendlyDrones (checkDeadAssets H w) = friendlyDrones w
  /\ hostileDrones (checkDeadAssets H w) = hostileDrones w
  /\ groundAssets (checkDeadAssets H w)
     = List.filter assetAlive (groundAssets w)
  /\ trace (checkDeadAssets H w) = trace w.
Proof.
  unfold checkDeadAssets.
  rewrite (partition_fold assetAlive
             (fun a w => set_destroyedAssets (destroyedAssets w ++ [a])
                           (createExplosion H (Asset.x a) (Asset.y a) "#f59e0b" 2.5 w))).
  cbn.
  match goal with
  | |- context [fold_left ?f ?l w] =>
      assert (Hs : sameArrays w (fold_left f l w))
  end.
  { apply sameArrays_fold. intros a w'.
    apply sameArrays_destroyedAssets, sameArrays_createExplosion. }
  destruct Hs as (?&?&?&?). split; [|split; [|split]]; auto.
Qed.

Lemma checkDeadHostiles_arrays w :
  friendlyDrones (checkDeadHostiles H w) = friendlyDrones w
  /\ hostileDrones (checkDeadHostiles H w)
     = List.filter droneAlive (hostileDrones w)
  /\ groundAssets (checkDeadHostiles H w) = groundAssets w
  /\ trace (checkDeadHostiles H w) = trace w.
Proof.
  unfold checkDeadHostiles.
  rewrite (partition_fold droneAlive
             (fun d w => createExplosion H (Drone.x d) (Drone.y d) "#f97316" 1 w)).
  cbn.
  match goal with
  | |- context [fold_left ?f ?l w] =>
      assert (Hs : sameArrays w (fold_left f l w))
  end.
  { apply sameArrays_fold. intros a w'. apply sameArrays_createExplosion. }
  destruct Hs as (?&?&?&?). split; [|split; [|split]]; auto.
Qed.

(** The partition keeps the entities of positive health, as they are, and
    writes nothing to the trace. *)
Lemma casualtyPartition_arrays w :
  friendlyDrones (casualtyPartition H w)
  = List.filter droneAlive (friendlyDrones w)
  /\ hostileDrones (casualtyPartition H w)
     = List.filter droneAlive (hostileDrones w)
  /\ groundAssets (casualtyPartition H w)
     = List.filter assetAlive (groundAssets w)
  /\ trace (casualtyPartition H w) = trace w.
Proof.
  unfold casualtyPartition.
  destruct (checkDeadFriendlies_arrays w) as (F1 & H1 & A1 & T1).
  destruct (checkDeadAssets_arrays (checkDeadFriendlies H w)) as (F2 & H2 & A2 & T2).
  destruct (checkDeadHostiles_arrays (checkDeadAssets H (checkDeadFriendlies H w)))
    as (F3 & H3 & A3 & T3).
  split; [|split; [|split]]; congruence.
Qed.
End Partition.

(** ** References and their contents *)

Lemma deref_modify_same r f w :
  validRef w r -> deref (modify r f w) r = f (deref w r).
Proof.
  destruct r as [i|j]; cbn; intros Hv;
    rewrite list_lookup_alter_eq;
    destruct (lookup_lt_is_Some_2 _ _ Hv) as [d ->]; reflexivity.
Qed.

Lemma deref_modify_other r r' f w :
  r <> r' -> deref (modify r f w) r' = deref w r'.
Proof.
  destruct r as [i|j], r' as [i'|j']; cbn; intros Hne; auto;
    rewrite list_lookup_alter_ne; auto; congruence.
Qed.

Lemma deref_clock n w r : deref (set_clockReads n w) r = deref w r.
Proof. now destruct r. Qed.

Lemma deref_random n w r : deref (set_randomReads n w) r = deref w r.
Proof. now destruct r. Qed.

(** ** C8: the cooldown of [fireAt] *)

Lemma fireAt_cooling H this target color damage w :
  (dateNow H (clockReads w) - Drone.lastFired (deref w this) < 100)%Z ->
  fireAt H this target color damage w = set_clockReads (S (clockReads w)) w.
Proof.
  intros Hc. unfold fireAt, readClock. cbv beta iota zeta.
  rewrite deref_clock. apply Z.ltb_lt in Hc. now rewrite Hc.
Qed.

Lemma deref_modify_field {B : Type} (proj : Drone.t -> B) r r' f w :
  (forall d, proj (f d) = proj d) ->
  proj (deref (modify r f w) r') = proj (deref w r').
Proof.
  intros Hf. destruct r as [i|j], r' as [i'|j']; cbn; auto.
  - destruct (decide (i = i')) as [<-|Hne].
    + rewrite list_lookup_alter_eq. destruct (_ !! i); cbn; auto.
    + now rewrite list_lookup_alter_ne.
  - destruct (decide (j = j')) as [<-|Hne].
    + rewrite list_lookup_alter_eq. destruct (_ !! j); cbn; auto.
    + now rewrite list_lookup_alter_ne.
Qed.

Lemma deref_hitParticle H t color w r :
  deref (hitParticle H t color w) r = deref w r.
Proof. now destruct r. Qed.

Lemma fireAt_lastFired H this target color damage w :
  validRef w this ->
  (100 <= dateNow H (clockReads w) - Drone.lastFired (deref w this))%Z ->
  Drone.lastFired (deref (fireAt H this target color damage w) this)
  = dateNow H (S (clockReads w)).
Proof.
  intros Hv Hc. unfold fireAt, readClock. cbv beta iota zeta.
  rewrite deref_clock. apply Z.ltb_ge in Hc. rewrite Hc.
  rewrite !deref_hitParticle.
  destruct target as [r|k]; cbn [damageTarget].
  - rewrite (deref_modify_field Drone.lastFired); [|reflexivity].
    rewrite deref_modify_same; [reflexivity | now destruct this].
  - change (deref (modifyAsset k ?f ?w) this) with (deref w this).
    rewrite deref_modify_same; [reflexivity | now destruct this].
Qed.

(** C8.  A [fireAt] made less than 100 ms after the last fire of the drone
    changes nothing but the count of clock readings: the health of the
    target, [lastFired] of the attacker and the particles are as before.  A
    [fireAt] that does fire stamps the attacker with a later reading of the
    clock, so that every further [fireAt] of this drone within 100 ms of the
    shot changes nothing either: at most one shot per cooldown. *)
Theorem fireAt_rate_limited (H : Host) (this : DroneRef) (target : TargetRef)
        (color : string) (damage : Q) (w : SimState) :
  let now := dateNow H (clockReads w) in
  let w' := fireAt H this target color damage w in
  ((now - Drone.lastFired (deref w this) < 100)%Z ->
   w' = set_clockReads (S (clockReads w)) w
   /\ targetHealth w' target = targetHealth w target
   /\ Drone.lastFired (deref w' this) = Drone.lastFired (deref w this)
   /\ particles w' = particles w)
  /\
  (validRef w this -> monotoneClock H ->
   (100 <= now - Drone.lastFired (deref w this))%Z ->
   (now <= Drone.lastFired (deref w' this))%Z
   /\ forall target2 color2 damage2 w2,
        Drone.lastFired (deref w2 this) = Drone.lastFired (deref w' this) ->
        (dateNow H (clockReads w2) < now + 100)%Z ->
        fireAt H this target2 color2 damage2 w2
        = set_clockReads (S (clockReads w2)) w2).
Proof.
  cbv zeta. split.
  - intros Hc. rewrite (fireAt_cooling _ _ _ _ _ _ Hc).
    split; [reflexivity|]. split; [now destruct target as [[?|?]|?]|].
    split; [now destruct this | reflexivity].
  - intros Hv Hm Hc.
    rewrite (fireAt_lastFired _ _ _ _ _ _ Hv Hc).
    assert (Hle : (dateNow H (clockReads w) <= dateNow H (S (clockReads w)))%Z)
      by (apply Hm; lia).
    split; [exact Hle|].
    intros target2 color2 damage2 w2 E Hlt.
    apply fireAt_cooling. rewrite E. lia.
Qed.

Lemma fireAt_rate_limited_witness :
  fireAt benchHost (Friendly 0) (OfDrone (Hostile 0)) "#fbbf24" 2 (duel 950)
  = set_clockReads 1 (duel 950)
  /\ (1000 <= Drone.lastFired
                (deref (fireAt benchHost (Friendly 0) (OfDrone (Hostile 0))
                               "#fbbf24" 2 (duel 0)) (Friendly 0)))%Z.
Proof.
  split.
  - apply (proj1 (fireAt_rate_limited benchHost (Friendly 0) (OfDrone (Hostile 0))
                                      "#fbbf24" 2 (duel 950))).
    simpl. lia.
  - apply (proj2 (fireAt_rate_limited benchHost (Friendly 0) (OfDrone (Hostile 0))
                                      "#fbbf24" 2 (duel 0))).
    + simpl. lia.
    + intros n m Hnm. simpl. lia.
    + simpl. lia.
Defined.

(** ** C7: the slots of the extended line *)

(** C7.  Under the extended-line formation the drone at position [i] of a
    roster of [M] friendly drones has the offset [((i - M/2) * 50, 0)]:
    [indexOf] finds [i], the [switch] yields that offset, and
    [patrolPosition] heads for the centroid of the assets plus that offset
    (when further than 5 from it), then applies the separation. *)
Theorem extended_line_slot (H : Host) (i : nat) (w : SimState) :
  validRef w (Friendly i) ->
  length (groundAssets w) <> 0%nat ->
  let M := length (friendlyDrones w) in
  let n := ofNat (length (groundAssets w)) in
  let centerX := sumOf Asset.x (groundAssets w) / n in
  let centerY := sumOf Asset.y (groundAssets w) / n in
  let w1 := logEvent (EvDivide 2) (logEvent (EvDivide n) (logEvent (EvDivide n) w)) in
  let targetX := centerX + (ofNat i - ofNat M / 2) * 50 in
  let targetY := centerY + 0 in
  let me := deref w1 (Friendly i) in
  indexOf (Friendly i) w = Some i
  /\ fst (formationOffset extended_line i M w) = ((ofNat i - ofNat M / 2) * 50, 0)
  /\ patrolPosition H (Friendly i) extended_line w
     = applySeparation H (Friendly i) 40
         (if Qltb 5 (sqrt H ((targetX - Drone.x me) ^ 2 + (targetY - Drone.y me) ^ 2))
          then modify (Friendly i) (moveTo H targetX targetY (DRONE_SPEED * 0.5)) w1
          else w1).
Proof.
  intros Hv Ha. cbv zeta.
  assert (Hi : indexOf (Friendly i) w = Some i).
  { unfold indexOf. unfold validRef in Hv. apply Nat.ltb_lt in Hv. now rewrite Hv. }
  split; [exact Hi|]. split; [reflexivity|].
  unfold patrolPosition. apply Nat.eqb_neq in Ha. rewrite Ha.
  unfold divide. cbv beta iota zeta.
  change (indexOf (Friendly i) (logEvent ?e1 (logEvent ?e2 w)))
    with (indexOf (Friendly i) w).
  rewrite Hi. reflexivity.
Qed.

Lemma extended_line_slot_witness :
  fst (formationOffset extended_line 0 10 tenAgainstOne) = ((ofNat 0 - ofNat 10 / 2) * 50, 0)
  /\ fst (formationOffset extended_line 9 10 tenAgainstOne) = ((ofNat 9 - ofNat 10 / 2) * 50, 0).
Proof.
  split.
  - apply (extended_line_slot benchHost 0 tenAgainstOne); vm_compute; lia.
  - apply (extended_line_slot benchHost 9 tenAgainstOne); vm_compute; lia.
Defined.

(** ** C5: the type preference of the threat score *)

(** C5, as the code has it.  The preference for small targets is that of an
    interceptor: when the scoring drone is an interceptor and a live friendly
    bomber exists, a hostile interceptor gains 2000 and a hostile bomber loses
    500.  In every other case (the scoring drone is itself a bomber, or no
    live friendly bomber exists) a hostile bomber gains 500 and a hostile
    interceptor gains nothing. *)
Theorem threat_score_preference (H : Host) (w : SimState) (this : DroneRef)
        (hostile : Drone.t) (hasCommunication : bool) :
  let score := calculateThreatScore H w this hostile hasCommunication in
  let rest := scoreSansPreference H w this hostile hasCommunication in
  (Drone.type (deref w this) = Drone.drone ->
   friendlyBombersExist (friendlyDrones w) = true ->
   score == rest + match Drone.type hostile with
                   | Drone.drone => 2000
                   | Drone.bomber => -500
                   end)
  /\
  (Drone.type (deref w this) = Drone.bomber
   \/ friendlyBombersExist (friendlyDrones w) = false ->
   score == rest + match Drone.type hostile with
                   | Drone.bomber => 500
                   | Drone.drone => 0
                   end).
Proof.
  cbv zeta. unfold calculateThreatScore, scoreSansPreference.
  destruct (nearestAssetPriority H hostile (groundAssets w)) as [minDist targetPriority].
  split.
  - intros Ht Hb. rewrite Ht, Hb. cbn [Drone.kind_eqb andb].
    destruct (Drone.type hostile), (minLe _ _), hasCommunication;
      cbn [Drone.kind_eqb]; ring.
  - intros Hor.
    assert (E : Drone.kind_eqb (Drone.type (deref w this)) Drone.drone
                && friendlyBombersExist (friendlyDrones w) = false).
    { destruct Hor as [-> | ->]; [reflexivity | apply andb_false_r]. }
    rewrite E.
    destruct (Drone.type hostile), (minLe _ _), hasCommunication;
      cbn [Drone.kind_eqb]; ring.
Qed.

Lemma threat_score_preference_witness :
  calculateThreatScore benchHost tenAgainstOne (Friendly 0)
                       (Drone.new "HB-1" 300 0 false Drone.bomber) true
  == scoreSansPreference benchHost tenAgainstOne (Friendly 0)
                         (Drone.new "HB-1" 300 0 false Drone.bomber) true + 500.
Proof.
  apply (proj2 (threat_score_preference benchHost tenAgainstOne (Friendly 0)
                  (Drone.new "HB-1" 300 0 false Drone.bomber) true)).
  right. vm_compute. reflexivity.
Defined.

(** C5 as stated fails for a scoring drone that is a bomber: a live friendly
    bomber exists (the scorer itself), and yet the hostile bomber gains 500
    instead of losing, and the hostile interceptor gains nothing. *)
Lemma bomber_scorer_counterexample :
  friendlyBombersExist (friendlyDrones loneBomber) = true
  /\ calculateThreatScore benchHost loneBomber (Friendly 0)
                          (Drone.new "HB-1" 300 0 false Drone.bomber) true
     == scoreSansPreference benchHost loneBomber (Friendly 0)
                            (Drone.new "HB-1" 300 0 false Drone.bomber) true + 500
  /\ calculateThreatScore benchHost loneBomber (Friendly 0)
                          (Drone.new "H-1" 0 400 false Drone.drone) true
     == scoreSansPreference benchHost loneBomber (Friendly 0)
                            (Drone.new "H-1" 0 400 false Drone.drone) true.
Proof.
  split; [reflexivity|]. split; vm_compute; reflexivity.
Qed.

(** ** The hostile side of [update] *)

Lemma deref_reset r w :
  deref (modify r (Drone.set_jammingTargets []) w) r
  = Drone.set_jammingTargets [] (deref w r).
Proof.
  destruct r as [i|j]; cbn; rewrite list_lookup_alter_eq;
    destruct (_ !! _); reflexivity.
Qed.

Lemma update_hostile H j communication jammingEnabled formation w :
  Drone.isFriendly (deref w (Hostile j)) = false ->
  update H (Hostile j) communication jammingEnabled formation w
  = hostileLogic H (Hostile j)
                 (modify (Hostile j) (Drone.set_jammingTargets []) w).
Proof.
  intros Hs. unfold update.
  rewrite (deref_modify_field Drone.isFriendly); [|reflexivity].
  now rewrite Hs.
Qed.

Lemma nearestFrom_ext {A : Type} H (pos : A -> Point.t) this1 this2 k l best :
  Drone.x this1 = Drone.x this2 -> Drone.y this1 = Drone.y this2 ->
  nearestFrom H pos this1 k l best = nearestFrom H pos this2 k l best.
Proof.
  intros Ex Ey. revert k best. induction l as [|a l IH]; intros k best; cbn; auto.
  unfold calculateDistance. rewrite Ex, Ey. apply IH.
Qed.

Lemma groundAssets_modify r f w : groundAssets (modify r f w) = groundAssets w.
Proof. now destruct r. Qed.

Lemma particles_modify r f w : particles (modify r f w) = particles w.
Proof. now destruct r. Qed.

Lemma clockReads_modify r f w : clockReads (modify r f w) = clockReads w.
Proof. now destruct r. Qed.

Lemma groundAssets_fireAt_drone H this r color damage w :
  groundAssets (fireAt H this (OfDrone r) color damage w) = groundAssets w.
Proof.
  unfold fireAt, readClock. cbv beta iota zeta.
  destruct (_ <? _)%Z; [reflexivity|].
  unfold hitParticle, readRandom, addParticle, damageTarget. cbv beta iota zeta.
  cbn [groundAssets set_particles set_randomReads].
  now rewrite !groundAssets_modify.
Qed.

Lemma friendlyDrones_fireAt_asset H j k color damage w :
  friendlyDrones (fireAt H (Hostile j) (OfAsset k) color damage w)
  = friendlyDrones w.
Proof.
  unfold fireAt, readClock. cbv beta iota zeta.
  destruct (_ <? _)%Z; reflexivity.
Qed.

Lemma groundAssets_hostileMovement H this speed na mad nf w :
  groundAssets (hostileMovement H this speed na mad nf w) = groundAssets w.
Proof.
  unfold hostileMovement.
  destruct na; [destruct (minGt _ _)|destruct nf]; auto using groundAssets_modify.
Qed.

Lemma friendlyDrones_hostileMovement H j speed na mad nf w :
  friendlyDrones (hostileMovement H (Hostile j) speed na mad nf w)
  = friendlyDrones w.
Proof.
  unfold hostileMovement.
  destruct na; [destruct (minGt _ _)|destruct nf]; reflexivity.
Qed.

(** ** C6: self-defence or the mission, never both *)

(** C6.  In the step of a hostile drone that is not jammed and whose nearest
    friendly drone is within firing range, the shot goes to that friendly
    drone and no ground asset is touched.  In every step of a hostile drone,
    the friendly drones or the ground assets come out as they went in: the
    two kinds of damage never occur together. *)
Theorem hostile_priority_exclusive (H : Host) (j : nat)
        (communication jammingEnabled : bool) (formation : FormationType)
        (w : SimState) :
  Drone.isFriendly (deref w (Hostile j)) = false ->
  let me := deref w (Hostile j) in
  let scan := nearest H Drone.pos me (friendlyDrones w) in
  let w' := update H (Hostile j) communication jammingEnabled formation w in
  (forall f, Drone.isJammed me = false ->
             inRange (fst scan) (snd scan) FIRING_RANGE = Some f ->
             groundAssets w' = groundAssets w)
  /\ (groundAssets w' = groundAssets w \/ friendlyDrones w' = friendlyDrones w).
Proof.
  intros Hs. cbv zeta. rewrite (update_hostile _ _ _ _ _ _ Hs).
  unfold hostileLogic. rewrite deref_reset.
  change (friendlyDrones (modify (Hostile j) ?f w)) with (friendlyDrones w).
  change (groundAssets (modify (Hostile j) ?f w)) with (groundAssets w).
  set (me := deref w (Hostile j)).
  set (w1 := modify _ _ w).
  unfold nearest.
  rewrite (nearestFrom_ext H Asset.pos (Drone.set_jammingTargets [] me) me)
    by reflexivity.
  rewrite (nearestFrom_ext H Drone.pos (Drone.set_jammingTargets [] me) me)
    by reflexivity.
  destruct (nearestFrom H Asset.pos me 0 (groundAssets w) (None, None))
    as [na mad].
  destruct (nearestFrom H Drone.pos me 0 (friendlyDrones w) (None, None))
    as [nf mfd].
  cbn [fst snd]. rewrite !groundAssets_hostileMovement, !friendlyDrones_hostileMovement.
  unfold hostileCombat.
  change (Drone.isJammed (Drone.set_jammingTargets [] me)) with (Drone.isJammed me).
  split.
  - intros f Hj Hr. rewrite Hj, Hr. cbn [negb].
    now rewrite groundAssets_fireAt_drone.
  - destruct (negb _); [|now left].
    destruct (inRange nf mfd FIRING_RANGE).
    + left. now rewrite groundAssets_fireAt_drone.
    + destruct (inRange na mad FIRING_RANGE).
      * right. now rewrite friendlyDrones_fireAt_asset.
      * left. destruct (inRange nf mfd _); auto using groundAssets_modify.
Qed.

Lemma hostile_priority_exclusive_witness :
  groundAssets (update benchHost (Hostile 0) true false extended_line crossfire)
  = groundAssets crossfire.
Proof.
  apply (proj1 (hostile_priority_exclusive benchHost 0 true false extended_line
                                           crossfire eq_refl) 0%nat).
  - reflexivity.
  - vm_compute. reflexivity.
Defined.

(** ** C4: the jammed hostile *)

Lemma moveTo_displacement H tx ty s d :
  Drone.x (moveTo H tx ty s d) == Drone.x d + fst (heading H d tx ty) * s
  /\ Drone.y (moveTo H tx ty s d) == Drone.y d + snd (heading H d tx ty) * s.
Proof.
  unfold moveTo, heading, pushTrail.
  destruct (Qltb 1 _); cbn; split; ring.
Qed.

Lemma heading_ext H d1 d2 tx ty :
  Drone.x d1 = Drone.x d2 -> Drone.y d1 = Drone.y d2 ->
  heading H d1 tx ty = heading H d2 tx ty.
Proof. unfold heading. now intros -> ->. Qed.

Lemma hostileMovement_target H this s na mad nf w :
  hostileMovement H this s na mad nf w
  = match movementTarget w na mad nf with
    | Some pt => modify this (moveTo H (Point.x pt) (Point.y pt) s) w
    | None => w
    end.
Proof.
  unfold hostileMovement, movementTarget, assetAt.
  destruct na; [destruct (minGt _ _)|destruct nf]; reflexivity.
Qed.

Lemma evolves_assetAt p w w' k :
  evolves p w w' ->
  Asset.pos (default Asset.nowhere (groundAssets w' !! k))
  = Asset.pos (default Asset.nowhere (groundAssets w !! k)).
Proof.
  intros [_ _ HA _ _].
  destruct (groundAssets w !! k) as [a|] eqn:E.
  - destruct (Forall2_lookup_l _ _ _ _ _ HA E) as (a' & -> & [Hx Hy _ _ _ _ _ _ _]).
    cbn. unfold Asset.pos. now rewrite Hx, Hy.
  - apply lookup_ge_None in E. rewrite (Forall2_length _ _ _ HA) in E.
    apply lookup_ge_None in E. now rewrite E.
Qed.

Lemma evolves_pos p w w' r :
  may (on p r) fPos = false -> evolves p w w' ->
  Drone.x (deref w' r) = Drone.x (deref w r)
  /\ Drone.y (deref w' r) = Drone.y (deref w r).
Proof.
  intros Hm Hev. pose proof (evolves_deref p r _ _ Hev) as Hc.
  destruct Hc as [_ _ _ _ Hx Hy _ _ _ _ _ _ _ _ _ _].
  unfold keeps in Hx, Hy. rewrite Hm in Hx, Hy. auto.
Qed.

Lemma lastFired_moveTo H tx ty s d :
  Drone.lastFired (moveTo H tx ty s d) = Drone.lastFired d.
Proof. unfold moveTo, pushTrail. now destruct (Qltb 1 _). Qed.

Lemma hostileCombat_jammed H this me s na mad nf mfd w :
  Drone.isJammed me = true ->
  hostileCombat H this me s na mad nf mfd w = w.
Proof. intros E. unfold hostileCombat. now rewrite E. Qed.

Lemma movementTarget_evolves p w w' na mad nf :
  may (onFriendly p) fPos = false -> evolves p w w' ->
  movementTarget w' na mad nf = movementTarget w na mad nf.
Proof.
  intros Hm Hev. unfold movementTarget.
  destruct na as [a|].
  - destruct (minGt _ _); auto. now rewrite (evolves_assetAt p w w' a Hev).
  - destruct nf as [f|]; auto.
    destruct (evolves_pos p w w' (Friendly f) Hm Hev) as [Ex Ey].
    unfold Drone.pos. now rewrite Ex, Ey.
Qed.

(** Where the hostile drone stands after the block "Movement Logic". *)
Lemma hostileMovement_displacement H j s na mad nf w :
  validRef w (Hostile j) ->
  let me := deref w (Hostile j) in
  let after := deref (hostileMovement H (Hostile j) s na mad nf w) (Hostile j) in
  let h := match movementTarget w na mad nf with
           | Some pt => heading H me (Point.x pt) (Point.y pt)
           | None => (0, 0)
           end in
  Drone.x after == Drone.x me + fst h * s
  /\ Drone.y after == Drone.y me + snd h * s.
Proof.
  intros Hv. cbv zeta. rewrite hostileMovement_target.
  destruct (movementTarget w na mad nf) as [pt|].
  - rewrite deref_modify_same by exact Hv. apply moveTo_displacement.
  - cbn [fst snd]. split; ring.
Qed.

Lemma hostileSpeed_jammed me :
  Drone.isJammed me = true ->
  hostileSpeed me == 0.2 * hostileSpeed (Drone.set_isJammed false me).
Proof.
  intros E. unfold hostileSpeed. rewrite E. cbn. destruct (Drone.type me); ring.
Qed.

Lemma hostileCombat_still H j me s na mad nf mfd w0 w :
  isNull (inRange nf mfd FIRING_RANGE)
  && isNull (inRange na mad FIRING_RANGE)
  && negb (isNull (inRange nf mfd (FIRING_RANGE * 1.5))) = false ->
  evolves firePerm w0 w ->
  evolves firePerm w0 (hostileCombat H (Hostile j) me s na mad nf mfd w).
Proof.
  intros Hc Hev. unfold hostileCombat.
  destruct (negb (Drone.isJammed me)); [|assumption].
  destruct (inRange nf mfd FIRING_RANGE).
  - apply evolves_fireAt;
      [reflexivity | reflexivity | reflexivity
       | now destruct (Drone.type _) | assumption].
  - destruct (inRange na mad FIRING_RANGE).
    + apply evolves_fireAt;
        [reflexivity | reflexivity | reflexivity
         | now destruct (Drone.type _) | assumption].
    + destruct (inRange nf mfd _); [discriminate Hc | assumption].
Qed.


Lemma hostileLogic_blocks H this w :
  let me := deref w this in
  let na := nearest H Asset.pos me (groundAssets w) in
  let nf := nearest H Drone.pos me (friendlyDrones w) in
  hostileLogic H this w
  = hostileMovement H this (hostileSpeed me) (fst na) (snd na) (fst nf)
      (hostileCombat H this me (hostileSpeed me) (fst na) (snd na)
                     (fst nf) (snd nf) w).
Proof.
  cbv zeta. unfold hostileLogic.
  destruct (nearest H Asset.pos _ _), (nearest H Drone.pos _ _). reflexivity.
Qed.

Lemma nearest_ext {A : Type} H (pos : A -> Point.t) this1 this2 l :
  Drone.x this1 = Drone.x this2 -> Drone.y this1 = Drone.y this2 ->
  nearest H pos this1 l = nearest H pos this2 l.
Proof. intros. now apply nearestFrom_ext. Qed.

(** The step of a hostile drone, in blocks, with the scans made from where
    the drone stands in [w]. *)
Lemma update_hostile_blocks H j communication jammingEnabled formation w :
  Drone.isFriendly (deref w (Hostile j)) = false ->
  let me := Drone.set_jammingTargets [] (deref w (Hostile j)) in
  let na := nearest H Asset.pos (deref w (Hostile j)) (groundAssets w) in
  let nf := nearest H Drone.pos (deref w (Hostile j)) (friendlyDrones w) in
  update H (Hostile j) communication jammingEnabled formation w
  = hostileMovement H (Hostile j) (hostileSpeed me) (fst na) (snd na) (fst nf)
      (hostileCombat H (Hostile j) me (hostileSpeed me) (fst na) (snd na)
                     (fst nf) (snd nf)
                     (modify (Hostile j) (Drone.set_jammingTargets []) w)).
Proof.
  intros Hs. cbv zeta. rewrite (update_hostile _ _ _ _ _ _ Hs).
  rewrite hostileLogic_blocks. cbv zeta. rewrite deref_reset.
  change (friendlyDrones (modify (Hostile j) ?f w)) with (friendlyDrones w).
  change (groundAssets (modify (Hostile j) ?f w)) with (groundAssets w).
  rewrite (nearest_ext H Asset.pos (Drone.set_jammingTargets [] (deref w (Hostile j)))
                       (deref w (Hostile j))) by reflexivity.
  rewrite (nearest_ext H Drone.pos (Drone.set_jammingTargets [] (deref w (Hostile j)))
                       (deref w (Hostile j))) by reflexivity.
  reflexivity.
Qed.

Lemma particles_hostileMovement H this s na mad nf w :
  particles (hostileMovement H this s na mad nf w) = particles w.
Proof.
  rewrite hostileMovement_target.
  destruct (movementTarget _ _ _ _); auto using particles_modify.
Qed.

Lemma clockReads_hostileMovement H this s na mad nf w :
  clockReads (hostileMovement H this s na mad nf w) = clockReads w.
Proof.
  rewrite hostileMovement_target.
  destruct (movementTarget _ _ _ _); auto using clockReads_modify.
Qed.

Lemma lastFired_hostileMovement H this s na mad nf w r :
  Drone.lastFired (deref (hostileMovement H this s na mad nf w) r)
  = Drone.lastFired (deref w r).
Proof.
  rewrite hostileMovement_target.
  destruct (movementTarget _ _ _ _); auto.
  apply (deref_modify_field Drone.lastFired). intros. apply lastFired_moveTo.
Qed.

(** A drone that chases has a point to head for in the movement block: its
    nearest asset is beyond firing range, or there is none and the friendly
    drone it chases is the point. *)
Lemma chases_goal w na mad nf mfd :
  isNull (inRange nf mfd FIRING_RANGE)
  && isNull (inRange na mad FIRING_RANGE)
  && negb (isNull (inRange nf mfd (FIRING_RANGE * 1.5))) = true ->
  exists f goal,
    nf = Some f
    /\ inRange nf mfd FIRING_RANGE = None
    /\ inRange na mad FIRING_RANGE = None
    /\ inRange nf mfd (FIRING_RANGE * 1.5) = Some f
    /\ movementTarget w na mad nf = Some goal.
Proof.
  intros Hc. apply andb_true_iff in Hc as [Hc H3].
  apply andb_true_iff in Hc as [H1 H2].
  destruct nf as [f|]; [|discriminate H3].
  destruct (inRange (Some f) mfd FIRING_RANGE) eqn:E1; [discriminate H1|].
  destruct (inRange na mad FIRING_RANGE) eqn:E2; [discriminate H2|].
  destruct (inRange (Some f) mfd (FIRING_RANGE * 1.5)) as [f'|] eqn:E3;
    [|discriminate H3].
  assert (f' = f).
  { cbn in E3. destruct (minLe mfd _); congruence. }
  subst f'. exists f.
  unfold movementTarget. destruct na as [a|].
  - cbn in E2. destruct mad as [d|]; cbn in E2 |- *.
    + destruct (Qleb d FIRING_RANGE) eqn:Ed; [discriminate E2|].
      apply Qleb_gt in Ed.
      assert (Hg : Qltb (FIRING_RANGE * 0.8) d = true).
      { apply Qltb_lt. unfold FIRING_RANGE in *. lra. }
      rewrite Hg. eauto 6.
    + eauto 6.
  - eauto 6.
Qed.

(** C4, as the code has it.  A jammed hostile drone fires at nothing in its
    step: friendly drones, ground assets and particles are untouched, the
    clock is not read and [lastFired] stays.  Its speed is the speed of its
    type multiplied by 0.2.  When the same drone, not jammed, does not chase,
    the displacement of the jammed drone is a fifth of its displacement, in
    the exact arithmetic of the model.  When it chases (the third priority of
    the combat block), it makes two moves at the speed of its type, towards
    the nearest friendly drone and then, from where that leaves it, towards
    the point the movement block heads for; the jammed drone makes the second
    move only, from where it stands, at its reduced speed. *)
Theorem jammed_hostile (H : Host) (j : nat)
        (communication jammingEnabled : bool) (formation : FormationType)
        (w : SimState) :
  validRef w (Hostile j) ->
  Drone.isFriendly (deref w (Hostile j)) = false ->
  Drone.isJammed (deref w (Hostile j)) = true ->
  let me := deref w (Hostile j) in
  let nominal := hostileSpeed (Drone.set_isJammed false me) in
  let na := nearest H Asset.pos me (groundAssets w) in
  let nf := nearest H Drone.pos me (friendlyDrones w) in
  let w' := update H (Hostile j) communication jammingEnabled formation w in
  let free := update H (Hostile j) communication jammingEnabled formation
                     (modify (Hostile j) (Drone.set_isJammed false) w) in
  (friendlyDrones w' = friendlyDrones w
   /\ groundAssets w' = groundAssets w
   /\ particles w' = particles w
   /\ clockReads w' = clockReads w
   /\ Drone.lastFired (deref w' (Hostile j)) = Drone.lastFired me)
  /\ hostileSpeed me == 0.2 * nominal
  /\ (chases H w j = false ->
      Drone.x (deref w' (Hostile j)) - Drone.x me
      == 0.2 * (Drone.x (deref free (Hostile j)) - Drone.x me)
      /\ Drone.y (deref w' (Hostile j)) - Drone.y me
         == 0.2 * (Drone.y (deref free (Hostile j)) - Drone.y me))
  /\ (chases H w j = true ->
      exists f goal,
        fst nf = Some f
        /\ movementTarget w (fst na) (snd na) (fst nf) = Some goal
        /\ deref w' (Hostile j)
           = moveTo H (Point.x goal) (Point.y goal) (hostileSpeed me)
                    (Drone.set_jammingTargets [] me)
        /\ deref free (Hostile j)
           = moveTo H (Point.x goal) (Point.y goal) nominal
               (moveTo H (Drone.x (deref w (Friendly f)))
                       (Drone.y (deref w (Friendly f))) nominal
                       (Drone.set_jammingTargets []
                          (Drone.set_isJammed false me)))).
Proof.
  intros Hv Hs Hj. cbv zeta.
  set (me := deref w (Hostile j)).
  assert (HsF : Drone.isFriendly
                  (deref (modify (Hostile j) (Drone.set_isJammed false) w) (Hostile j))
                = false).
  { rewrite deref_modify_same by exact Hv. exact Hs. }
  rewrite (update_hostile_blocks _ _ _ _ _ _ Hs).
  rewrite (update_hostile_blocks _ _ _ _ _ _ HsF). cbv zeta.
  rewrite deref_modify_same by exact Hv. fold me.
  change (friendlyDrones (modify (Hostile j) ?f w)) with (friendlyDrones w).
  change (groundAssets (modify (Hostile j) ?f w)) with (groundAssets w).
  rewrite (nearest_ext H Asset.pos (Drone.set_isJammed false me) me) by reflexivity.
  rewrite (nearest_ext H Drone.pos (Drone.set_isJammed false me) me) by reflexivity.
  unfold chases. fold me.
  destruct (nearest H Asset.pos me (groundAssets w)) as [na mad].
  destruct (nearest H Drone.pos me (friendlyDrones w)) as [nf mfd].
  cbn [fst snd].
  rewrite hostileCombat_jammed by exact Hj.
  set (w1 := modify (Hostile j) (Drone.set_jammingTargets []) w).
  set (sJ := hostileSpeed (Drone.set_jammingTargets [] me)).
  set (meF := Drone.set_jammingTargets [] (Drone.set_isJammed false me)).
  set (sF := hostileSpeed meF).
  assert (Hspeed : hostileSpeed me == 0.2 * hostileSpeed (Drone.set_isJammed false me))
    by (apply hostileSpeed_jammed; exact Hj).
  assert (Hev1 : evolves firePerm w w1).
  { subst w1. apply evolves_modify; [|apply evolves_refl].
    intros d. now apply changes_set_jammingTargets. }
  assert (Hv1 : validRef w1 (Hostile j)) by (eapply evolves_validRef; eauto).
  split; [|split; [exact Hspeed|split]].
  - rewrite friendlyDrones_hostileMovement, groundAssets_hostileMovement,
      particles_hostileMovement, clockReads_hostileMovement,
      lastFired_hostileMovement.
    repeat split; try reflexivity.
    subst w1. now rewrite (deref_modify_field Drone.lastFired).
  - intros Hc.
    set (w2 := hostileCombat H (Hostile j) meF sF na mad nf mfd _).
    assert (Hev2 : evolves firePerm w w2).
    { subst w2. apply hostileCombat_still; [exact Hc|].
      apply evolves_modify; [intros d; now apply changes_set_jammingTargets|].
      apply evolves_modify; [intros d; now apply changes_set_isJammed|].
      apply evolves_refl. }
    assert (Hv2 : validRef w2 (Hostile j)) by (eapply evolves_validRef; eauto).
    destruct (hostileMovement_displacement H j sJ na mad nf w1 Hv1) as [Jx Jy].
    destruct (hostileMovement_displacement H j sF na mad nf w2 Hv2) as [Fx Fy].
    rewrite (movementTarget_evolves firePerm w w1 na mad nf eq_refl Hev1) in Jx, Jy.
    rewrite (movementTarget_evolves firePerm w w2 na mad nf eq_refl Hev2) in Fx, Fy.
    destruct (evolves_pos firePerm w w1 (Hostile j) eq_refl Hev1) as [E1x E1y].
    destruct (evolves_pos firePerm w w2 (Hostile j) eq_refl Hev2) as [E2x E2y].
    fold me in E1x, E1y, E2x, E2y.
    assert (Hh : forall pt, heading H (deref w1 (Hostile j)) (Point.x pt) (Point.y pt)
                            = heading H (deref w2 (Hostile j)) (Point.x pt) (Point.y pt)).
    { intros pt. apply heading_ext; congruence. }
    rewrite Jx, Jy, Fx, Fy, E1x, E1y, E2x, E2y.
    assert (HsJ : sJ == 0.2 * sF) by exact Hspeed.
    destruct (movementTarget w na mad nf) as [pt|].
    + rewrite Hh, HsJ. split; ring.
    + cbn [fst snd]. split; ring.
  - intros Hc.
    destruct (chases_goal w na mad nf mfd Hc) as (f & goal & -> & R1 & R2 & R3 & Hg).
    exists f, goal. split; [reflexivity|]. split; [exact Hg|].
    assert (Hd1 : deref w1 (Hostile j) = Drone.set_jammingTargets [] me).
    { subst w1. now rewrite deref_modify_same by exact Hv. }
    split.
    + rewrite hostileMovement_target.
      rewrite (movementTarget_evolves firePerm w w1 na mad (Some f) eq_refl Hev1).
      rewrite Hg. rewrite deref_modify_same by exact Hv1. now rewrite Hd1.
    + unfold hostileCombat.
      change (Drone.isJammed meF) with false. cbn [negb].
      rewrite R1, R2, R3.
      set (wF := modify (Hostile j) (Drone.set_jammingTargets [])
                        (modify (Hostile j) (Drone.set_isJammed false) w)).
      assert (HevF : evolves firePerm w wF).
      { subst wF.
        apply evolves_modify; [intros d; now apply changes_set_jammingTargets|].
        apply evolves_modify; [intros d; now apply changes_set_isJammed|].
        apply evolves_refl. }
      assert (HvF : validRef wF (Hostile j)) by (eapply evolves_validRef; eauto).
      assert (HdF : deref wF (Hostile j) = meF).
      { subst wF meF. rewrite deref_modify_same.
        - now rewrite deref_modify_same by exact Hv.
        - cbn in *. now rewrite length_alter. }
      change (deref wF (Friendly f)) with (deref w (Friendly f)).
      set (w2 := modify (Hostile j) _ wF).
      assert (Hv2 : validRef w2 (Hostile j)).
      { subst w2. cbn in *. now rewrite length_alter. }
      rewrite hostileMovement_target.
      assert (Hg2 : movementTarget w2 na mad (Some f) = Some goal).
      { rewrite <- Hg. unfold movementTarget. reflexivity. }
      rewrite Hg2. rewrite deref_modify_same by exact Hv2.
      subst w2. rewrite deref_modify_same by exact HvF. now rewrite HdF.
Qed.

Lemma jammed_hostile_witness :
  (let w := pursuit 30 true in
   let me := deref w (Hostile 0) in
   let w' := update benchHost (Hostile 0) true true extended_line w in
   let free := update benchHost (Hostile 0) true true extended_line
                      (modify (Hostile 0) (Drone.set_isJammed false) w) in
   Drone.x (deref w' (Hostile 0)) - Drone.x me
   == 0.2 * (Drone.x (deref free (Hostile 0)) - Drone.x me))
  /\ (let w := pursuit 60 true in
      let me := deref w (Hostile 0) in
      let nominal := hostileSpeed (Drone.set_isJammed false me) in
      let na := nearest benchHost Asset.pos me (groundAssets w) in
      let nf := nearest benchHost Drone.pos me (friendlyDrones w) in
      let w' := update benchHost (Hostile 0) true true extended_line w in
      let free := update benchHost (Hostile 0) true true extended_line
                         (modify (Hostile 0) (Drone.set_isJammed false) w) in
      exists f goal,
        fst nf = Some f
        /\ movementTarget w (fst na) (snd na) (fst nf) = Some goal
        /\ deref w' (Hostile 0)
           = moveTo benchHost (Point.x goal) (Point.y goal) (hostileSpeed me)
                    (Drone.set_jammingTargets [] me)
        /\ deref free (Hostile 0)
           = moveTo benchHost (Point.x goal) (Point.y goal) nominal
               (moveTo benchHost (Drone.x (deref w (Friendly f)))
                       (Drone.y (deref w (Friendly f))) nominal
                       (Drone.set_jammingTargets []
                          (Drone.set_isJammed false me)))).
Proof.
  split.
  - apply (jammed_hostile benchHost 0 true true extended_line
                          (pursuit 30 true)).
    + simpl. lia.
    + reflexivity.
    + reflexivity.
    + vm_compute. reflexivity.
  - apply (jammed_hostile benchHost 0 true true extended_line
                          (pursuit 60 true)).
    + simpl. lia.
    + reflexivity.
    + reflexivity.
    + vm_compute. reflexivity.
Defined.

(** C4 as stated fails in two ways.  When the drone would chase: with a
    friendly drone 60 away and the nearest asset 100 away, both to the right,
    the drone that is not jammed moves 1.5 towards the friendly drone and 1.5
    more towards the asset, 3 in all; jammed, it moves 0.3 towards the asset,
    a tenth.  And in doubles, chase or not: with the asset 100 away at
    (60, 80) and no friendly drone, the exact model moves the jammed drone by
    0.18 along x, a fifth of 0.9; in binary64 the jammed drone moves by
    0.6 * 0.30000000000000004, which is 0.18000000000000002, and a fifth of
    the move of the drone that is not jammed is 0.2 * 0.8999999999999999,
    which is 0.18. *)
Lemma jammed_displacement_counterexample :
  (chases benchHost (pursuit 60 true) 0 = true
   /\ Drone.x (deref (update benchHost (Hostile 0) true true extended_line
                             (pursuit 60 false)) (Hostile 0)) == 3
   /\ Drone.x (deref (update benchHost (Hostile 0) true true extended_line
                             (pursuit 60 true)) (Hostile 0)) == 0.3
   /\ ~ (Drone.x (deref (update benchHost (Hostile 0) true true extended_line
                                (pursuit 60 true)) (Hostile 0)) - 0
         == 0.2 * (Drone.x (deref (update benchHost (Hostile 0) true true
                                          extended_line (pursuit 60 false))
                                  (Hostile 0)) - 0)))
  /\ (chases benchHost (oblique true) 0 = false
      /\ Drone.x (deref (update benchHost (Hostile 0) true true extended_line
                                (oblique true)) (Hostile 0)) == 0.18
      /\ Drone.x (deref (update benchHost (Hostile 0) true true extended_line
                                (oblique false)) (Hostile 0)) == 0.9
      /\ Double.x (Double.moveTo 60 80 (Double.hostileSpeed Drone.drone true)
                                 Double.origin)
         = 0.18000000000000002%float
      /\ Double.x (Double.moveTo 60 80 (Double.hostileSpeed Drone.drone false)
                                 Double.origin)
         = 0.8999999999999999%float
      /\ (0.2 * 0.8999999999999999)%float = 0.18%float
      /\ PrimFloat.eqb
           (Double.x (Double.moveTo 60 80 (Double.hostileSpeed Drone.drone true)
                                    Double.origin))
           (0.2 * Double.x (Double.moveTo 60 80
                                          (Double.hostileSpeed Drone.drone false)
                                          Double.origin))%float
         = false).
Proof.
  split.
  - split; [vm_compute; reflexivity|].
    split; [vm_compute; reflexivity|].
    split; [vm_compute; reflexivity|].
    intros E. vm_compute in E. discriminate E.
  - split; [vm_compute; reflexivity|].
    split; [vm_compute; reflexivity|].
    split; [vm_compute; reflexivity|].
    split; [vm_compute; reflexivity|].
    split; [vm_compute; reflexivity|].
    split; vm_compute; reflexivity.
Qed.

(** ** C10: the jamming loop *)

Lemma deref_addParticle q w r : deref (addParticle q w) r = deref w r.
Proof. now destruct r. Qed.

Lemma jamStep_other H i k j w :
  k <> j ->
  deref (jamStep H (Friendly i) k w) (Hostile j) = deref w (Hostile j)
  /\ Drone.pos (deref (jamStep H (Friendly i) k w) (Friendly i))
     = Drone.pos (deref w (Friendly i)).
Proof.
  intros Hne. unfold jamStep, readRandom. cbv beta iota zeta.
  destruct (_ && _); [|split; reflexivity].
  destruct (Qltb _ _).
  - rewrite !deref_addParticle, !deref_random.
    split.
    + rewrite !deref_modify_other by congruence. reflexivity.
    + rewrite deref_modify_other by congruence.
      rewrite (deref_modify_field Drone.pos) by reflexivity.
      rewrite deref_modify_other by congruence. reflexivity.
  - rewrite !deref_random.
    split.
    + rewrite !deref_modify_other by congruence. reflexivity.
    + rewrite deref_modify_other by congruence.
      rewrite (deref_modify_field Drone.pos) by reflexivity.
      rewrite deref_modify_other by congruence. reflexivity.
Qed.

Lemma jamStep_self H i j w :
  validRef w (Hostile j) ->
  deref (jamStep H (Friendly i) j w) (Hostile j)
  = jammedBy H (deref w (Friendly i)) (deref w (Hostile j))
  /\ Drone.pos (deref (jamStep H (Friendly i) j w) (Friendly i))
     = Drone.pos (deref w (Friendly i)).
Proof.
  intros Hv. unfold jamStep, jammedBy, readRandom. cbv beta iota zeta.
  destruct (_ && _); [|split; reflexivity].
  assert (E : deref
                (modify (Hostile j)
                   (fun d => Drone.set_health (Drone.health d - 0.1) d)
                   (modify (Friendly i)
                      (fun d => Drone.set_jammingTargets
                                  (Drone.jammingTargets d ++ [Drone.id (deref w (Hostile j))]) d)
                      (modify (Hostile j) (Drone.set_isJammed true) w)))
                (Hostile j)
              = Drone.set_health (Drone.health (deref w (Hostile j)) - 0.1)
                                 (Drone.set_isJammed true (deref w (Hostile j)))).
  { rewrite deref_modify_same by (cbn in *; now rewrite length_alter).
    rewrite deref_modify_other by congruence.
    rewrite deref_modify_same by exact Hv. reflexivity. }
  destruct (Qltb _ _).
  - rewrite !deref_addParticle, !deref_random. split; [exact E|].
    rewrite deref_modify_other by congruence.
    rewrite (deref_modify_field Drone.pos) by reflexivity.
    rewrite deref_modify_other by congruence. reflexivity.
  - rewrite !deref_random. split; [exact E|].
    rewrite deref_modify_other by congruence.
    rewrite (deref_modify_field Drone.pos) by reflexivity.
    rewrite deref_modify_other by congruence. reflexivity.
Qed.

Lemma jammedBy_ext H a b h :
  Drone.pos a = Drone.pos b -> jammedBy H a h = jammedBy H b h.
Proof.
  intros E. unfold jammedBy, calculateDistance.
  injection E as -> ->. reflexivity.
Qed.

Lemma validRef_jamStep H this k w r :
  validRef w r -> validRef (jamStep H this k w) r.
Proof.
  intros Hv.
  apply (evolves_validRef
           (mkPerm [fJamList] [fJamList; fJammed; fHealth] false true (fun _ => True)) w _ r);
    [|exact Hv].
  apply evolves_jamStep; try reflexivity; [|apply evolves_refl].
  destruct this; reflexivity.
Qed.

(** What the jamming loop of one friendly drone does to the hostile drone at
    position [j]. *)
Lemma jamLoop_hostile H i j w :
  validRef w (Hostile j) ->
  deref (jamLoop H (Friendly i) w) (Hostile j)
  = jammedBy H (deref w (Friendly i)) (deref w (Hostile j))
  /\ Drone.pos (deref (jamLoop H (Friendly i) w) (Friendly i))
     = Drone.pos (deref w (Friendly i)).
Proof.
  intros Hv. unfold jamLoop, forEachIndex.
  pose (proj := fun s : SimState =>
                  (deref s (Hostile j), Drone.pos (deref s (Friendly i)))).
  pose (G := fun b : Drone.t * Point.t =>
               (jammedBy H (Drone.set_pos (Point.x (snd b)) (Point.y (snd b))
                                          Drone.nowhere) (fst b), snd b)).
  assert (Hinv : forall n k s,
             validRef s (Hostile j) ->
             proj (forIndices (jamStep H (Friendly i)) k n s)
             = if bool_decide (k <= j < k + n)%nat then G (proj s) else proj s).
  { induction n as [|n IH]; intros k s Hs; cbn [forIndices].
    - rewrite bool_decide_eq_false_2; [reflexivity | lia].
    - rewrite IH by (now apply validRef_jamStep).
      destruct (decide (k = j)) as [->|Hne].
      + rewrite bool_decide_eq_false_2 by lia.
        rewrite bool_decide_eq_true_2 by lia.
        destruct (jamStep_self H i j s Hs) as [E1 E2].
        unfold proj, G. cbn [fst snd]. rewrite E1, E2. f_equal.
      + destruct (jamStep_other H i k j s Hne) as [E1 E2].
        assert (Ep : proj (jamStep H (Friendly i) k s) = proj s)
          by (unfold proj; now rewrite E1, E2).
        rewrite Ep.
        destruct (decide (k <= j < k + S n)%nat).
        * rewrite !bool_decide_eq_true_2 by lia. reflexivity.
        * rewrite !bool_decide_eq_false_2 by lia. reflexivity. }
  specialize (Hinv (length (hostileDrones w)) 0%nat w Hv).
  rewrite bool_decide_eq_true_2 in Hinv by (cbn in Hv; lia).
  unfold proj, G in Hinv. cbn [fst snd] in Hinv.
  apply pair_equal_spec in Hinv as [E1 E2]. split; [|exact E2].
  rewrite E1. apply jammedBy_ext. reflexivity.
Qed.

Lemma evolves_jamLoop_jamPerm H i w : evolves jamPerm w (jamLoop H (Friendly i) w).
Proof.
  apply evolves_jamLoop; try reflexivity. apply evolves_refl.
Qed.

Lemma ofNat_S n : ofNat (S n) == ofNat n + 1.
Proof.
  unfold ofNat. rewrite Nat2Z.inj_succ, <- Z.add_1_r, inject_Z_plus. reflexivity.
Qed.

Lemma changes_nil d d' : changes [] d d' -> d' = d.
Proof.
  intros []. destruct d, d'. unfold keeps in *. cbn in *. subst. reflexivity.
Qed.

Lemma evolves_quiet_hostiles w w' :
  evolves quietPerm w w' -> hostileDrones w' = hostileDrones w.
Proof.
  intros [_ HH _ _ _]. cbn in HH.
  induction HH as [|d d' l l' Hd _ IH]; [reflexivity|].
  now rewrite (changes_nil _ _ Hd), IH.
Qed.

Lemma quiet_divisions : divisionsMay quietPerm.
Proof. intros d _. exact I. Qed.

Lemma update_friendly_reset i w :
  Drone.isFriendly (deref w (Friendly i)) = true ->
  Drone.isFriendly
    (deref (modify (Friendly i) (Drone.set_jammingTargets []) w) (Friendly i))
  = true.
Proof.
  intros Hs. now rewrite (deref_modify_field Drone.isFriendly).
Qed.

Lemma evolves_reset p r w :
  may (on p r) fJamList = true ->
  evolves p w (modify r (Drone.set_jammingTargets []) w).
Proof.
  intros Hm. apply evolves_modify; [|apply evolves_refl].
  intros d. now apply changes_set_jammingTargets.
Qed.

(** ** C1: what [target] refers to *)

Lemma selectFrom_bound H w this c hs : forall k best j,
  fst (selectFrom H w this c k hs best) = Some j ->
  fst best = Some j \/ (k <= j < k + length hs)%nat.
Proof.
  induction hs as [|h hs IH]; intros k best j E; cbn in *; [now left|].
  apply IH in E. destruct E as [E|E]; [|right; lia].
  destruct (gtMax _ _); cbn in E; [right | now left].
  injection E as <-. lia.
Qed.

Lemma selectFrom_keeps H w this c hs : forall k best,
  fst best <> None -> fst (selectFrom H w this c k hs best) <> None.
Proof.
  induction hs as [|h hs IH]; intros k best Hb; cbn; [exact Hb|].
  apply IH. destruct (gtMax _ _); [discriminate | exact Hb].
Qed.

Lemma selectTarget_bound H w this c j :
  selectTarget H w this c = Some j -> validRef w (Hostile j).
Proof.
  unfold selectTarget. intros E. apply selectFrom_bound in E.
  destruct E as [E|E]; [discriminate E | cbn; lia].
Qed.

Lemma selectTarget_none H w this c :
  selectTarget H w this c = None -> hostileDrones w = [].
Proof.
  unfold selectTarget. destruct (hostileDrones w) as [|h hs]; [reflexivity|].
  intros E. exfalso. revert E. cbn. apply selectFrom_keeps. discriminate.
Qed.

Lemma keeps_not {A : Type} l f (a a' : A) :
  may l f = false -> keeps l f a a' -> a' = a.
Proof. unfold keeps. now intros ->. Qed.

Lemma trivial_divisions p : (forall e, onTrace p e) -> divisionsMay p.
Proof. intros Hp d _. apply Hp. Qed.

(** The target and the flag that the decision logic leaves on the drone. *)
Lemma engagement_target H i c formation w :
  validRef w (Friendly i) ->
  let w' := engagement H (Friendly i) c formation w in
  match selectTarget H w (Friendly i) c with
  | Some j =>
      Drone.target (deref w' (Friendly i)) = Some (Drone.id (deref w (Hostile j)))
      /\ Drone.isEngaging (deref w' (Friendly i)) = true
  | None =>
      Drone.target (deref w' (Friendly i)) = None
      /\ Drone.isEngaging (deref w' (Friendly i)) = false
  end.
Proof.
  intros Hv. cbv zeta. unfold engagement.
  assert (Hd : divisionsMay pursuitPerm) by (apply trivial_divisions; intros; exact I).
  destruct (selectTarget H w (Friendly i) c) as [j|].
  - set (w2 := modify _ _ (modify _ _ w)).
    assert (Hv2 : validRef w2 (Friendly i)).
    { subst w2. cbn in *. now rewrite !length_alter. }
    assert (E2 : deref w2 (Friendly i)
                 = Drone.set_isEngaging true
                     (Drone.set_target (Some (Drone.id (deref w (Hostile j))))
                                       (deref w (Friendly i)))).
    { subst w2. rewrite deref_modify_same by (cbn in *; now rewrite length_alter).
      now rewrite deref_modify_same. }
    assert (Hev : evolves pursuitPerm w2 (engageTarget H (Friendly i) j w2)).
    { apply evolves_engageTarget; try reflexivity; auto. apply evolves_refl. }
    pose proof (evolves_deref pursuitPerm (Friendly i) _ _ Hev) as Hc.
    destruct Hc as [_ _ _ _ _ _ _ _ Ht _ He _ _ _ _ _].
    apply keeps_not in Ht; [|reflexivity].
    apply keeps_not in He; [|reflexivity].
    rewrite Ht, He, E2. split; reflexivity.
  - set (w2 := modify _ _ (modify _ _ w)).
    assert (E2 : deref w2 (Friendly i)
                 = Drone.set_isEngaging false
                     (Drone.set_target None (deref w (Friendly i)))).
    { subst w2. rewrite deref_modify_same by (cbn in *; now rewrite length_alter).
      now rewrite deref_modify_same. }
    assert (Hev : evolves pursuitPerm w2 (patrolPosition H (Friendly i) formation w2)).
    { apply evolves_patrolPosition; try reflexivity; auto. apply evolves_refl. }
    pose proof (evolves_deref pursuitPerm (Friendly i) _ _ Hev) as Hc.
    destruct Hc as [_ _ _ _ _ _ _ _ Ht _ He _ _ _ _ _].
    apply keeps_not in Ht; [|reflexivity].
    apply keeps_not in He; [|reflexivity].
    rewrite Ht, He, E2. split; reflexivity.
Qed.

Lemma evolves_hostile_ids p w w' :
  evolves p w w' ->
  map Drone.id (hostileDrones w') = map Drone.id (hostileDrones w).
Proof.
  intros [_ HH _ _ _].
  induction HH as [|d d' l l' Hd _ IH]; [reflexivity|].
  cbn. now rewrite (ch_id _ _ _ Hd), IH.
Qed.

Lemma deref_id_In w j :
  validRef w (Hostile j) -> In (Drone.id (deref w (Hostile j))) (map Drone.id (hostileDrones w)).
Proof.
  cbn. intros Hv. destruct (lookup_lt_is_Some_2 _ _ Hv) as [d Hd]. rewrite Hd. cbn.
  apply in_map. apply list_elem_of_In. eapply list_elem_of_lookup_2; eauto.
Qed.


Lemma map_id_nil (l : list Drone.t) : map Drone.id l = [] -> l = [].
Proof. destruct l; [reflexivity | discriminate]. Qed.

(** C1, as the code has it.  After the step of a friendly drone that runs
    the decision logic (communication enabled, no rescue move), the target of
    the drone is the [id] of a member of the hostile array, which is not the
    [id] of the drone when no hostile drone bears it, or it is [null] and
    the hostile array is empty.  A step that ends in a rescue move, and a
    step in autonomous mode, leave the target as it was. *)
Theorem target_resolution (H : Host) (i : nat) (jammingEnabled : bool)
        (formation : FormationType) (w : SimState) :
  validRef w (Friendly i) ->
  Drone.isFriendly (deref w (Friendly i)) = true ->
  let this := Friendly i in
  let rescue :=
    snd (rescueLoop H this (modify this (Drone.set_jammingTargets []) w)) in
  let normal := update H this true jammingEnabled formation w in
  (rescue = false ->
   match Drone.target (deref normal this) with
   | Some t =>
       (exists h, In h (hostileDrones normal) /\ Drone.id h = t)
       /\ In t (map Drone.id (hostileDrones w))
       /\ (Forall (fun h => Drone.id h <> Drone.id (deref w this))
                  (hostileDrones w) ->
           t <> Drone.id (deref normal this))
   | None => hostileDrones normal = [] /\ hostileDrones w = []
   end)
  /\ (rescue = true ->
      Drone.target (deref normal this) = Drone.target (deref w this))
  /\ Drone.target
       (deref (update H this false jammingEnabled formation w) this)
     = Drone.target (deref w this).
Proof.
  intros Hv Hs. cbv zeta. unfold update.
  rewrite (update_friendly_reset i w Hs). cbn [negb].
  set (w1 := modify (Friendly i) (Drone.set_jammingTargets []) w).
  assert (Hd : forall p, (forall e, onTrace p e) -> divisionsMay p)
    by exact trivial_divisions.
  split; [|split].
  - (* the decision logic *)
    assert (Hev1 : evolves friendlyPerm w w1) by (now apply evolves_reset).
    assert (Hev2 : evolves friendlyPerm w (fst (rescueLoop H (Friendly i) w1)))
      by (apply evolves_rescueLoop; try reflexivity; exact Hev1).
    destruct (rescueLoop H (Friendly i) w1) as [w2 rescue]. cbn [fst snd] in *.
    intros ->.
    assert (Hev3 : evolves friendlyPerm w (markLost H (Friendly i) w2)).
    { apply evolves_markLost; [apply Hd; intros; exact I | reflexivity | exact Hev2]. }
    set (w4 := if jammingEnabled then _ else _).
    assert (Hev4 : evolves friendlyPerm w w4).
    { subst w4. destruct jammingEnabled; [|exact Hev3].
      apply evolves_jamLoop; try reflexivity. exact Hev3. }
    assert (Hv4 : validRef w4 (Friendly i)) by (eapply evolves_validRef; eauto).
    assert (Hev5 : evolves friendlyPerm w (engagement H (Friendly i) true formation w4)).
    { apply evolves_engagement; try reflexivity; auto. apply Hd. intros; exact I. }
    pose proof (evolves_hostile_ids _ _ _ Hev4) as Hid4.
    pose proof (evolves_hostile_ids _ _ _ Hev5) as Hid5.
    pose proof (engagement_target H i true formation w4 Hv4) as Ht. cbv zeta in Ht.
    destruct (selectTarget H w4 (Friendly i) true) as [j|] eqn:Esel.
    + destruct Ht as [Ht _]. rewrite Ht.
      apply selectTarget_bound in Esel. apply deref_id_In in Esel.
      split; [|split].
      * rewrite Hid4, <- Hid5 in Esel. apply in_map_iff in Esel.
        destruct Esel as (h & Eh & Hin). exists h. auto.
      * now rewrite <- Hid4.
      * intros Hall. rewrite Hid4 in Esel. apply in_map_iff in Esel.
        destruct Esel as (h & <- & Hin).
        rewrite Forall_forall in Hall. apply list_elem_of_In in Hin.
        rewrite (ch_id _ _ _ (evolves_deref friendlyPerm (Friendly i) _ _ Hev5)).
        now apply Hall.
    + destruct Ht as [Ht _]. rewrite Ht.
      apply selectTarget_none in Esel.
      assert (E : hostileDrones w = []).
      { apply map_id_nil. now rewrite <- Hid4, Esel. }
      split; [|exact E]. apply map_id_nil. now rewrite Hid5, E.
  - (* the rescue move *)
    assert (Hev1 : evolves detourPerm w w1) by (now apply evolves_reset).
    assert (Hev2 : evolves detourPerm w (fst (rescueLoop H (Friendly i) w1)))
      by (apply evolves_rescueLoop; try reflexivity; exact Hev1).
    destruct (rescueLoop H (Friendly i) w1) as [w2 rescue]. cbn [fst snd] in *.
    intros ->.
    assert (Hev3 : evolves detourPerm w (markLost H (Friendly i) w2)).
    { apply evolves_markLost; [apply Hd; intros; exact I | reflexivity | exact Hev2]. }
    pose proof (ch_target _ _ _ (evolves_deref detourPerm (Friendly i) _ _ Hev3)) as Ht.
    now apply keeps_not in Ht.
  - (* the autonomous mode *)
    assert (Hev1 : evolves detourPerm w w1) by (now apply evolves_reset).
    assert (Hev2 : evolves detourPerm w (autonomousMode H (Friendly i) w1)).
    { apply evolves_autonomousMode; [reflexivity | exact Hev1]. }
    pose proof (ch_target _ _ _ (evolves_deref detourPerm (Friendly i) _ _ Hev2)) as Ht.
    now apply keeps_not in Ht.
Qed.

Lemma target_resolution_witness :
  match Drone.target (deref (update benchHost (Friendly 0) true false
                                    extended_line ambush) (Friendly 0)) with
  | Some t =>
      (exists h, In h (hostileDrones (update benchHost (Friendly 0) true false
                                             extended_line ambush))
                 /\ Drone.id h = t)
      /\ In t (map Drone.id (hostileDrones ambush))
      /\ (Forall (fun h => Drone.id h <> Drone.id (deref ambush (Friendly 0)))
                 (hostileDrones ambush) ->
          t <> Drone.id (deref (update benchHost (Friendly 0) true false
                                       extended_line ambush) (Friendly 0)))
  | None =>
      hostileDrones (update benchHost (Friendly 0) true false extended_line
                            ambush) = []
      /\ hostileDrones ambush = []
  end
  /\ Drone.target (deref (update benchHost (Friendly 0) true false
                                extended_line strayed) (Friendly 0))
     = Drone.target (deref strayed (Friendly 0)).
Proof.
  split.
  - apply (fun hv hs =>
             proj1 (target_resolution benchHost 0 false extended_line ambush
                                      hv hs)).
    + simpl. lia.
    + reflexivity.
    + vm_compute. reflexivity.
  - apply (fun hv hs =>
             proj1 (proj2 (target_resolution benchHost 0 false extended_line
                                             strayed hv hs))).
    + simpl. lia.
    + reflexivity.
    + vm_compute. reflexivity.
Defined.

(** C1 as stated fails in autonomous mode.  The bomber shoots the hostile
    interceptor five ticks in a row; the fifth shot kills it and the
    partition removes it, while the bomber still has it as target.  The next
    tick runs with communication disabled: the hostile array is empty and the
    target is still ["H-1"]. *)
Lemma stale_target_counterexample :
  map Drone.id
      (hostileDrones (run benchHost extended_line (repeat (true, false) 4) ambush))
  = ["H-1"%string]
  /\ hostileDrones (run benchHost extended_line (repeat (true, false) 5) ambush)
     = []
  /\ map Drone.target
         (friendlyDrones
            (run benchHost extended_line (repeat (true, false) 5) ambush))
     = [Some "H-1"%string]
  /\ hostileDrones
       (run benchHost extended_line (repeat (true, false) 5 ++ [(false, false)])
            ambush)
     = []
  /\ map Drone.target
         (friendlyDrones
            (run benchHost extended_line
                 (repeat (true, false) 5 ++ [(false, false)]) ambush))
     = [Some "H-1"%string].
Proof.
  split; [vm_compute; reflexivity|].
  split; [vm_compute; reflexivity|].
  split; [vm_compute; reflexivity|].
  split; vm_compute; reflexivity.
Qed.

(** ** C2: saturation of the engagement *)

Lemma countEngagers_alter_self this h f : forall fs k i,
  this = Friendly (k + i) ->
  countEngagers this h k (alter f i fs) = countEngagers this h k fs.
Proof.
  induction fs as [|d fs IH]; intros k i ->; [reflexivity|].
  destruct i as [|i]; cbn.
  - rewrite Nat.add_0_r, Nat.eqb_refl. reflexivity.
  - f_equal. apply (IH (S k) i). f_equal. lia.
Qed.

Lemma ratio_of_ten n : Qltb (ofNat n / ofNat 10) 0.3 = (n <? 3)%nat.
Proof.
  assert (E : ofNat n / ofNat 10 == ofNat n * (1 # 10)) by reflexivity.
  destruct (n <? 3)%nat eqn:C.
  - apply Nat.ltb_lt in C. apply Qltb_lt. rewrite E.
    assert (ofNat n < 3).
    { unfold ofNat. change 3 with (inject_Z 3). rewrite <- Zlt_Qlt. lia. }
    lra.
  - apply Nat.ltb_ge in C. apply Qltb_ge. rewrite E.
    assert (3 <= ofNat n).
    { unfold ofNat. change 3 with (inject_Z 3). rewrite <- Zle_Qle. lia. }
    lra.
Qed.

Lemma selectTarget_single H w this c h :
  hostileDrones w = [h] -> selectTarget H w this c = Some 0%nat.
Proof. unfold selectTarget. now intros ->. Qed.

(** C2, as the code has it.  With ten friendly drones and one hostile drone,
    every friendly drone whose step runs the decision logic has that drone as
    target and reports [isEngaging]: the flag knows no cap.  The cap is on
    the strike: when the target is not critical, a friendly drone 200 or more
    away and with three or more other friendly drones on the same target
    holds the defensive position instead; nearer than 200, or with fewer than
    three others, it strikes.  When the target is critical it strikes
    whatever the count, and the ratio is not even computed. *)
Theorem engagement_cap (H : Host) (i : nat) (formation : FormationType)
        (w : SimState) (h : Drone.t) :
  validRef w (Friendly i) ->
  length (friendlyDrones w) = 10%nat ->
  hostileDrones w = [h] ->
  let this := Friendly i in
  let w' := engagement H this true formation w in
  let aimed := modify this (Drone.set_isEngaging true)
                      (modify this (Drone.set_target (Some (Drone.id h))) w) in
  let logged := logEvent (EvDivide (ofNat 10)) aimed in
  let others := countEngagers this h 0 (friendlyDrones w) in
  let near := Qltb (calculateDistance H (deref w this) (Drone.pos h)) 200 in
  Drone.isEngaging (deref w' this) = true
  /\ Drone.target (deref w' this) = Some (Drone.id h)
  /\ (isCriticalThreat H w h = true -> w' = strike H this 0 aimed)
  /\ (isCriticalThreat H w h = false -> near = false -> (3 <= others)%nat ->
      w' = maintainDefensivePosition H this logged)
  /\ (isCriticalThreat H w h = false -> near = true \/ (others < 3)%nat ->
      w' = strike H this 0 logged).
Proof.
  intros Hv Hlen Hh. cbv zeta.
  pose proof (engagement_target H i true formation w Hv) as Ht. cbv zeta in Ht.
  assert (Eh : deref w (Hostile 0) = h) by (cbn; now rewrite Hh).
  unfold engagement in *.
  rewrite (selectTarget_single H w (Friendly i) true h Hh) in *.
  rewrite Eh in *. destruct Ht as [Ht He].
  split; [exact He|]. split; [exact Ht|].
  set (aimed := modify _ _ (modify _ _ w)).
  assert (Eh' : deref aimed (Hostile 0) = h) by (subst aimed; cbn; now rewrite Hh).
  assert (Ecrit : isCriticalThreat H aimed h = isCriticalThreat H w h) by reflexivity.
  assert (Elen : length (friendlyDrones aimed) = 10%nat).
  { subst aimed. cbn. now rewrite !length_alter. }
  assert (Ecount : countEngagers (Friendly i) h 0 (friendlyDrones aimed)
                   = countEngagers (Friendly i) h 0 (friendlyDrones w)).
  { subst aimed. cbn [friendlyDrones modify set_friendlyDrones].
    now rewrite !countEngagers_alter_self. }
  assert (Edist : calculateDistance H (deref aimed (Friendly i)) (Drone.pos h)
                  = calculateDistance H (deref w (Friendly i)) (Drone.pos h)).
  { subst aimed. unfold calculateDistance.
    rewrite !(deref_modify_field Drone.x), !(deref_modify_field Drone.y);
      reflexivity. }
  unfold engageTarget. rewrite Eh', Ecrit.
  unfold shouldEngage, divide. cbv beta iota zeta.
  rewrite Elen, Ecount, Edist, ratio_of_ten.
  split; [|split].
  - intros ->. reflexivity.
  - intros -> -> Ho. apply Nat.ltb_ge in Ho. rewrite Ho. reflexivity.
  - intros -> [-> | Ho]; [reflexivity|].
    apply Nat.ltb_lt in Ho. rewrite Ho, orb_true_r. reflexivity.
Qed.

Lemma engagement_cap_witness :
  Drone.isEngaging
    (deref (engagement benchHost (Friendly 9) true extended_line tenAgainstOne)
           (Friendly 9)) = true
  /\ engagement benchHost (Friendly 9) true extended_line afterOneTick
     = maintainDefensivePosition benchHost (Friendly 9)
         (logEvent (EvDivide (ofNat 10))
            (modify (Friendly 9) (Drone.set_isEngaging true)
               (modify (Friendly 9)
                  (Drone.set_target
                     (Some (Drone.id (deref afterOneTick (Hostile 0)))))
                  afterOneTick))).
Proof.
  split.
  - apply (engagement_cap benchHost 9 extended_line tenAgainstOne
                          (deref tenAgainstOne (Hostile 0))).
    + vm_compute. lia.
    + vm_compute. reflexivity.
    + vm_compute. reflexivity.
  - apply (engagement_cap benchHost 9 extended_line afterOneTick
                          (deref afterOneTick (Hostile 0))).
    + vm_compute. lia.
    + vm_compute. reflexivity.
    + vm_compute. reflexivity.
    + vm_compute. reflexivity.
    + vm_compute. reflexivity.
    + vm_compute. lia.
Defined.

(** C2 as stated fails.  Ten interceptors and one hostile drone that is not
    within threatening range of any asset: after the first tick, and after
    the third, all ten report [isEngaging] on it. *)
Lemma saturation_counterexample :
  (let w := run benchHost extended_line (repeat (true, false) 1) tenAgainstOne in
   length (friendlyDrones w) = 10%nat
   /\ map Drone.id (hostileDrones w) = ["H-1"%string]
   /\ isCriticalThreat benchHost w (deref w (Hostile 0)) = false
   /\ engagedOn w (deref w (Hostile 0)) = 10%nat)
  /\
  (let w := run benchHost extended_line (repeat (true, false) 3) tenAgainstOne in
   length (friendlyDrones w) = 10%nat
   /\ map Drone.id (hostileDrones w) = ["H-1"%string]
   /\ isCriticalThreat benchHost w (deref w (Hostile 0)) = false
   /\ engagedOn w (deref w (Hostile 0)) = 10%nat).
Proof.
  split.
  - vm_compute. auto.
  - vm_compute. auto.
Qed.

(** ** C3 and C9: the run *)

Lemma soundEvent_divisions p :
  onTrace p = soundEvent -> divisionsMay p.
Proof. intros E d Hd. rewrite E. split; [exact I | exact Hd]. Qed.

Lemma evolves_ageParticles p w :
  onParticles p = true -> evolves p w (ageParticles w).
Proof.
  intros Hp. destruct (evolves_refl p w) as [? ? ? ? ?].
  constructor; auto. now rewrite Hp.
Qed.

Lemma evolves_clearJamFlags p w :
  may (onHostile p) fJammed = true -> evolves p w (clearJamFlags w).
Proof.
  intros Hm. destruct (evolves_refl p w) as [? _ ? ? ?].
  constructor; auto. cbn.
  induction (hostileDrones w) as [|d l IH]; constructor; auto.
  now apply changes_set_isJammed.
Qed.

Lemma friendly_pass H c jam f w :
  sided w -> friendliesAlive w ->
  evolves friendlyPassPerm w (updateFriendlies H c jam f w).
Proof.
  intros Hs Ha.
  apply evolves_updateFriendlies;
    try reflexivity; auto using soundEvent_divisions.
  intros w' i Hev Hv. cbv zeta. split; [|exact I]. cbn [updateOfLiving].
  pose proof (ch_health _ _ _ (evolves_deref friendlyPassPerm (Friendly i) _ _ Hev)) as Hh.
  apply keeps_not in Hh; [|reflexivity]. rewrite Hh.
  cbn in Hv |- *. destruct (lookup_lt_is_Some_2 _ _ Hv) as [d Hd]. rewrite Hd. cbn.
  eapply Forall_lookup_1 in Ha; eauto.
Qed.

Lemma hostile_pass H c jam f w :
  sided w ->
  evolves hostilePassPerm w (updateHostiles H c jam f w).
Proof.
  intros Hs.
  apply evolves_updateHostiles;
    try reflexivity; auto using soundEvent_divisions.
  intros w' j Hev Hv. cbv zeta. intros Hpos. split; [exact Hpos | exact I].
Qed.

Lemma weaker_tick p :
  onTrace p = soundEvent -> weaker p tickPerm.
Proof.
  intros E. split; [|split; [|split; [|split]]]; cbn; auto.
  - unfold allows. apply forallb_forall. intros [] _; reflexivity.
  - unfold allows. apply forallb_forall. intros [] _; reflexivity.
  - intros e. now rewrite E.
Qed.

Lemma sided_evolves p w w' : evolves p w w' -> sided w -> sided w'.
Proof.
  intros [HF HH _ _ _] [S1 S2]. split.
  - clear HH S2. induction HF as [|d d' l l' Hd _ IH]; constructor.
    + rewrite (ch_isFriendly _ _ _ Hd). now inversion S1.
    + apply IH. now inversion S1.
  - clear HF S1. induction HH as [|d d' l l' Hd _ IH]; constructor.
    + rewrite (ch_isFriendly _ _ _ Hd). now inversion S2.
    + apply IH. now inversion S2.
Qed.

(** One tick: the passes change the entities in place, within [tickPerm];
    the partition then keeps those of positive health. *)
Lemma tick_passes H c jam f w :
  sided w -> friendliesAlive w ->
  exists mid,
    evolves tickPerm w mid
    /\ friendlyDrones (updateSimulation H c jam f w)
       = List.filter droneAlive (friendlyDrones mid)
    /\ hostileDrones (updateSimulation H c jam f w)
       = List.filter droneAlive (hostileDrones mid)
    /\ groundAssets (updateSimulation H c jam f w)
       = List.filter assetAlive (groundAssets mid)
    /\ trace (updateSimulation H c jam f w) = trace mid.
Proof.
  intros Hs Ha. unfold updateSimulation, updatePasses.
  set (w0 := clearJamFlags (ageParticles w)).
  assert (Hev0 : evolves friendlyPassPerm w w0).
  { subst w0. eapply evolves_trans; [apply evolves_ageParticles; reflexivity|].
    apply evolves_clearJamFlags. reflexivity. }
  assert (Hs0 : sided w0) by (eapply sided_evolves; eauto).
  assert (Ha0 : friendliesAlive w0) by exact Ha.
  set (w1 := updateFriendlies H c jam f w0).
  assert (Hev1 : evolves friendlyPassPerm w0 w1) by (now apply friendly_pass).
  assert (Hs1 : sided w1) by (eapply sided_evolves; eauto).
  set (w2 := updateHostiles H c jam f w1).
  assert (Hev2 : evolves hostilePassPerm w1 w2) by (now apply hostile_pass).
  exists w2. split.
  - eapply evolves_trans; [|eapply evolves_weaken; [|exact Hev2]];
      [|now apply weaker_tick].
    eapply evolves_weaken; [now apply (weaker_tick friendlyPassPerm)|].
    eapply evolves_trans; eauto.
  - apply casualtyPartition_arrays.
Qed.

Lemma Forall2_In_r {A : Type} (R : A -> A -> Prop) l l' x' :
  Forall2 R l l' -> In x' l' -> exists x, In x l /\ R x x'.
Proof.
  induction 1 as [|a a' l l' Ha _ IH]; intros Hin; [destruct Hin|].
  destruct Hin as [<-|Hin].
  - exists a. split; [now left | exact Ha].
  - destruct (IH Hin) as (x & Hx & HR). exists x. split; [now right | exact HR].
Qed.

Lemma descend_refl {A : Type} (heir : A -> A -> Prop) l :
  (forall a, heir a a) -> descend heir l l.
Proof. intros Hr x Hx. exists x. auto. Qed.

Lemma descend_trans {A : Type} (heir : A -> A -> Prop) l1 l2 l3 :
  (forall a b c, heir a b -> heir b c -> heir a c) ->
  descend heir l1 l2 -> descend heir l2 l3 -> descend heir l1 l3.
Proof.
  intros Ht H12 H23 z Hz.
  destruct (H23 z Hz) as (y & Hy & Hyz).
  destruct (H12 y Hy) as (x & Hx & Hxy). exists x. eauto.
Qed.

Lemma droneHeir_refl d : droneHeir d d.
Proof. repeat split. apply Qle_refl. Qed.

Lemma droneHeir_trans a b c : droneHeir a b -> droneHeir b c -> droneHeir a c.
Proof.
  intros (?&?&?) (?&?&?). repeat split; try congruence. eapply Qle_trans; eauto.
Qed.

Lemma assetHeir_refl a : assetHeir a a.
Proof. repeat split. apply Qle_refl. Qed.

Lemma assetHeir_trans a b c : assetHeir a b -> assetHeir b c -> assetHeir a c.
Proof.
  intros (?&?&?&?) (?&?&?&?). repeat split; try congruence. eapply Qle_trans; eauto.
Qed.

Lemma descend_filter_drones l mid :
  Forall2 (changes allFields) l mid ->
  descend droneHeir l (List.filter droneAlive mid).
Proof.
  intros HF d' Hd'. apply filter_In in Hd' as [Hin _].
  destruct (Forall2_In_r _ _ _ _ HF Hin) as (d & Hd & Hc).
  exists d. split; [exact Hd|]. destruct Hc. repeat split; auto.
Qed.

Lemma descend_filter_assets l mid :
  Forall2 (assetChanges true) l mid ->
  descend assetHeir l (List.filter assetAlive mid).
Proof.
  intros HF a' Ha'. apply filter_In in Ha' as [Hin _].
  destruct (Forall2_In_r _ _ _ _ HF Hin) as (a & Ha & Hc).
  exists a. split; [exact Ha|]. destruct Hc. repeat split; auto.
Qed.

Lemma Forall_filter_alive (l : list Drone.t) :
  Forall (fun d => 0 < Drone.health d) (List.filter droneAlive l).
Proof.
  apply Forall_forall. intros d Hd. apply list_elem_of_In, filter_In in Hd as [_ Hd].
  now apply Qltb_lt.
Qed.

Lemma Forall_filter_assetAlive (l : list Asset.t) :
  Forall (fun a => 0 < Asset.health a) (List.filter assetAlive l).
Proof.
  apply Forall_forall. intros d Hd. apply list_elem_of_In, filter_In in Hd as [_ Hd].
  now apply Qltb_lt.
Qed.

Lemma Forall_filter_keeps {A : Type} (P : A -> Prop) (f : A -> bool) l :
  Forall P l -> Forall P (List.filter f l).
Proof.
  rewrite !Forall_forall. intros HP x Hx.
  apply list_elem_of_In, filter_In in Hx as [Hx _]. apply HP.
  now apply list_elem_of_In.
Qed.

Lemma tick_step H c jam f w :
  sided w -> friendliesAlive w ->
  let w' := updateSimulation H c jam f w in
  sided w' /\ allAlive w'
  /\ descend droneHeir (friendlyDrones w) (friendlyDrones w')
  /\ descend droneHeir (hostileDrones w) (hostileDrones w')
  /\ descend assetHeir (groundAssets w) (groundAssets w')
  /\ soundlyExtends w w'.
Proof.
  intros Hs Ha. cbv zeta. unfold soundlyExtends.
  destruct (tick_passes H c jam f w Hs Ha) as (mid & Hev & EF & EH & EA & ET).
  rewrite EF, EH, EA, ET.
  pose proof (sided_evolves _ _ _ Hev Hs) as [S1 S2].
  destruct Hev as [HF HH HA _ HT]. cbn in HF, HH, HA, HT.
  split; [|split; [|split; [|split; [|split]]]].
  - split; cbn; rewrite ?EF, ?EH; now apply Forall_filter_keeps.
  - split; [|split]; cbn; rewrite ?EF, ?EH, ?EA;
      auto using Forall_filter_alive, Forall_filter_assetAlive.
  - now apply descend_filter_drones.
  - now apply descend_filter_drones.
  - now apply descend_filter_assets.
  - exact HT.
Qed.

Lemma soundlyExtends_refl w : soundlyExtends w w.
Proof. exists []. split; [now rewrite app_nil_r | constructor]. Qed.

Lemma soundlyExtends_trans w1 w2 w3 :
  soundlyExtends w1 w2 -> soundlyExtends w2 w3 -> soundlyExtends w1 w3.
Proof.
  intros (e1 & T1 & O1) (e2 & T2 & O2). exists (e1 ++ e2). split.
  - rewrite T2, T1. now rewrite <- app_assoc.
  - apply Forall_app; auto.
Qed.

(** A run from a state with friendly drones alive and each drone on its
    side: the heirs, the trace, and the state after the last tick. *)
Lemma run_sound H formation flags : forall w,
  sided w -> friendliesAlive w ->
  let w' := run H formation flags w in
  descend droneHeir (friendlyDrones w) (friendlyDrones w')
  /\ descend droneHeir (hostileDrones w) (hostileDrones w')
  /\ descend assetHeir (groundAssets w) (groundAssets w')
  /\ soundlyExtends w w'
  /\ (flags <> [] -> allAlive w').
Proof.
  cbv zeta. induction flags as [|[c jam] flags IH]; intros w Hs Ha.
  - cbn. split; [|split; [|split; [|split]]].
    + apply descend_refl, droneHeir_refl.
    + apply descend_refl, droneHeir_refl.
    + apply descend_refl, assetHeir_refl.
    + apply soundlyExtends_refl.
    + congruence.
  - cbn [run].
    destruct (tick_step H c jam formation w Hs Ha)
      as (Hs1 & Hal1 & D1 & D2 & D3 & T1).
    destruct (IH _ Hs1 (proj1 Hal1)) as (E1 & E2 & E3 & T2 & Hal2).
    split; [|split; [|split; [|split]]].
    + eapply descend_trans; eauto using droneHeir_trans.
    + eapply descend_trans; eauto using droneHeir_trans.
    + eapply descend_trans; eauto using assetHeir_trans.
    + eapply soundlyExtends_trans; eauto.
    + intros _. destruct flags as [|fl flags']; [exact Hal1|].
      apply Hal2. discriminate.
Qed.

(** C3.  From a state whose friendly drones are alive, each drone on its
    side, and through any number of ticks: every entity of the state reached
    is the heir of an entity of the first state, with the same identity and
    no more health; every [update] the orchestrator invoked was that of a
    drone of positive health; and after a tick every entity left in the live
    arrays has positive health, the others having been removed by the
    partition of that tick. *)
Theorem health_never_grows (H : Host) (formation : FormationType)
        (flags : list (bool * bool)) (w : SimState) :
  sided w -> friendliesAlive w ->
  let w' := run H formation flags w in
  descend droneHeir (friendlyDrones w) (friendlyDrones w')
  /\ descend droneHeir (hostileDrones w) (hostileDrones w')
  /\ descend assetHeir (groundAssets w) (groundAssets w')
  /\ (exists evs, trace w' = trace w ++ evs /\ Forall updateOfLiving evs)
  /\ (flags <> [] -> allAlive w').
Proof.
  intros Hs Ha. cbv zeta.
  destruct (run_sound H formation flags w Hs Ha) as (D1 & D2 & D3 & (evs & T & O) & Al).
  repeat (split; [assumption|]). split; [|exact Al].
  exists evs. split; [exact T|].
  eapply Forall_impl; [exact O|]. now intros e [? _].
Qed.

(** *** [initSimulation] *)

Lemma fit_log w0 w e : soundEvent e -> fit w0 w -> fit w0 (logEvent e w).
Proof.
  intros He (F & A & (evs & T & O)). split; [exact F|]. split; [exact A|].
  exists (evs ++ [e]). split.
  - cbn. now rewrite T, <- app_assoc.
  - apply Forall_app. split; auto.
Qed.

Lemma fit_divide w0 w d : ~ d == 0 -> fit w0 w -> fit w0 (logEvent (EvDivide d) w).
Proof. intros Hd. apply fit_log. split; [exact I | exact Hd]. Qed.

Lemma health_new id x y side type : 0 < Drone.health (Drone.new id x y side type).
Proof. destruct type; reflexivity. Qed.

Lemma fit_friendly w0 w id x y type :
  fit w0 w ->
  fit w0 (set_friendlyDrones (friendlyDrones w ++ [Drone.new id x y true type]) w).
Proof.
  intros (F & A & T). split; [|split; [exact A | exact T]].
  cbn. apply Forall_app. split; [exact F|].
  constructor; [|constructor]. split; [reflexivity | apply health_new].
Qed.

Lemma fit_random w0 w n : fit w0 w -> fit w0 (set_randomReads n w).
Proof. intros Hf. exact Hf. Qed.

Lemma fit_hostile w0 w l : fit w0 w -> fit w0 (set_hostileDrones l w).
Proof. intros Hf. exact Hf. Qed.

Lemma fit_spawnFriendly H formation friendlyCount cx cy i w0 w :
  (i < friendlyCount)%nat ->
  fit w0 w -> fit w0 (spawnFriendly H formation friendlyCount cx cy i w).
Proof.
  intros Hi Hf. unfold spawnFriendly, divide.
  destruct formation; cbv beta iota zeta; apply fit_friendly;
    repeat apply fit_divide; auto using two_nonzero, four_nonzero.
  apply ofNat_nonzero. lia.
Qed.

Lemma fit_spawnFriendlyBomber H i w0 w :
  fit w0 w -> fit w0 (spawnFriendlyBomber H i w).
Proof.
  intros Hf. unfold spawnFriendlyBomber, readRandom. cbv beta iota zeta.
  now apply fit_friendly.
Qed.

Lemma hostileDrones_spawnFriendly H formation friendlyCount cx cy i w :
  hostileDrones (spawnFriendly H formation friendlyCount cx cy i w)
  = hostileDrones w.
Proof. unfold spawnFriendly, divide. destruct formation; reflexivity. Qed.

Lemma hostilesFit_add w id x y type :
  hostilesFit w ->
  hostilesFit (set_hostileDrones (hostileDrones w ++ [Drone.new id x y false type]) w).
Proof.
  intros Hh. unfold hostilesFit. cbn. apply Forall_app. split; [exact Hh|].
  constructor; [|constructor]. split; [reflexivity | apply health_new].
Qed.

Lemma spawnHostile_fit H i w0 w :
  fit w0 w /\ hostilesFit w ->
  fit w0 (spawnHostile H i w) /\ hostilesFit (spawnHostile H i w).
Proof.
  intros [Hf Hh]. unfold spawnHostile, readRandom. cbv beta iota zeta.
  destruct (Qfloor _) as [|p|p]; [| |];
    try (destruct p as [p|p|]; [| |]; try destruct p);
    cbv beta iota zeta;
    (split; [exact Hf | now apply hostilesFit_add]).
Qed.

Lemma spawnHostileBomber_fit H i w0 w :
  fit w0 w /\ hostilesFit w ->
  fit w0 (spawnHostileBomber H i w) /\ hostilesFit (spawnHostileBomber H i w).
Proof.
  intros [Hf Hh]. unfold spawnHostileBomber, readRandom. cbv beta iota zeta.
  split; [exact Hf | now apply hostilesFit_add].
Qed.

Lemma mapAssets_alive selectedMap :
  Forall (fun a => 0 < Asset.health a) (mapAssets selectedMap)
  /\ length (mapAssets selectedMap) = 5%nat.
Proof. destruct selectedMap; split; try reflexivity; repeat constructor. Qed.

(** [initSimulation] logs sound divisions only and leaves every drone on its
    side, and every entity alive. *)
Lemma initSimulation_sound H selectedMap friendlyCount hostileCount bomberCount
      hostileBomberCount formation w0 :
  let w := initSimulation H selectedMap friendlyCount hostileCount bomberCount
                          hostileBomberCount formation w0 in
  sided w /\ allAlive w /\ soundlyExtends w0 w.
Proof.
  cbv zeta. unfold initSimulation, divide. cbv beta iota zeta.
  cbn [groundAssets set_friendlyDrones set_friendlyLosses set_particles
       set_destroyedAssets set_groundAssets].
  destruct (mapAssets_alive selectedMap) as [Hal Hlen]. rewrite Hlen.
  set (w1 := logEvent _ (logEvent _ _)).
  assert (F1 : fit w0 w1).
  { subst w1. do 2 (apply fit_divide; [apply ofNat_nonzero; lia|]).
    split; [constructor|]. split; [exact Hal|].
    exists []. split; [cbn; now rewrite app_nil_r | constructor]. }
  clearbody w1.
  set (w2 := forEachIndex friendlyCount _ w1).
  assert (F2 : fit w0 w2).
  { subst w2. unfold forEachIndex.
    apply (forIndices_invariant (fit w0)); [exact F1|].
    intros i s Hi Hs. apply fit_spawnFriendly; [lia | exact Hs]. }
  clearbody w2.
  set (w3 := forEachIndex bomberCount _ w2).
  assert (F3 : fit w0 w3).
  { subst w3. unfold forEachIndex.
    apply (forIndices_invariant (fit w0)); [exact F2|].
    intros i s _ Hs. now apply fit_spawnFriendlyBomber. }
  clearbody w3.
  set (w4 := set_hostileDrones [] w3).
  assert (F4 : fit w0 w4 /\ hostilesFit w4).
  { subst w4. split; [exact F3 | constructor]. }
  clearbody w4.
  set (w5 := forEachIndex hostileCount _ w4).
  assert (F5 : fit w0 w5 /\ hostilesFit w5).
  { subst w5. unfold forEachIndex.
    apply (forIndices_invariant (fun s => fit w0 s /\ hostilesFit s)); [exact F4|].
    intros i s _ Hs. now apply spawnHostile_fit. }
  clearbody w5.
  set (w6 := forEachIndex hostileBomberCount _ w5).
  assert (F6 : fit w0 w6 /\ hostilesFit w6).
  { subst w6. unfold forEachIndex.
    apply (forIndices_invariant (fun s => fit w0 s /\ hostilesFit s)); [exact F5|].
    intros i s _ Hs. now apply spawnHostileBomber_fit. }
  clearbody w6.
  destruct F6 as [(F & A & T) Hh]. unfold hostilesFit in Hh.
  split; [|split; [|exact T]].
  - split; (eapply Forall_impl; [eassumption|]); now intros d [? _].
  - split; [|split; [|exact A]];
      (eapply Forall_impl; [eassumption|]); now intros d [_ ?].
Qed.

Lemma health_never_grows_witness :
  let ticks := [(true, false); (true, false); (true, false); (true, false);
                (true, false)] in
  let w' := run benchHost extended_line ticks ambush in
  (descend droneHeir (friendlyDrones ambush) (friendlyDrones w')
   /\ descend droneHeir (hostileDrones ambush) (hostileDrones w')
   /\ descend assetHeir (groundAssets ambush) (groundAssets w')
   /\ (exists evs, trace w' = trace ambush ++ evs /\ Forall updateOfLiving evs)
   /\ (ticks <> [] -> allAlive w'))
  /\ map Drone.health (hostileDrones ambush) = [100]
  /\ map (fun d => Qred (Drone.health d))
         (hostileDrones (run benchHost extended_line (firstn 4 ticks) ambush))
     = [20]
  /\ hostileDrones w' = []
  /\ map (fun d => Qred (Drone.health d)) (friendlyDrones w') = [144]
  /\ trace w'
     = [EvUpdate true "B-1" 150; EvDivide 1; EvUpdate false "H-1" 80;
        EvUpdate true "B-1" 148.5; EvDivide 1; EvUpdate false "H-1" 60;
        EvUpdate true "B-1" 147.00; EvDivide 1; EvUpdate false "H-1" 40;
        EvUpdate true "B-1" 145.500; EvDivide 1; EvUpdate false "H-1" 20;
        EvUpdate true "B-1" 144.0000; EvDivide 1].
Proof.
  cbv zeta. split.
  - apply (health_never_grows benchHost extended_line
             [(true, false); (true, false); (true, false); (true, false);
              (true, false)] ambush).
    + vm_compute. split; repeat constructor.
    + vm_compute. repeat constructor.
  - split; [vm_compute; reflexivity|].
    split; [vm_compute; reflexivity|].
    split; [vm_compute; reflexivity|].
    split; vm_compute; reflexivity.
Defined.

(** C9.  Whatever the map, the counts, the formation and the flags, every
    division by a roster size or a collection size made by [initSimulation]
    and by the ticks that follow has a divisor other than zero: the centroid
    of the assets is computed for a non-empty array only, the centre of the
    swarm for more than one drone, the offsets of the formations divide by
    2 and 4, and [shouldEngage] divides by the size of a roster that holds
    the drone that asks. *)
Theorem no_division_by_zero (H : Host) (selectedMap : MapKey)
        (friendlyCount hostileCount bomberCount hostileBomberCount : nat)
        (spawnFormation formation : FormationType)
        (flags : list (bool * bool)) (w0 : SimState) :
  let w := initSimulation H selectedMap friendlyCount hostileCount bomberCount
                          hostileBomberCount spawnFormation w0 in
  exists evs,
    trace (run H formation flags w) = trace w0 ++ evs
    /\ Forall divisorNonzero evs.
Proof.
  cbv zeta.
  destruct (initSimulation_sound H selectedMap friendlyCount hostileCount
              bomberCount hostileBomberCount spawnFormation w0)
    as (Hs & Hal & T0).
  destruct (run_sound H formation flags _ Hs (proj1 Hal)) as (_ & _ & _ & T1 & _).
  destruct (soundlyExtends_trans _ _ _ T0 T1) as (evs & T & O).
  exists evs. split; [exact T|].
  eapply Forall_impl; [exact O|]. now intros e [_ ?].
Qed.

(** ** The ids of the drones *)

Lemma append_cancel (p a b : string) : (p ++ a)%string = (p ++ b)%string -> a = b.
Proof. induction p as [|c p IH]; cbn; [auto|]. intros E. injection E. exact IH. Qed.

Lemma label_inj prefix n m : label prefix n = label prefix m -> n = m.
Proof.
  unfold label. intros E. apply append_cancel in E.
  apply Unsigned.to_uint_inj.
  assert (E' : Some (Nat.to_uint n) = Some (Nat.to_uint m))
    by (rewrite <- !NilEmpty.usu; now rewrite E).
  now injection E'.
Qed.

Lemma label_friendly n m : label "F-" n <> label "B-" m.
Proof. unfold label. cbn. intros E. discriminate E. Qed.

Lemma label_hostile n m : label "H-" n <> label "HB-" m.
Proof. unfold label. cbn. intros E. discriminate E. Qed.

Lemma NoDup_labels prefix k n : NoDup (labels prefix k n).
Proof.
  unfold labels. apply (NoDup_fmap_2_strong _ (seq k n)); [|apply NoDup_seq].
  intros x y _ _ E. apply label_inj in E. lia.
Qed.

Lemma NoDup_two_prefixes p q k n k' n' :
  (forall a b, label p a <> label q b) ->
  NoDup (labels p k n ++ labels q k' n').
Proof.
  intros Hpq. apply NoDup_app. split; [apply NoDup_labels|].
  split; [|apply NoDup_labels].
  intros s Hs Hs'. unfold labels in *.
  apply list_elem_of_In, in_map_iff in Hs as (a & <- & _).
  apply list_elem_of_In, in_map_iff in Hs' as (b & E & _).
  exact (Hpq _ _ (eq_sym E)).
Qed.

Lemma forIndices_ids (proj : SimState -> list Drone.t)
      (f : nat -> SimState -> SimState) prefix :
  (forall i w, map Drone.id (proj (f i w))
               = map Drone.id (proj w) ++ [label prefix (i + 1)]) ->
  forall n k w,
    map Drone.id (proj (forIndices f k n w))
    = map Drone.id (proj w) ++ labels prefix k n.
Proof.
  intros Hf. induction n as [|n IH]; intros k w; cbn.
  - now rewrite app_nil_r.
  - rewrite IH, Hf, <- app_assoc. reflexivity.
Qed.

Lemma forIndices_keeps {B : Type} (proj : SimState -> B)
      (f : nat -> SimState -> SimState) :
  (forall i w, proj (f i w) = proj w) ->
  forall n k w, proj (forIndices f k n w) = proj w.
Proof.
  intros Hf. induction n as [|n IH]; intros k w; cbn; [reflexivity|].
  now rewrite IH, Hf.
Qed.

Lemma ids_spawnFriendly H formation friendlyCount cx cy i w :
  map Drone.id (friendlyDrones (spawnFriendly H formation friendlyCount cx cy i w))
  = map Drone.id (friendlyDrones w) ++ [label "F-" (i + 1)].
Proof.
  unfold spawnFriendly, divide. destruct formation; cbn; now rewrite map_app.
Qed.

Lemma ids_spawnFriendlyBomber H i w :
  map Drone.id (friendlyDrones (spawnFriendlyBomber H i w))
  = map Drone.id (friendlyDrones w) ++ [label "B-" (i + 1)].
Proof. unfold spawnFriendlyBomber. cbn. now rewrite map_app. Qed.

Lemma spawnHostile_arrays H i w :
  friendlyDrones (spawnHostile H i w) = friendlyDrones w
  /\ map Drone.id (hostileDrones (spawnHostile H i w))
     = map Drone.id (hostileDrones w) ++ [label "H-" (i + 1)].
Proof.
  unfold spawnHostile, readRandom. cbv beta iota zeta.
  destruct (Qfloor _) as [|p|p]; [| |];
    try (destruct p as [p|p|]; [| |]; try destruct p);
    cbn; now rewrite map_app.
Qed.

Lemma spawnHostileBomber_arrays H i w :
  friendlyDrones (spawnHostileBomber H i w) = friendlyDrones w
  /\ map Drone.id (hostileDrones (spawnHostileBomber H i w))
     = map Drone.id (hostileDrones w) ++ [label "HB-" (i + 1)].
Proof. unfold spawnHostileBomber. cbn. now rewrite map_app. Qed.

(** The ids [initSimulation] gives. *)
Lemma initSimulation_ids H selectedMap friendlyCount hostileCount bomberCount
      hostileBomberCount formation w0 :
  let w := initSimulation H selectedMap friendlyCount hostileCount bomberCount
                          hostileBomberCount formation w0 in
  map Drone.id (friendlyDrones w)
  = labels "F-" 0 friendlyCount ++ labels "B-" 0 bomberCount
  /\ map Drone.id (hostileDrones w)
     = labels "H-" 0 hostileCount ++ labels "HB-" 0 hostileBomberCount.
Proof.
  cbv zeta. unfold initSimulation, divide, forEachIndex. cbv beta iota zeta.
  split.
  - rewrite (forIndices_keeps friendlyDrones);
      [|intros; apply spawnHostileBomber_arrays].
    rewrite (forIndices_keeps friendlyDrones);
      [|intros; apply spawnHostile_arrays].
    cbn [friendlyDrones set_hostileDrones].
    rewrite (forIndices_ids friendlyDrones _ "B-");
      [|intros; apply ids_spawnFriendlyBomber].
    rewrite (forIndices_ids friendlyDrones _ "F-");
      [|intros; apply ids_spawnFriendly].
    reflexivity.
  - rewrite (forIndices_ids hostileDrones _ "HB-");
      [|intros; apply spawnHostileBomber_arrays].
    rewrite (forIndices_ids hostileDrones _ "H-");
      [|intros; apply spawnHostile_arrays].
    reflexivity.
Qed.

Lemma evolves_friendly_ids p w w' :
  evolves p w w' ->
  map Drone.id (friendlyDrones w') = map Drone.id (friendlyDrones w).
Proof.
  intros [HF _ _ _ _].
  induction HF as [|d d' l l' Hd _ IH]; [reflexivity|].
  cbn. now rewrite (ch_id _ _ _ Hd), IH.
Qed.

Lemma NoDup_ids_filter (alive : Drone.t -> bool) l :
  NoDup (map Drone.id l) -> NoDup (map Drone.id (List.filter alive l)).
Proof.
  induction l as [|d l IH]; cbn; [auto|].
  intros Hnd. apply NoDup_cons in Hnd as [Hd Hnd].
  destruct (alive d); cbn; [|auto].
  apply NoDup_cons. split; [|auto].
  intros Hin. apply Hd.
  apply list_elem_of_In, in_map_iff in Hin as (x & E & Hx).
  apply list_elem_of_In, in_map_iff. exists x. split; [exact E|].
  apply filter_In in Hx. tauto.
Qed.

Lemma distinctIds_tick H c jam f w :
  sided w -> friendliesAlive w ->
  distinctIds w -> distinctIds (updateSimulation H c jam f w).
Proof.
  intros Hs Ha [DF DH].
  destruct (tick_passes H c jam f w Hs Ha) as (mid & Hev & EF & EH & _).
  split.
  - rewrite EF. apply NoDup_ids_filter.
    now rewrite (evolves_friendly_ids _ _ _ Hev).
  - rewrite EH. apply NoDup_ids_filter.
    now rewrite (evolves_hostile_ids _ _ _ Hev).
Qed.

Lemma distinctIds_run H formation flags : forall w,
  sided w -> friendliesAlive w ->
  distinctIds w -> distinctIds (run H formation flags w).
Proof.
  induction flags as [|[c jam] flags IH]; intros w Hs Ha Hd; [exact Hd|].
  cbn [run].
  destruct (tick_step H c jam formation w Hs Ha) as (Hs1 & Hal1 & _).
  apply IH; [exact Hs1 | exact (proj1 Hal1) |].
  now apply distinctIds_tick.
Qed.

(** X1.  In every state the engine reaches, the drones of each array bear
    different ids: an id names one drone, and the comparison of ids in
    [Drone.targets] is the comparison of the referents. *)
Lemma ids_name_drones H selectedMap friendlyCount hostileCount bomberCount
      hostileBomberCount spawnFormation formation flags w0 :
  distinctIds
    (run H formation flags
         (initSimulation H selectedMap friendlyCount hostileCount bomberCount
                         hostileBomberCount spawnFormation w0)).
Proof.
  destruct (initSimulation_sound H selectedMap friendlyCount hostileCount
              bomberCount hostileBomberCount spawnFormation w0)
    as (Hs & Hal & _).
  apply distinctIds_run; [exact Hs | exact (proj1 Hal) |].
  destruct (initSimulation_ids H selectedMap friendlyCount hostileCount
              bomberCount hostileBomberCount spawnFormation w0) as [EF EH].
  split.
  - rewrite EF. apply NoDup_two_prefixes. exact label_friendly.
  - rewrite EH. apply NoDup_two_prefixes. exact label_hostile.
Qed.

(** * Further properties of the engine *)

(** ** The scans *)

Section Scan.
Context {A : Type}.
Variable lt : Q -> Q -> Prop.
Variable better : Q -> option Q -> bool.
Variable val : A -> Q.
Hypothesis better_none : forall x, better x None = true.
Hypothesis better_some : forall x v, better x (Some v) = true <-> lt x v.
Hypothesis lt_trans : forall x y z, lt x y -> lt y z -> lt x z.
Hypothesis lt_cotrans : forall x y z, lt x z -> lt x y \/ lt y z.
Hypothesis lt_irrefl : forall x, ~ lt x x.

Lemma scanned_step pre a best :
  scanned lt val pre best ->
  scanned lt val (pre ++ [a])
          (if better (val a) (snd best) then (Some (length pre), Some (val a))
           else best).
Proof.
  destruct best as [[k|] [v|]]; cbn [snd scanned]; try tauto.
  - intros ((a0 & Ha0 & Ev) & Hall & Hfirst).
    assert (Hk : (k < length pre)%nat) by (eapply lookup_lt_Some; eauto).
    destruct (better (val a) (Some v)) eqn:E.
    + apply better_some in E. split; [|split].
      * exists a. split; [|reflexivity].
        rewrite lookup_app_r by lia. now rewrite Nat.sub_diag.
      * intros k' a' Hk'. apply lookup_app_Some in Hk' as [Hk'|[_ Hk']].
        -- intros Hlt. apply (Hall _ _ Hk'). eauto.
        -- destruct (k' - length pre)%nat; [|discriminate].
           injection Hk' as <-. apply lt_irrefl.
      * intros k' a' Hk' Hlt.
        apply lookup_app_Some in Hk' as [Hk'|[Hge _]]; [|lia].
        destruct (lt_cotrans _ (val a') _ E) as [?|Hc]; [assumption|].
        now apply Hall in Hk'.
    + assert (Hn : ~ lt (val a) v).
      { intros Hlt. apply better_some in Hlt. congruence. }
      split; [|split].
      * exists a0. split; [|exact Ev]. now apply lookup_app_l_Some.
      * intros k' a' Hk'. apply lookup_app_Some in Hk' as [Hk'|[_ Hk']].
        -- eauto.
        -- destruct (k' - length pre)%nat; [|discriminate].
           now injection Hk' as <-.
      * intros k' a' Hk' Hlt.
        apply lookup_app_Some in Hk' as [Hk'|[Hge _]]; [eauto | lia].
  - intros ->. rewrite better_none. cbn. split; [|split].
    + exists a. split; reflexivity.
    + intros [|k'] a'; [|discriminate]. cbn. intros [= <-]. apply lt_irrefl.
    + intros k' a' _ Hlt. lia.
Qed.

Lemma scanned_scanFrom l : forall pre best,
  scanned lt val pre best ->
  scanned lt val (pre ++ l) (scanFrom better val (length pre) l best).
Proof.
  induction l as [|a l IH]; intros pre best Hs; cbn [scanFrom].
  - now rewrite app_nil_r.
  - replace (pre ++ a :: l) with ((pre ++ [a]) ++ l) by now rewrite <- app_assoc.
    replace (S (length pre)) with (length (pre ++ [a]))
      by (rewrite length_app; cbn; lia).
    apply IH. now apply scanned_step.
Qed.

Lemma scanned_scan l : scanned lt val l (scanFrom better val 0 l (None, None)).
Proof. apply (scanned_scanFrom l [] (None, None)). reflexivity. Qed.
End Scan.

Lemma nearestFrom_scan {A : Type} H (pos : A -> Point.t) me l : forall k best,
  nearestFrom H pos me k l best
  = scanFrom ltMin (fun a => calculateDistance H me (pos a)) k l best.
Proof. induction l as [|a l IH]; intros k best; cbn; [reflexivity | apply IH]. Qed.

Lemma selectFrom_scan H w this c hs : forall k best,
  selectFrom H w this c k hs best
  = scanFrom gtMax (fun h => calculateThreatScore H w this h c) k hs best.
Proof. induction hs as [|a l IH]; intros k best; cbn; [reflexivity | apply IH]. Qed.

Lemma Qlt_cotrans (x y z : Q) : x < z -> x < y \/ y < z.
Proof. intros Hxz. destruct (Qlt_le_dec x y); [now left | right; lra]. Qed.

(** X2.  The scan of the hostile logic finds the first nearest element of
    the array and its distance: no element is nearer, and every element
    before it is farther.  It finds nothing only in an empty array. *)
Theorem nearest_first_nearest {A : Type} (H : Host) (pos : A -> Point.t)
        (me : Drone.t) (l : list A) :
  match nearest H pos me l with
  | (Some k, Some d) =>
      (exists a, l !! k = Some a /\ d = calculateDistance H me (pos a))
      /\ (forall k' a', l !! k' = Some a' ->
                        d <= calculateDistance H me (pos a'))
      /\ (forall k' a', l !! k' = Some a' -> (k' < k)%nat ->
                        d < calculateDistance H me (pos a'))
  | (None, None) => l = []
  | _ => False
  end.
Proof.
  unfold nearest. rewrite nearestFrom_scan.
  pose proof (scanned_scan Qlt ltMin (fun a => calculateDistance H me (pos a))
                (fun _ => eq_refl)) as Hs.
  specialize (Hs (fun x v => Qltb_lt x v) Qlt_trans Qlt_cotrans Qlt_irrefl l).
  destruct (scanFrom _ _ _ _ _) as [[k|] [d|]]; cbn in Hs; try exact Hs.
  destruct Hs as (Ha & Hall & Hfirst). split; [exact Ha|]. split; [|exact Hfirst].
  intros k' a' Hk'. apply Qnot_lt_le. eauto.
Qed.

(** X3.  The target selection finds the first hostile drone of greatest
    threat score: no hostile drone scores more, and every one before it
    scores less.  It finds nothing only when there is no hostile drone. *)
Theorem selectTarget_first_greatest (H : Host) (w : SimState) (this : DroneRef)
        (hasCommunication : bool) :
  let score h := calculateThreatScore H w this h hasCommunication in
  match selectTarget H w this hasCommunication with
  | Some j =>
      exists h, hostileDrones w !! j = Some h
      /\ (forall k h', hostileDrones w !! k = Some h' -> score h' <= score h)
      /\ (forall k h', hostileDrones w !! k = Some h' -> (k < j)%nat ->
                       score h' < score h)
  | None => hostileDrones w = []
  end.
Proof.
  cbv zeta. unfold selectTarget. rewrite selectFrom_scan.
  pose proof (scanned_scan (fun x v => v < x) gtMax
                (fun h => calculateThreatScore H w this h hasCommunication)
                (fun _ => eq_refl)) as Hs.
  specialize (Hs (fun x v => Qltb_lt v x)).
  specialize (Hs (fun x y z Hxy Hyz => Qlt_trans _ _ _ Hyz Hxy)).
  specialize (Hs (fun x y z Hxz =>
                    match Qlt_cotrans z y x Hxz with
                    | or_introl a => or_intror a
                    | or_intror b => or_introl b
                    end)).
  specialize (Hs Qlt_irrefl (hostileDrones w)).
  destruct (scanFrom _ _ _ _ _) as [[k|] [d|]]; cbn in Hs |- *; try tauto.
  destruct Hs as ((h & Hh & ->) & Hall & Hfirst).
  exists h. split; [exact Hh|]. split; [|exact Hfirst].
  intros k' h' Hk'. apply Qnot_lt_le. eauto.
Qed.

(** ** The threat assessment *)

Lemma minLe_le m r : minLe m r = true <-> exists v, m = Some v /\ v <= r.
Proof.
  destruct m as [v|]; cbn.
  - rewrite Qleb_le. split; [eauto | now intros (? & [= <-] & ?)].
  - split; [discriminate | now intros (? & ? & _)].
Qed.

(** The running minimum of [isCriticalThreat]. *)
Lemma minDist_fold H hostile (l : list Asset.t) : forall m,
  let m' :=
    fold_left (fun (minDist : option Q) asset =>
                 let d := calculateDistance H hostile (Asset.pos asset) in
                 if ltMin d minDist then Some d else minDist) l m in
  (forall r, minLe m' r = true <->
             minLe m r = true
             \/ exists a, In a l /\ calculateDistance H hostile (Asset.pos a) <= r).
Proof.
  induction l as [|a l IH]; intros m; cbn [fold_left].
  - intros r. split; [now left | intros [?|(a & [] & _)]; assumption].
  - cbv zeta in *. intros r. rewrite IH. clear IH.
    set (d := calculateDistance H hostile (Asset.pos a)).
    split.
    + intros [Hm|(a' & Ha' & Hd)].
      * destruct (ltMin d m) eqn:E.
        -- right. exists a. split; [now left|]. cbn in Hm. now apply Qleb_le.
        -- now left.
      * right. exists a'. split; [now right | exact Hd].
    + intros [Hm|(a' & [<-|Ha'] & Hd)].
      * left. destruct (ltMin d m) eqn:E; [|exact Hm].
        destruct m as [v|]; [|discriminate Hm]. cbn in *.
        apply Qltb_lt in E. apply Qleb_le in Hm. apply Qleb_le. lra.
      * left. destruct (ltMin d m) eqn:E; [cbn; now apply Qleb_le|].
        destruct m as [v|]; [|discriminate E]. cbn in *.
        apply Qltb_ge in E. apply Qleb_le. fold d in Hd. lra.
      * right. eauto.
Qed.

Lemma nearestAssetPriority_fst H hostile (l : list Asset.t) : forall m p,
  fst (fold_left
         (fun (acc : option Q * Q) asset =>
            let d := calculateDistance H hostile (Asset.pos asset) in
            if ltMin d (fst acc)
            then (Some d,
                  if Qeq_bool (Asset.priority asset) 0 then 5
                  else Asset.priority asset)
            else acc) l (m, p))
  = fold_left (fun (minDist : option Q) asset =>
                 let d := calculateDistance H hostile (Asset.pos asset) in
                 if ltMin d minDist then Some d else minDist) l m.
Proof.
  induction l as [|a l IH]; intros m p; cbn [fold_left]; [reflexivity|].
  cbv zeta. cbn [fst]. destruct (ltMin _ m); apply IH.
Qed.

Lemma nearestAssetPriority_snd H hostile (l : list Asset.t) : forall pre best acc,
  snd best = fst acc ->
  snd acc = match fst best with
            | Some k => priorityOr5 (default Asset.nowhere (pre !! k))
            | None => 5
            end ->
  match fst best with Some k => (k < length pre)%nat | None => True end ->
  let best' := nearestFrom H Asset.pos hostile (length pre) l best in
  let acc' :=
    fold_left
      (fun (acc : option Q * Q) asset =>
         let d := calculateDistance H hostile (Asset.pos asset) in
         if ltMin d (fst acc)
         then (Some d,
               if Qeq_bool (Asset.priority asset) 0 then 5
               else Asset.priority asset)
         else acc) l acc in
  snd acc' = match fst best' with
             | Some k => priorityOr5 (default Asset.nowhere ((pre ++ l) !! k))
             | None => 5
             end.
Proof.
  induction l as [|a l IH]; intros pre best acc E P B; cbv zeta in *;
    cbn [fold_left nearestFrom].
  - rewrite app_nil_r. exact P.
  - replace (pre ++ a :: l) with ((pre ++ [a]) ++ l) by now rewrite <- app_assoc.
    replace (S (length pre)) with (length (pre ++ [a]))
      by (rewrite length_app; cbn; lia).
    rewrite <- E.
    destruct (ltMin _ (snd best)).
    + apply IH; cbn [fst snd].
      * reflexivity.
      * rewrite lookup_app_r by lia. now rewrite Nat.sub_diag.
      * rewrite length_app. cbn. lia.
    + apply IH.
      * exact E.
      * rewrite P. destruct (fst best) as [k|]; [|reflexivity].
        now rewrite lookup_app_l by exact B.
      * destruct (fst best) as [k|]; [|exact I].
        rewrite length_app. cbn. lia.
Qed.

Lemma isCriticalThreat_iff H w hostile :
  isCriticalThreat H w hostile = true <->
  exists a, In a (groundAssets w)
            /\ calculateDistance H hostile (Asset.pos a) <= THREATENING_RANGE.
Proof.
  unfold isCriticalThreat.
  rewrite (minDist_fold H hostile (groundAssets w) None THREATENING_RANGE).
  split; [intros [E|E]; [discriminate E | exact E] | now right].
Qed.

(** X4.  A hostile drone is a critical threat exactly when some ground
    asset lies within the threatening range of it; the threat score grants
    its threatening-range term in exactly those cases, and the priority in
    that term is that of the first nearest asset, with 0 read as 5. *)
Theorem critical_threat_agrees (H : Host) (w : SimState) (hostile : Drone.t) :
  let scan := nearestAssetPriority H hostile (groundAssets w) in
  (isCriticalThreat H w hostile = true <->
   exists a, In a (groundAssets w)
             /\ calculateDistance H hostile (Asset.pos a) <= THREATENING_RANGE)
  /\ minLe (fst scan) THREATENING_RANGE = isCriticalThreat H w hostile
  /\ snd scan
     = match fst (nearest H Asset.pos hostile (groundAssets w)) with
       | Some k => priorityOr5 (assetAt w k)
       | None => 5
       end.
Proof.
  cbv zeta. split; [|split].
  - apply isCriticalThreat_iff.
  - unfold nearestAssetPriority, isCriticalThreat.
    now rewrite nearestAssetPriority_fst.
  - unfold nearestAssetPriority, nearest, assetAt.
    exact (nearestAssetPriority_snd H hostile (groundAssets w) [] (None, None)
             (None, 5) eq_refl eq_refl I).
Qed.

Lemma reduce_fold {A : Type} H (pos : A -> Point.t) me (l : list A) : forall c,
  let r := fold_left
             (fun closest a =>
                if Qltb (calculateDistance H me (pos a))
                        (calculateDistance H me (pos closest))
                then a else closest) l c in
  (r = c \/ In r l)
  /\ calculateDistance H me (pos r) <= calculateDistance H me (pos c)
  /\ forall a, In a l ->
               calculateDistance H me (pos r) <= calculateDistance H me (pos a).
Proof.
  induction l as [|a l IH]; intros c; cbv zeta; cbn [fold_left].
  - split; [now left|]. split; [apply Qle_refl | intros a []].
  - destruct (Qltb _ _) eqn:E.
    + apply Qltb_lt in E. destruct (IH a) as (Hin & Hle & Hall).
      split; [right; destruct Hin as [->|?]; [now left | now right]|].
      split; [lra|]. intros a' [<-|Ha']; [exact Hle | now apply Hall].
    + apply Qltb_ge in E. destruct (IH c) as (Hin & Hle & Hall).
      split; [destruct Hin as [->|?]; [now left | right; now right]|].
      split; [exact Hle|]. intros a' [<-|Ha']; [lra | now apply Hall].
Qed.

(** [reduce] without an initial value, as the autonomous mode uses it:
    nothing for an empty array, otherwise a nearest element. *)
Lemma nearestByReduce_nearest {A : Type} (H : Host) (pos : A -> Point.t)
        (me : Drone.t) (l : list A) :
  match nearestByReduce H pos me l with
  | Some r =>
      In r l
      /\ forall a, In a l ->
                   calculateDistance H me (pos r) <= calculateDistance H me (pos a)
  | None => l = []
  end.
Proof.
  destruct l as [|c l]; [reflexivity|]. cbn [nearestByReduce].
  destruct (reduce_fold H pos me l c) as (Hin & Hle & Hall).
  split.
  - destruct Hin as [->|?]; [now left | now right].
  - intros a [<-|Ha]; [exact Hle | now apply Hall].
Qed.

(** ** The formations *)

Lemma spearheadRow_sum fuel : forall remaining r,
  (remaining < fuel)%nat ->
  let '(remaining', r') := spearheadRow fuel remaining r in
  (2 * remaining + r * (r + 1) = 2 * remaining' + r' * (r' + 1))%nat
  /\ (remaining' <= r')%nat /\ (r <= r')%nat.
Proof.
  induction fuel as [|fuel IH]; intros remaining r Hf; [lia|].
  cbn [spearheadRow]. destruct (r + 1 <=? remaining)%nat eqn:E.
  - apply Nat.leb_le in E.
    specialize (IH (remaining - (r + 1))%nat (r + 1)%nat).
    destruct (spearheadRow fuel _ _) as [remaining' r'].
    destruct IH as (E1 & E2 & E3); [lia|]. nia.
  - apply Nat.leb_gt in E. lia.
Qed.

Lemma spearheadRow_fuel fuel extra : forall remaining r,
  (remaining < fuel)%nat ->
  spearheadRow (fuel + extra) remaining r = spearheadRow fuel remaining r.
Proof.
  induction fuel as [|fuel IH]; intros remaining r Hf; [lia|].
  cbn [Nat.add spearheadRow]. destruct (r + 1 <=? remaining)%nat eqn:E; [|reflexivity].
  apply Nat.leb_le in E. apply IH. lia.
Qed.

(** X5.  The [while] loop of the spearhead case ends, within the rounds the
    model allows it, on the row [r] and the place [remaining] of the drone
    in a triangle of rows of 1, 2, 3, ... drones: [index] is
    [r (r + 1) / 2 + remaining] with [remaining <= r]. More rounds change
    nothing. *)
Theorem spearhead_row (index : nat) :
  let '(remaining, r) := spearheadRow (S index) index 0 in
  (2 * index = r * (r + 1) + 2 * remaining)%nat
  /\ (remaining <= r)%nat
  /\ forall extra, spearheadRow (S index + extra) index 0 = (remaining, r).
Proof.
  pose proof (spearheadRow_sum (S index) index 0) as Hs.
  pose proof (fun extra => spearheadRow_fuel (S index) extra index 0) as Hf.
  destruct (spearheadRow (S index) index 0) as [remaining r].
  destruct Hs as (E1 & E2 & _); [lia|].
  split; [lia|]. split; [exact E2|].
  intros extra. apply Hf. lia.
Qed.

Lemma floorQ_half (z : Z) : floorQ (inject_Z z / 2) = inject_Z (z / 2).
Proof.
  unfold floorQ. f_equal. unfold Qfloor, Qdiv, Qmult, Qinv, inject_Z.
  cbn [Qnum Qden]. cbn. now rewrite Z.mul_1_r.
Qed.

Lemma ofNat_plus_1 n : ofNat n + 1 = inject_Z (Z.of_nat n + 1).
Proof.
  unfold ofNat, inject_Z, Qplus. cbn [Qnum Qden].
  now rewrite Z.mul_1_r, Pos.mul_1_r.
Qed.

Lemma ofNat_inj n m : ofNat n == ofNat m -> n = m.
Proof.
  unfold ofNat. intros E. apply (proj1 (inject_Z_injective _ _)) in E. lia.
Qed.

Lemma same_half (i j : nat) (c : Z) :
  (i mod 2 = j mod 2)%nat ->
  ((Z.of_nat i + c) / 2 = (Z.of_nat j + c) / 2)%Z -> i = j.
Proof.
  intros Hp Hh. apply (f_equal Z.of_nat) in Hp.
  rewrite !Nat2Z.inj_mod in Hp. change (Z.of_nat 2) with 2%Z in Hp.
  apply Nat2Z.inj. revert Hp Hh.
  generalize (Z.of_nat i) as a. generalize (Z.of_nat j) as b. intros b a Hp Hh.
  Z.to_euclidean_division_equations. lia.
Qed.

Lemma inject_Z_le_1 z : (1 <= z)%Z -> 1 <= inject_Z z.
Proof. intros Hz. change 1 with (inject_Z 1). now rewrite <- Zle_Qle. Qed.

(** X6.  No two positions of a formation other than the circle share a
    slot: the offsets of two different indices differ. *)
Theorem formation_slots_distinct (formation : FormationType)
        (i j len : nat) (w : SimState) :
  formation <> circle -> i <> j ->
  let '(xi, yi) := fst (formationOffset formation i len w) in
  let '(xj, yj) := fst (formationOffset formation j len w) in
  ~ (xi == xj /\ yi == yj).
Proof.
  intros Hf Hij. destruct formation; [congruence| | | |].
  - (* arrowhead *)
    unfold formationOffset, divide.
    assert (Hrow : forall k, k <> 0%nat ->
               (1 <= (Z.of_nat k + 1) / 2)%Z).
    { intros k Hk. apply Z.div_le_lower_bound; lia. }
    destruct (Nat.eqb_spec i 0) as [->|Hi], (Nat.eqb_spec j 0) as [->|Hj];
      cbn [fst]; rewrite ?ofNat_plus_1, ?floorQ_half.
    + congruence.
    + pose proof (inject_Z_le_1 _ (Hrow j Hj)). intros [_ E]. lra.
    + pose proof (inject_Z_le_1 _ (Hrow i Hi)). intros [_ E]. lra.
    + pose proof (inject_Z_le_1 _ (Hrow i Hi)) as Ri.
      pose proof (inject_Z_le_1 _ (Hrow j Hj)) as Rj.
      intros [Ex Ey].
      assert (Er : inject_Z ((Z.of_nat i + 1) / 2) == inject_Z ((Z.of_nat j + 1) / 2))
        by lra.
      apply (proj1 (inject_Z_injective _ _)) in Er.
      destruct (Nat.eqb_spec (i mod 2) 0) as [Pi|Pi],
               (Nat.eqb_spec (j mod 2) 0) as [Pj|Pj]; try lra.
      * apply Hij.
        eapply same_half; [|exact Er]. congruence.
      * apply Hij.
        eapply same_half; [|exact Er].
        pose proof (Nat.mod_upper_bound i 2). pose proof (Nat.mod_upper_bound j 2).
        lia.
  - (* spearhead *)
    unfold formationOffset, divide.
    pose proof (spearheadRow_sum (S i) i 0) as Si.
    pose proof (spearheadRow_sum (S j) j 0) as Sj.
    destruct (spearheadRow (S i) i 0) as [remi ri].
    destruct (spearheadRow (S j) j 0) as [remj rj].
    destruct Si as (Si & _); [lia|]. destruct Sj as (Sj & _); [lia|].
    cbn [fst]. intros [Ex Ey].
    assert (Er : ofNat ri == ofNat rj) by lra.
    assert (Em : ofNat remi == ofNat remj) by (rewrite Er in Ex; lra).
    apply ofNat_inj in Er, Em. subst. apply Hij. lia.
  - (* double_file *)
    unfold formationOffset, divide. cbn [fst]. unfold ofNat at 1 3.
    rewrite !floorQ_half. intros [Ex Ey].
    assert (Er : inject_Z (Z.of_nat i / 2) == inject_Z (Z.of_nat j / 2)) by lra.
    apply (proj1 (inject_Z_injective _ _)) in Er.
    destruct (Nat.eqb_spec (i mod 2) 0) as [Pi|Pi],
             (Nat.eqb_spec (j mod 2) 0) as [Pj|Pj]; try lra.
    + apply Hij.
      eapply (same_half i j 0); [congruence|]. now rewrite !Z.add_0_r.
    + apply Hij.
      eapply (same_half i j 0); [|now rewrite !Z.add_0_r].
      pose proof (Nat.mod_upper_bound i 2). pose proof (Nat.mod_upper_bound j 2).
      lia.
  - (* extended_line *)
    unfold formationOffset, divide. cbn [fst]. intros [Ex _].
    apply Hij. apply ofNat_inj. lra.
Qed.

Lemma formation_slots_distinct_witness :
  (let '(xi, yi) := fst (formationOffset arrowhead 1 5 emptySim) in
   let '(xj, yj) := fst (formationOffset arrowhead 2 5 emptySim) in
   ~ (xi == xj /\ yi == yj))
  /\ (let '(xi, yi) := fst (formationOffset spearhead 4 5 emptySim) in
      let '(xj, yj) := fst (formationOffset spearhead 5 5 emptySim) in
      ~ (xi == xj /\ yi == yj)).
Proof.
  split.
  - apply (formation_slots_distinct arrowhead 1 2 5 emptySim);
      [discriminate | lia].
  - apply (formation_slots_distinct spearhead 4 5 5 emptySim);
      [discriminate | lia].
Defined.

(** ** [update] as a sequence of writes *)

Ltac wr_step :=
  lazymatch goal with
  | |- writesOf _ _ (set_clockReads _ _) => apply wo_clock
  | |- writesOf _ _ (set_randomReads _ _) => apply wo_random
  | |- writesOf _ _ (addParticle _ _) => apply wo_particle
  | |- writesOf _ _ (logEvent _ _) => apply wo_log
  | |- writesOf _ _ (modify _ _ _) =>
      first [ apply wo_self; [constructor|]
            | apply wo_other; [constructor|] ]
  | |- writesOf _ _ (modifyAsset _ _ _) => apply wo_asset
  | |- writesOf _ _ (if ?c then _ else _) => destruct c
  | |- writesOf _ _ (match ?o with _ => _ end) => destruct o
  | |- writesOf _ _ _ => assumption
  end.

Ltac wr := repeat wr_step.

Section Writes.
Variable H : Host.

Lemma writes_hitParticle this target color w0 w :
  writesOf this w0 w -> writesOf this w0 (hitParticle H target color w).
Proof.
  intros Hw. unfold hitParticle, readRandom. cbv beta iota zeta. wr.
Qed.

Lemma writes_fireAt this target color damage w0 w :
  writesOf this w0 w -> writesOf this w0 (fireAt H this target color damage w).
Proof.
  intros Hw. unfold fireAt, readClock. cbv beta iota zeta.
  destruct (_ <? _)%Z; [wr|].
  do 2 apply writes_hitParticle. unfold damageTarget. destruct target; wr.
Qed.

Lemma writes_maintainDefensivePosition this w0 w :
  writesOf this w0 w -> writesOf this w0 (maintainDefensivePosition H this w).
Proof.
  intros Hw. unfold maintainDefensivePosition, divide. cbv beta iota zeta. wr.
Qed.

Lemma writes_formationOffset this formation index len w0 w :
  writesOf this w0 w ->
  writesOf this w0 (snd (formationOffset formation index len w)).
Proof.
  intros Hw. unfold formationOffset, divide.
  destruct formation; cbv beta iota zeta; cbn [snd]; try assumption.
  - destruct (index =? 0)%nat; cbn [snd]; wr.
  - destruct (spearheadRow _ _ _). cbn [snd]. wr.
  - wr.
  - wr.
Qed.

Lemma writes_applySeparation this dist w0 w :
  writesOf this w0 w -> writesOf this w0 (applySeparation H this dist w).
Proof.
  intros Hw. unfold applySeparation.
  destruct (separationFrom _ _ _ _ _ _) as [[sx sy] c]. wr.
Qed.

Lemma writes_patrolPosition this formation w0 w :
  writesOf this w0 w -> writesOf this w0 (patrolPosition H this formation w).
Proof.
  intros Hw. unfold patrolPosition.
  destruct (length (groundAssets w) =? 0)%nat; [assumption|].
  unfold divide. cbv beta iota zeta.
  set (w1 := logEvent _ (logEvent _ w)).
  assert (Hw1 : writesOf this w0 w1) by (subst w1; wr).
  clearbody w1.
  destruct (indexOf _ _) as [index|]; [|assumption].
  apply writes_applySeparation.
  destruct formation; [wr| | | |].
  all: match goal with
       | |- context [formationOffset ?f ?i ?n ?s] =>
           pose proof (writes_formationOffset this f i n _ _ Hw1) as Ho;
           destruct (formationOffset f i n s) as [[ox oy] w2]; cbn [snd] in Ho
       end; wr.
Qed.

Lemma writes_autonomousMode this w0 w :
  writesOf this w0 w -> writesOf this w0 (autonomousMode H this w).
Proof.
  intros Hw. unfold autonomousMode, readRandom. cbv beta iota zeta. wr.
Qed.

Lemma writes_rescueLoop this w0 w :
  writesOf this w0 w -> writesOf this w0 (fst (rescueLoop H this w)).
Proof.
  intros Hw. unfold rescueLoop, forEachIndex.
  apply (forIndices_invariant (fun st => writesOf this w0 (fst st))); [exact Hw|].
  intros k [s b] _ Hs. cbn [fst] in Hs. unfold rescueStep.
  destruct (negb _); [|assumption].
  destruct (Drone.lostCoords _); [|assumption].
  destruct (Qltb _ _); cbn [fst]; [wr|].
  destruct (negb b); cbn [fst]; wr.
Qed.

Lemma writes_markLost this w0 w :
  writesOf this w0 w -> writesOf this w0 (markLost H this w).
Proof.
  intros Hw. unfold markLost, divide. cbv beta iota zeta. wr.
Qed.

Lemma writes_jamLoop this w0 w :
  writesOf this w0 w -> writesOf this w0 (jamLoop H this w).
Proof.
  intros Hw. unfold jamLoop, forEachIndex.
  apply (forIndices_invariant (fun s => writesOf this w0 s)); [exact Hw|].
  intros j s _ Hs. unfold jamStep, readRandom. cbv beta iota zeta. wr.
Qed.

Lemma writes_strike this j w0 w :
  writesOf this w0 w -> writesOf this w0 (strike H this j w).
Proof.
  intros Hw. unfold strike. destruct (Qleb _ _); [|wr].
  now apply writes_fireAt.
Qed.

Lemma writes_engagement this hasCommunication formation w0 w :
  writesOf this w0 w ->
  writesOf this w0 (engagement H this hasCommunication formation w).
Proof.
  intros Hw. unfold engagement.
  destruct (selectTarget _ _ _ _) as [j|].
  - unfold engageTarget. destruct (isCriticalThreat _ _ _).
    + apply writes_strike. wr.
    + unfold shouldEngage, divide. cbv beta iota zeta.
      destruct (_ || _).
      * apply writes_strike. wr.
      * apply writes_maintainDefensivePosition. wr.
  - apply writes_patrolPosition. wr.
Qed.

Lemma writes_hostileLogic this w0 w :
  writesOf this w0 w -> writesOf this w0 (hostileLogic H this w).
Proof.
  intros Hw. unfold hostileLogic.
  destruct (nearest _ _ _ (groundAssets w)) as [na mad].
  destruct (nearest _ _ _ (friendlyDrones w)) as [nf mfd].
  unfold hostileMovement.
  assert (Hc : writesOf this w0 (hostileCombat H this (deref w this)
                            (hostileSpeed (deref w this)) na mad nf mfd w)).
  { unfold hostileCombat. destruct (negb _); [|assumption].
    destruct (inRange nf _ _); [now apply writes_fireAt|].
    destruct (inRange na _ _); [now apply writes_fireAt|]. wr. }
  wr.
Qed.

Lemma writes_update this communication jammingEnabled formation w0 w :
  writesOf this w0 w ->
  writesOf this w0 (update H this communication jammingEnabled formation w).
Proof.
  intros Hw. unfold update.
  set (w1 := modify _ _ w).
  assert (Hw1 : writesOf this w0 w1) by (subst w1; wr). clearbody w1.
  destruct (Drone.isFriendly _); [|now apply writes_hostileLogic].
  destruct (negb communication); [now apply writes_autonomousMode|].
  pose proof (writes_rescueLoop this w0 w1 Hw1) as Hr.
  destruct (rescueLoop _ _ _) as [w2 performingRescue]. cbn [fst] in Hr.
  pose proof (writes_markLost this w0 w2 Hr) as Hm.
  destruct performingRescue; [assumption|].
  apply writes_engagement.
  destruct jammingEnabled; [now apply writes_jamLoop | assumption].
Qed.

(** The two passes of a tick change the state by writes of [update] only. *)
Lemma writes_updatePasses communication jammingEnabled formation w :
  writes w (updatePasses H communication jammingEnabled formation w).
Proof.
  unfold updatePasses, updateHostiles, updateFriendlies, forEachIndex.
  apply (forIndices_invariant (fun s => writes w s)).
  - apply (forIndices_invariant (fun s => writes w s)); [constructor|].
    intros i s _ Hs. apply (wr_then w (Friendly i) s); [exact Hs|].
    apply writes_update. wr. constructor.
  - intros j s _ Hs. destruct (Qltb _ _); [|assumption].
    apply (wr_then w (Hostile j) s); [exact Hs|].
    apply writes_update. wr. constructor.
Qed.
End Writes.

(** ** Explosions and the ledger of the partition *)

Lemma explosionParticles_burst H n x y color scale : forall w,
  let w' := explosionParticles H n x y color scale w in
  (exists ps, particles w' = particles w ++ ps
              /\ length ps = n /\ Forall (debris x y color) ps)
  /\ randomReads w' = (randomReads w + 4 * n)%nat
  /\ sameButParticles w w'.
Proof.
  induction n as [|n IH]; intros w; cbv zeta; cbn [explosionParticles].
  - split; [exists []; rewrite app_nil_r; auto|].
    split; [lia|]. repeat split.
  - unfold readRandom. cbv beta iota zeta.
    match goal with |- context [explosionParticles H n x y color scale ?s] =>
      destruct (IH s) as ((ps & Ep & El & Ef) & Er & (Ea & Ed & Efl & Ec)) end.
    split; [|split].
    + eexists (_ :: ps). rewrite Ep. cbn [particles addParticle set_particles].
      rewrite <- app_assoc. split; [reflexivity|]. split; [cbn; lia|].
      constructor; [|exact Ef]. repeat split.
    + rewrite Er. cbn. lia.
    + destruct Ea as (?&?&?&?). repeat split; assumption.
Qed.

Lemma createExplosion_frame H x y color scale w :
  sameButParticles w (createExplosion H x y color scale w).
Proof. apply explosionParticles_burst. Qed.

Lemma createExplosion_length H x y color scale w :
  length (particles (createExplosion H x y color scale w))
  = (length (particles w) + Z.to_nat (Qceiling (20 * scale)))%nat.
Proof.
  destruct (explosionParticles_burst H (Z.to_nat (Qceiling (20 * scale)))
              x y color scale w) as ((ps & E & El & _) & _).
  unfold createExplosion. rewrite E, length_app, El. reflexivity.
Qed.

(** X7.  An explosion of scale [scale] pushes [ceil (20 * scale)]
    particles, all at the point of the blast and of the colour given, and
    draws four random numbers for each; the arrays, the destroyed assets,
    the friendly losses and the count of clock readings are as before. *)
Theorem createExplosion_burst (H : Host) (x y : Q) (color : string) (scale : Q)
        (w : SimState) :
  let n := Z.to_nat (Qceiling (20 * scale)) in
  let w' := createExplosion H x y color scale w in
  (exists ps, particles w' = particles w ++ ps
              /\ length ps = n /\ Forall (debris x y color) ps)
  /\ randomReads w' = (randomReads w + 4 * n)%nat
  /\ sameButParticles w w'.
Proof. apply explosionParticles_burst. Qed.


Section Ledger.
Variable H : Host.
Context {A : Type}.
Variable alive : A -> bool.
Variable dead : A -> SimState -> SimState.
Variable burst : nat.
Variable tally : A -> SimState -> SimState.
Hypothesis dead_particles :
  forall a w, length (particles (dead a w)) = (length (particles w) + burst)%nat.

Lemma ledger_particles (l : list A) : forall w,
  length (particles
            (fold_left (fun w d => if alive d then w else dead d w) l w))
  = (length (particles w) + burst * casualties alive l)%nat.
Proof.
  unfold casualties.
  induction l as [|a l IH]; intros w; cbn [fold_left List.filter]; [cbn; lia|].
  rewrite IH. destruct (alive a); cbn [negb length]; [lia|].
  rewrite dead_particles. lia.
Qed.
End Ledger.

Lemma fold_friendlyLosses H (l : list Drone.t) : forall w,
  let w' := fold_left
              (fun w d =>
                 if droneAlive d then w
                 else set_friendlyLosses (S (friendlyLosses w))
                        (createExplosion H (Drone.x d) (Drone.y d) "#3b82f6" 1 w))
              l w in
  friendlyLosses w' = (friendlyLosses w + casualties droneAlive l)%nat
  /\ destroyedAssets w' = destroyedAssets w.
Proof.
  unfold casualties.
  induction l as [|d l IH]; intros w; cbv zeta; cbn [fold_left List.filter].
  - split; [cbn; lia | reflexivity].
  - destruct (droneAlive d); cbn [negb]; [apply IH|].
    destruct (createExplosion_frame H (Drone.x d) (Drone.y d) "#3b82f6" 1 w)
      as (_ & Ed & Ef & _).
    revert Ed Ef.
    generalize (createExplosion H (Drone.x d) (Drone.y d) "#3b82f6" 1 w).
    intros s Ed Ef.
    destruct (IH (set_friendlyLosses (S (friendlyLosses w)) s)) as [E1 E2].
    cbv zeta in E1, E2. rewrite E1, E2.
    cbn [friendlyLosses destroyedAssets set_friendlyLosses length].
    split; [lia | exact Ed].
Qed.

Lemma fold_destroyedAssets H (l : list Asset.t) : forall w,
  let w' := fold_left
              (fun w a =>
                 if assetAlive a then w
                 else set_destroyedAssets (destroyedAssets w ++ [a])
                        (createExplosion H (Asset.x a) (Asset.y a) "#f59e0b" 2.5 w))
              l w in
  friendlyLosses w' = friendlyLosses w
  /\ destroyedAssets w'
     = destroyedAssets w ++ List.filter (fun a => negb (assetAlive a)) l.
Proof.
  induction l as [|a l IH]; intros w; cbv zeta; cbn [fold_left List.filter].
  - split; [reflexivity | now rewrite app_nil_r].
  - destruct (assetAlive a); cbn [negb]; [apply IH|].
    destruct (createExplosion_frame H (Asset.x a) (Asset.y a) "#f59e0b" 2.5 w)
      as (_ & Ed & Ef & _).
    revert Ed Ef.
    generalize (createExplosion H (Asset.x a) (Asset.y a) "#f59e0b" 2.5 w).
    intros s Ed Ef.
    destruct (IH (set_destroyedAssets (destroyedAssets w ++ [a]) s)) as [E1 E2].
    cbv zeta in E1, E2. rewrite E1, E2.
    cbn [friendlyLosses destroyedAssets set_destroyedAssets].
    split; [exact Ef | now rewrite <- app_assoc].
Qed.

Lemma fold_hostileBlasts H (l : list Drone.t) : forall w,
  let w' := fold_left
              (fun w d =>
                 if droneAlive d then w
                 else createExplosion H (Drone.x d) (Drone.y d) "#f97316" 1 w)
              l w in
  friendlyLosses w' = friendlyLosses w
  /\ destroyedAssets w' = destroyedAssets w.
Proof.
  induction l as [|d l IH]; intros w; cbv zeta; cbn [fold_left]; [auto|].
  destruct (droneAlive d); [apply IH|].
  destruct (createExplosion_frame H (Drone.x d) (Drone.y d) "#f97316" 1 w)
      as (_ & Ed & Ef & _).
  revert Ed Ef.
  generalize (createExplosion H (Drone.x d) (Drone.y d) "#f97316" 1 w).
  intros s Ed Ef.
  destruct (IH s) as [E1 E2].
  cbv zeta in E1, E2. rewrite E1, E2. auto.
Qed.

Lemma checkDeadFriendlies_fold H w :
  checkDeadFriendlies H w
  = set_friendlyDrones (List.filter droneAlive (friendlyDrones w))
      (fold_left
         (fun w d =>
            if droneAlive d then w
            else set_friendlyLosses (S (friendlyLosses w))
                   (createExplosion H (Drone.x d) (Drone.y d) "#3b82f6" 1 w))
         (friendlyDrones w) w).
Proof.
  unfold checkDeadFriendlies.
  now rewrite (partition_fold droneAlive
                 (fun d w => set_friendlyLosses (S (friendlyLosses w))
                               (createExplosion H (Drone.x d) (Drone.y d) "#3b82f6" 1 w))).
Qed.

Lemma checkDeadAssets_fold H w :
  checkDeadAssets H w
  = set_groundAssets (List.filter assetAlive (groundAssets w))
      (fold_left
         (fun w a =>
            if assetAlive a then w
            else set_destroyedAssets (destroyedAssets w ++ [a])
                   (createExplosion H (Asset.x a) (Asset.y a) "#f59e0b" 2.5 w))
         (groundAssets w) w).
Proof.
  unfold checkDeadAssets.
  now rewrite (partition_fold assetAlive
                 (fun a w => set_destroyedAssets (destroyedAssets w ++ [a])
                               (createExplosion H (Asset.x a) (Asset.y a) "#f59e0b" 2.5 w))).
Qed.

Lemma checkDeadHostiles_fold H w :
  checkDeadHostiles H w
  = set_hostileDrones (List.filter droneAlive (hostileDrones w))
      (fold_left
         (fun w d =>
            if droneAlive d then w
            else createExplosion H (Drone.x d) (Drone.y d) "#f97316" 1 w)
         (hostileDrones w) w).
Proof.
  unfold checkDeadHostiles.
  now rewrite (partition_fold droneAlive
                 (fun d w => createExplosion H (Drone.x d) (Drone.y d) "#f97316" 1 w)).
Qed.

Lemma particles_set_friendlyLosses n s :
  particles (set_friendlyLosses n s) = particles s.
Proof. reflexivity. Qed.

Lemma particles_set_destroyedAssets l s :
  particles (set_destroyedAssets l s) = particles s.
Proof. reflexivity. Qed.

Lemma burst_of_1 : Z.to_nat (Qceiling (20 * 1)) = 20%nat.
Proof. reflexivity. Qed.

Lemma burst_of_2_5 : Z.to_nat (Qceiling (20 * 2.5)) = 50%nat.
Proof. reflexivity. Qed.

Lemma checkDeadFriendlies_ledger H w :
  let w1 := checkDeadFriendlies H w in
  friendlyLosses w1
  = (friendlyLosses w + casualties droneAlive (friendlyDrones w))%nat
  /\ destroyedAssets w1 = destroyedAssets w
  /\ length (particles w1)
     = (length (particles w) + 20 * casualties droneAlive (friendlyDrones w))%nat.
Proof.
  cbv zeta. rewrite checkDeadFriendlies_fold.
  destruct (fold_friendlyLosses H (friendlyDrones w) w) as [E1 E2].
  split; [exact E1|]. split; [exact E2|].
  apply (ledger_particles droneAlive
           (fun d w => set_friendlyLosses (S (friendlyLosses w))
                         (createExplosion H (Drone.x d) (Drone.y d) "#3b82f6" 1 w)) 20).
  intros d s. rewrite particles_set_friendlyLosses.
  rewrite <- burst_of_1. apply createExplosion_length.
Qed.

Lemma checkDeadAssets_ledger H w :
  let w2 := checkDeadAssets H w in
  friendlyLosses w2 = friendlyLosses w
  /\ destroyedAssets w2
     = destroyedAssets w
       ++ List.filter (fun a => negb (assetAlive a)) (groundAssets w)
  /\ length (particles w2)
     = (length (particles w) + 50 * casualties assetAlive (groundAssets w))%nat.
Proof.
  cbv zeta. rewrite checkDeadAssets_fold.
  destruct (fold_destroyedAssets H (groundAssets w) w) as [E1 E2].
  split; [exact E1|]. split; [exact E2|].
  apply (ledger_particles assetAlive
           (fun a w => set_destroyedAssets (destroyedAssets w ++ [a])
                         (createExplosion H (Asset.x a) (Asset.y a) "#f59e0b" 2.5 w)) 50).
  intros a s. rewrite particles_set_destroyedAssets.
  rewrite <- burst_of_2_5. apply createExplosion_length.
Qed.

Lemma checkDeadHostiles_ledger H w :
  let w3 := checkDeadHostiles H w in
  friendlyLosses w3 = friendlyLosses w
  /\ destroyedAssets w3 = destroyedAssets w
  /\ length (particles w3)
     = (length (particles w) + 20 * casualties droneAlive (hostileDrones w))%nat.
Proof.
  cbv zeta. rewrite checkDeadHostiles_fold.
  destruct (fold_hostileBlasts H (hostileDrones w) w) as [E1 E2].
  split; [exact E1|]. split; [exact E2|].
  apply (ledger_particles droneAlive
           (fun d w => createExplosion H (Drone.x d) (Drone.y d) "#f97316" 1 w) 20).
  intros d s.
  rewrite <- burst_of_1. apply createExplosion_length.
Qed.

Lemma casualtyPartition_counters H w :
  let w' := casualtyPartition H w in
  friendlyLosses w'
  = (friendlyLosses w + casualties droneAlive (friendlyDrones w))%nat
  /\ destroyedAssets w'
     = destroyedAssets w
       ++ List.filter (fun a => negb (assetAlive a)) (groundAssets w).
Proof.
  cbv zeta. unfold casualtyPartition.
  destruct (checkDeadFriendlies_arrays H w) as (_ & _ & A1 & _).
  destruct (checkDeadFriendlies_ledger H w) as (L1a & L1b & _).
  destruct (checkDeadAssets_ledger H (checkDeadFriendlies H w)) as (L2a & L2b & _).
  destruct (checkDeadHostiles_ledger H (checkDeadAssets H (checkDeadFriendlies H w)))
    as (L3a & L3b & _).
  revert A1 L1a L1b L2a L2b L3a L3b.
  generalize (checkDeadHostiles H (checkDeadAssets H (checkDeadFriendlies H w))).
  generalize (checkDeadAssets H (checkDeadFriendlies H w)).
  generalize (checkDeadFriendlies H w).
  intros w1 w2 w3 A1 L1a L1b L2a L2b L3a L3b.
  rewrite L3a, L3b, L2a, L2b, L1a, L1b, A1. split; reflexivity.
Qed.

(** X8.  The ledger of the casualty partition: the friendly losses grow by
    the number of friendly drones removed, the assets removed are appended
    to [destroyedAssets] in the order of the array, and every drone removed
    leaves 20 particles, every asset 50. *)
Theorem casualtyPartition_ledger (H : Host) (w : SimState) :
  let w' := casualtyPartition H w in
  friendlyLosses w'
  = (friendlyLosses w + casualties droneAlive (friendlyDrones w))%nat
  /\ destroyedAssets w'
     = destroyedAssets w
       ++ List.filter (fun a => negb (assetAlive a)) (groundAssets w)
  /\ length (particles w')
     = (length (particles w)
        + 20 * casualties droneAlive (friendlyDrones w)
        + 50 * casualties assetAlive (groundAssets w)
        + 20 * casualties droneAlive (hostileDrones w))%nat.
Proof.
  cbv zeta. unfold casualtyPartition.
  destruct (checkDeadFriendlies_arrays H w) as (_ & H1 & A1 & _).
  destruct (checkDeadAssets_arrays H (checkDeadFriendlies H w)) as (_ & H2 & _ & _).
  destruct (checkDeadFriendlies_ledger H w) as (L1a & L1b & L1c).
  destruct (checkDeadAssets_ledger H (checkDeadFriendlies H w)) as (L2a & L2b & L2c).
  destruct (checkDeadHostiles_ledger H (checkDeadAssets H (checkDeadFriendlies H w)))
    as (L3a & L3b & L3c).
  revert H1 A1 H2 L1a L1b L1c L2a L2b L2c L3a L3b L3c.
  generalize (checkDeadHostiles H (checkDeadAssets H (checkDeadFriendlies H w))).
  generalize (checkDeadAssets H (checkDeadFriendlies H w)).
  generalize (checkDeadFriendlies H w).
  intros w1 w2 w3 H1 A1 H2 L1a L1b L1c L2a L2b L2c L3a L3b L3c.
  rewrite L3a, L3b, L3c, L2a, L2b, L2c, L1a, L1b, L1c, H2, H1, A1.
  split; [reflexivity|]. split; [reflexivity|]. lia.
Qed.

(** ** What the writes of [update] keep *)

Lemma writesOf_counters this w0 w :
  writesOf this w0 w ->
  friendlyLosses w = friendlyLosses w0
  /\ destroyedAssets w = destroyedAssets w0
  /\ length (friendlyDrones w) = length (friendlyDrones w0)
  /\ length (hostileDrones w) = length (hostileDrones w0)
  /\ length (groundAssets w) = length (groundAssets w0).
Proof.
  induction 1 as [|f w Hf Hw IH|r f w Hf Hw IH|k damage w Hw IH|n w Hw IH
                  |n w Hw IH|q w Hw IH|e w Hw IH]; auto.
  - destruct IH as (?&?&?&?&?). destruct this; cbn; rewrite ?length_alter; auto.
  - destruct IH as (?&?&?&?&?). destruct r; cbn; rewrite ?length_alter; auto.
  - destruct IH as (?&?&?&?&?). cbn. rewrite ?length_alter. auto.
Qed.

Lemma writes_counters w0 w :
  writes w0 w ->
  friendlyLosses w = friendlyLosses w0
  /\ destroyedAssets w = destroyedAssets w0
  /\ length (friendlyDrones w) = length (friendlyDrones w0)
  /\ length (hostileDrones w) = length (hostileDrones w0)
  /\ length (groundAssets w) = length (groundAssets w0).
Proof.
  induction 1 as [|this w1 w2 Hw IH Ho]; auto.
  destruct IH as (?&?&?&?&?).
  destruct (writesOf_counters _ _ _ Ho) as (?&?&?&?&?).
  repeat split; congruence.
Qed.

Lemma moveTo_pushes H tx ty speed d :
  (length (Drone.trail d) <= 10)%nat ->
  Drone.trail (moveTo H tx ty speed d)
  = firstn 10 (Drone.pos (moveTo H tx ty speed d) :: Drone.trail d).
Proof.
  intros Hl. unfold moveTo, pushTrail.
  destruct (Qltb 1 _); cbn [Drone.trail Drone.set_trail Drone.set_pos
                             Drone.set_vel Drone.pos Drone.x Drone.y].
  all: match goal with
       | |- (if (10 <? length ?l)%nat then _ else _) = _ =>
           destruct (Nat.ltb_spec 10 (length l)) as [Hc|Hc];
           [rewrite removelast_firstn_len; cbn [length] in *;
            replace (length (Drone.trail d)) with 10%nat by lia; reflexivity
           |symmetry; apply firstn_all2; exact Hc]
       end.
Qed.

(** X9.  [moveTo] puts the position it leaves the drone at, moved or not,
    at the head of the trail and keeps the ten most recent points. *)
Theorem moveTo_trail (H : Host) (tx ty speed : Q) (d : Drone.t) :
  (length (Drone.trail d) <= 10)%nat ->
  let d' := moveTo H tx ty speed d in
  Drone.trail d' = firstn 10 (Drone.pos d' :: Drone.trail d)
  /\ (length (Drone.trail d') <= 10)%nat.
Proof.
  intros Hl. cbv zeta. split; [now apply moveTo_pushes|].
  rewrite moveTo_pushes by exact Hl. rewrite length_take. lia.
Qed.

Lemma moveTo_trail_witness :
  let d := Drone.new "F-1" 0 0 true Drone.drone in
  Drone.trail (moveTo benchHost 30 40 2 d)
  = firstn 10 (Drone.pos (moveTo benchHost 30 40 2 d) :: Drone.trail d)
  /\ (length (Drone.trail (moveTo benchHost 30 40 2 d)) <= 10)%nat.
Proof.
  apply (moveTo_trail benchHost 30 40 2 (Drone.new "F-1" 0 0 true Drone.drone)).
  simpl. lia.
Defined.

Lemma mutator_shortTrail f d : mutator f -> shortTrail d -> shortTrail (f d).
Proof.
  intros Hf Hd. destruct Hf; try exact Hd.
  unfold shortTrail in *. rewrite moveTo_pushes by exact Hd.
  rewrite length_take. lia.
Qed.

Lemma Forall_alter_keeps {A : Type} (P : A -> Prop) f i (l : list A) :
  (forall a, P a -> P (f a)) -> Forall P l -> Forall P (alter f i l).
Proof.
  intros Hf Hl. revert i. induction Hl as [|a l Ha Hl IH]; intros [|i]; cbn;
    constructor; auto.
Qed.

Lemma foreign_mutator f : foreign f -> mutator f.
Proof. destruct 1; constructor. Qed.

Lemma writesOf_boundedTrails this w0 w :
  writesOf this w0 w -> boundedTrails w0 -> boundedTrails w.
Proof.
  induction 1 as [|f w Hf Hw IH|r f w Hf Hw IH|k damage w Hw IH|n w Hw IH
                  |n w Hw IH|q w Hw IH|e w Hw IH]; auto.
  - intros Hb. destruct (IH Hb) as [HF HH].
    destruct this; split; cbn; auto;
      apply Forall_alter_keeps; auto using mutator_shortTrail.
  - intros Hb. destruct (IH Hb) as [HF HH].
    destruct r; split; cbn; auto;
      apply Forall_alter_keeps; auto using mutator_shortTrail, foreign_mutator.
Qed.

Lemma writes_boundedTrails w0 w :
  writes w0 w -> boundedTrails w0 -> boundedTrails w.
Proof.
  induction 1 as [|this w1 w2 Hw IH Ho]; auto.
  intros Hb. eapply writesOf_boundedTrails; eauto.
Qed.

Lemma Forall_filter_of {A : Type} (P : A -> Prop) (f : A -> bool) l :
  Forall P l -> Forall P (List.filter f l).
Proof.
  induction 1 as [|a l Ha Hl IH]; cbn; [constructor|].
  destruct (f a); [constructor|]; auto.
Qed.

Lemma tick_counters H c jam f w :
  let w' := updateSimulation H c jam f w in
  exists mid,
    writes (clearJamFlags (ageParticles w)) mid
    /\ w' = casualtyPartition H mid.
Proof.
  cbv zeta. unfold updateSimulation. eexists. split; [|reflexivity].
  apply writes_updatePasses.
Qed.

Lemma run_invariant (P : SimState -> Prop) H formation :
  (forall c jam w, P w -> P (updateSimulation H c jam formation w)) ->
  forall flags w, P w -> P (run H formation flags w).
Proof.
  intros Hstep. induction flags as [|[c jam] flags IH]; intros w Hw; cbn [run]; auto.
Qed.

Lemma boundedTrails_tick H c jam f w :
  boundedTrails w -> boundedTrails (updateSimulation H c jam f w).
Proof.
  intros [HF HH].
  destruct (tick_counters H c jam f w) as (mid & Hw & ->).
  assert (Hb : boundedTrails mid).
  { apply (writes_boundedTrails _ _ Hw). split; [exact HF|].
    cbn. apply Forall_map. eapply Forall_impl; [exact HH|]. now intros d. }
  destruct (casualtyPartition_arrays H mid) as (EF & EH & _).
  destruct Hb. split; rewrite ?EF, ?EH; now apply Forall_filter_of.
Qed.

(** The accounts of a tick: every friendly drone that leaves the array is
    counted as a loss, every asset that leaves goes to [destroyedAssets],
    and no array grows. *)
Lemma tick_accounts H c jam f w :
  let w' := updateSimulation H c jam f w in
  (friendlyLosses w' + length (friendlyDrones w')
   = friendlyLosses w + length (friendlyDrones w))%nat
  /\ (length (destroyedAssets w') + length (groundAssets w')
      = length (destroyedAssets w) + length (groundAssets w))%nat
  /\ (exists gone, destroyedAssets w' = destroyedAssets w ++ gone)
  /\ (length (hostileDrones w') <= length (hostileDrones w))%nat.
Proof.
  cbv zeta. destruct (tick_counters H c jam f w) as (mid & Hw & ->).
  destruct (writes_counters _ _ Hw) as (Wl & Wd & WF & WH & WA).
  cbn [friendlyLosses destroyedAssets friendlyDrones hostileDrones groundAssets
       clearJamFlags ageParticles set_hostileDrones set_particles] in *.
  rewrite length_map in WH.
  destruct (casualtyPartition_arrays H mid) as (EF & EH & EA & _).
  destruct (casualtyPartition_counters H mid) as (Ll & Ld).
  rewrite EF, EH, EA, Ll, Ld, Wl, Wd. unfold casualties.
  pose proof (filter_length droneAlive (friendlyDrones mid)).
  pose proof (filter_length assetAlive (groundAssets mid)).
  pose proof (filter_length_le droneAlive (hostileDrones mid)).
  rewrite length_app.
  split; [lia|]. split; [lia|]. split; [eauto | lia].
Qed.

(** ** [initSimulation] *)

Lemma forIndices_snoc {B : Type} (proj : SimState -> list B)
      (f : nat -> SimState -> SimState) (item : nat -> B) :
  (forall i w, proj (f i w) = proj w ++ [item i]) ->
  forall n k w,
    proj (forIndices f k n w) = proj w ++ map item (seq k n).
Proof.
  intros Hf. induction n as [|n IH]; intros k w; cbn.
  - now rewrite app_nil_r.
  - rewrite IH, Hf, <- app_assoc. reflexivity.
Qed.

Lemma unplaced_new id x y side type :
  unplaced (Drone.new id x y side type) = Drone.new id 0 0 side type.
Proof. reflexivity. Qed.

Lemma spawnFriendly_roster H formation friendlyCount cx cy i w :
  map unplaced (friendlyDrones (spawnFriendly H formation friendlyCount cx cy i w))
  = map unplaced (friendlyDrones w)
    ++ [Drone.new (label "F-" (i + 1)) 0 0 true Drone.drone].
Proof.
  unfold spawnFriendly, divide. destruct formation; cbn; now rewrite map_app.
Qed.

Lemma spawnFriendlyBomber_roster H i w :
  map unplaced (friendlyDrones (spawnFriendlyBomber H i w))
  = map unplaced (friendlyDrones w)
    ++ [Drone.new (label "B-" (i + 1)) 0 0 true Drone.bomber].
Proof. unfold spawnFriendlyBomber. cbn. now rewrite map_app. Qed.

Lemma spawnHostile_roster H i w :
  map unplaced (hostileDrones (spawnHostile H i w))
  = map unplaced (hostileDrones w)
    ++ [Drone.new (label "H-" (i + 1)) 0 0 false Drone.drone].
Proof.
  unfold spawnHostile, readRandom. cbv beta iota zeta.
  destruct (Qfloor _) as [|p|p]; [| |];
    try (destruct p as [p|p|]; [| |]; try destruct p);
    cbn; now rewrite map_app.
Qed.

Lemma spawnHostileBomber_roster H i w :
  map unplaced (hostileDrones (spawnHostileBomber H i w))
  = map unplaced (hostileDrones w)
    ++ [Drone.new (label "HB-" (i + 1)) 0 0 false Drone.bomber].
Proof. unfold spawnHostileBomber. cbn. now rewrite map_app. Qed.

Lemma spawnFriendly_rest H formation friendlyCount cx cy i w :
  groundAssets (spawnFriendly H formation friendlyCount cx cy i w) = groundAssets w
  /\ destroyedAssets (spawnFriendly H formation friendlyCount cx cy i w)
     = destroyedAssets w
  /\ particles (spawnFriendly H formation friendlyCount cx cy i w) = particles w
  /\ friendlyLosses (spawnFriendly H formation friendlyCount cx cy i w)
     = friendlyLosses w.
Proof. unfold spawnFriendly, divide. destruct formation; repeat split. Qed.

Lemma spawnHostile_rest H i w :
  groundAssets (spawnHostile H i w) = groundAssets w
  /\ destroyedAssets (spawnHostile H i w) = destroyedAssets w
  /\ particles (spawnHostile H i w) = particles w
  /\ friendlyLosses (spawnHostile H i w) = friendlyLosses w.
Proof.
  unfold spawnHostile, readRandom. cbv beta iota zeta.
  destruct (Qfloor _) as [|p|p]; [| |];
    try (destruct p as [p|p|]; [| |]; try destruct p); repeat split.
Qed.

Lemma initSimulation_recruits H selectedMap friendlyCount hostileCount
      bomberCount hostileBomberCount formation w0 :
  let w := initSimulation H selectedMap friendlyCount hostileCount bomberCount
                          hostileBomberCount formation w0 in
  map unplaced (friendlyDrones w)
  = recruits "F-" true Drone.drone friendlyCount
    ++ recruits "B-" true Drone.bomber bomberCount
  /\ map unplaced (hostileDrones w)
     = recruits "H-" false Drone.drone hostileCount
       ++ recruits "HB-" false Drone.bomber hostileBomberCount.
Proof.
  cbv zeta. unfold initSimulation, divide, forEachIndex, recruits.
  cbv beta iota zeta. split.
  - rewrite (forIndices_keeps friendlyDrones)
      by (intros; unfold spawnHostileBomber; reflexivity).
    rewrite (forIndices_keeps friendlyDrones)
      by (intros; apply spawnHostile_arrays).
    cbn [friendlyDrones set_hostileDrones].
    rewrite (forIndices_snoc (fun s => map unplaced (friendlyDrones s)) _ _
               (spawnFriendlyBomber_roster H)).
    rewrite (forIndices_snoc (fun s => map unplaced (friendlyDrones s)) _ _
               (spawnFriendly_roster H _ _ _ _)).
    reflexivity.
  - rewrite (forIndices_snoc (fun s => map unplaced (hostileDrones s)) _ _
               (spawnHostileBomber_roster H)).
    rewrite (forIndices_snoc (fun s => map unplaced (hostileDrones s)) _ _
               (spawnHostile_roster H)).
    reflexivity.
Qed.

Lemma initSimulation_ground H selectedMap friendlyCount hostileCount
      bomberCount hostileBomberCount formation w0 :
  let w := initSimulation H selectedMap friendlyCount hostileCount bomberCount
                          hostileBomberCount formation w0 in
  groundAssets w = mapAssets selectedMap
  /\ destroyedAssets w = []
  /\ particles w = []
  /\ friendlyLosses w = 0%nat.
Proof.
  cbv zeta. unfold initSimulation, divide, forEachIndex.
  cbv beta iota zeta.
  assert (Hrest : forall (B : Type) (proj : SimState -> B) w,
             (forall h i s, proj (spawnFriendly H formation friendlyCount
                                    h.1 h.2 i s) = proj s) ->
             (forall i s, proj (spawnFriendlyBomber H i s) = proj s) ->
             (forall i s, proj (spawnHostile H i s) = proj s) ->
             (forall i s, proj (spawnHostileBomber H i s) = proj s) ->
             (forall l s, proj (set_hostileDrones l s) = proj s) ->
             forall cx cy,
             proj (forIndices (spawnHostileBomber H) 0 hostileBomberCount
                     (forIndices (spawnHostile H) 0 hostileCount
                        (set_hostileDrones []
                           (forIndices (spawnFriendlyBomber H) 0 bomberCount
                              (forIndices
                                 (spawnFriendly H formation friendlyCount cx cy)
                                 0 friendlyCount w)))))
             = proj w).
  { intros B proj w H1 H2 H3 H4 H5 cx cy.
    rewrite (forIndices_keeps proj) by exact H4.
    rewrite (forIndices_keeps proj) by exact H3.
    rewrite H5.
    rewrite (forIndices_keeps proj) by exact H2.
    rewrite (forIndices_keeps proj); [reflexivity|].
    intros i s. exact (H1 (cx, cy) i s). }
  split; [|split; [|split]].
  - rewrite (Hrest _ groundAssets); try reflexivity.
    + intros. apply spawnFriendly_rest.
    + intros. apply spawnHostile_rest.
  - rewrite (Hrest _ destroyedAssets); try reflexivity.
    + intros. apply spawnFriendly_rest.
    + intros. apply spawnHostile_rest.
  - rewrite (Hrest _ particles); try reflexivity.
    + intros. apply spawnFriendly_rest.
    + intros. apply spawnHostile_rest.
  - rewrite (Hrest _ friendlyLosses); try reflexivity.
    + intros. apply spawnFriendly_rest.
    + intros. apply spawnHostile_rest.
Qed.

(** X10.  [initSimulation] starts afresh, whatever the state before: the
    assets are those of the map, nothing is destroyed or lost, there is no
    particle, and the rosters are new drones, interceptors [F-1], [F-2],
    ... then bombers [B-1], ... on the friendly side, [H-1], ... then
    [HB-1], ... on the hostile side. *)
Theorem initSimulation_rosters (H : Host) (selectedMap : MapKey)
        (friendlyCount hostileCount bomberCount hostileBomberCount : nat)
        (formation : FormationType) (w0 : SimState) :
  let w := initSimulation H selectedMap friendlyCount hostileCount bomberCount
                          hostileBomberCount formation w0 in
  map unplaced (friendlyDrones w)
  = recruits "F-" true Drone.drone friendlyCount
    ++ recruits "B-" true Drone.bomber bomberCount
  /\ map unplaced (hostileDrones w)
     = recruits "H-" false Drone.drone hostileCount
       ++ recruits "HB-" false Drone.bomber hostileBomberCount
  /\ groundAssets w = mapAssets selectedMap
  /\ destroyedAssets w = []
  /\ particles w = []
  /\ friendlyLosses w = 0%nat.
Proof.
  cbv zeta.
  destruct (initSimulation_recruits H selectedMap friendlyCount hostileCount
              bomberCount hostileBomberCount formation w0) as [EF EH].
  destruct (initSimulation_ground H selectedMap friendlyCount hostileCount
              bomberCount hostileBomberCount formation w0) as (EA & ED & EP & EL).
  auto 7.
Qed.

(** ** Runs from [initSimulation] *)

Lemma hostileStart_edge x y :
  0 <= x -> x <= CANVAS_WIDTH -> 0 <= y -> y <= CANVAS_HEIGHT ->
  x = 0 \/ x = CANVAS_WIDTH \/ y = 0 \/ y = CANVAS_HEIGHT ->
  forall id, hostileStart (Drone.new id x y false Drone.drone).
Proof. intros ? ? ? ? ? id. repeat split; assumption. Qed.

Lemma scaled_draw r c : 0 <= r -> r < 1 -> 0 <= c -> 0 <= r * c /\ r * c <= c.
Proof. intros. split; nra. Qed.

Lemma spawnHostile_start H i w :
  unitDraws H ->
  Forall hostileStart (hostileDrones w) ->
  Forall hostileStart (hostileDrones (spawnHostile H i w)).
Proof.
  intros Hu Hw. unfold spawnHostile, readRandom. cbv beta iota zeta.
  assert (Hw' : 0 <= CANVAS_WIDTH) by (unfold CANVAS_WIDTH; lra).
  assert (Hh' : 0 <= CANVAS_HEIGHT) by (unfold CANVAS_HEIGHT; lra).
  destruct (Qfloor _) as [|p|p]; [| |];
    try (destruct p as [p|p|]; [| |]; try destruct p);
    cbv beta iota zeta; cbn [hostileDrones set_hostileDrones set_randomReads];
    (apply Forall_app; split; [exact Hw|]); constructor; try constructor;
    apply hostileStart_edge;
    try (apply Qle_refl); try assumption; auto;
    try (match goal with
         | |- context [mathRandom H ?n * ?c] =>
             destruct (Hu n) as [? ?];
             destruct (scaled_draw (mathRandom H n) c) as [? ?]; assumption
         end).
Qed.

Lemma spawnHostileBomber_start H i w :
  unitDraws H ->
  Forall hostileStart (hostileDrones w) ->
  Forall hostileStart (hostileDrones (spawnHostileBomber H i w)).
Proof.
  intros Hu Hw. unfold spawnHostileBomber, readRandom. cbv beta iota zeta.
  cbn [hostileDrones set_hostileDrones set_randomReads randomReads].
  apply Forall_app; split; [exact Hw|]. constructor; [|constructor].
  destruct (Hu (randomReads w)) as [? ?].
  destruct (Hu (S (randomReads w))) as [? ?].
  unfold hostileStart, CANVAS_WIDTH, CANVAS_HEIGHT.
  cbn [Drone.x Drone.y Drone.type Drone.new].
  repeat split; nra.
Qed.

(** X11.  With a random source that draws from [[0, 1)], [initSimulation]
    puts every hostile interceptor on the edge of the canvas and every
    hostile bomber within the canvas, less than 100 from its right edge. *)
Theorem initSimulation_hostile_start (H : Host) (selectedMap : MapKey)
        (friendlyCount hostileCount bomberCount hostileBomberCount : nat)
        (formation : FormationType) (w0 : SimState) :
  unitDraws H ->
  Forall hostileStart
         (hostileDrones
            (initSimulation H selectedMap friendlyCount hostileCount bomberCount
                            hostileBomberCount formation w0)).
Proof.
  intros Hu. unfold initSimulation, divide, forEachIndex. cbv beta iota zeta.
  apply (forIndices_invariant (fun s => Forall hostileStart (hostileDrones s))).
  - apply (forIndices_invariant (fun s => Forall hostileStart (hostileDrones s))).
    + constructor.
    + intros i s _ Hs. now apply spawnHostile_start.
  - intros i s _ Hs. now apply spawnHostileBomber_start.
Qed.

Lemma initSimulation_hostile_start_witness :
  Forall hostileStart
         (hostileDrones
            (initSimulation benchHost city 3 2 1 2 arrowhead emptySim)).
Proof.
  apply (initSimulation_hostile_start benchHost city 3 2 1 2 arrowhead emptySim).
  intros n. vm_compute. split; [discriminate | reflexivity].
Defined.

Lemma run_accounts H formation flags : forall w,
  let w' := run H formation flags w in
  (friendlyLosses w' + length (friendlyDrones w')
   = friendlyLosses w + length (friendlyDrones w))%nat
  /\ (length (destroyedAssets w') + length (groundAssets w')
      = length (destroyedAssets w) + length (groundAssets w))%nat
  /\ (exists gone, destroyedAssets w' = destroyedAssets w ++ gone)
  /\ (length (hostileDrones w') <= length (hostileDrones w))%nat.
Proof.
  cbv zeta. induction flags as [|[c jam] flags IH]; intros w; cbn [run].
  - split; [reflexivity|]. split; [reflexivity|].
    split; [exists []; now rewrite app_nil_r | lia].
  - destruct (tick_accounts H c jam formation w) as (T1 & T2 & (g1 & T3) & T4).
    destruct (IH (updateSimulation H c jam formation w))
      as (R1 & R2 & (g2 & R3) & R4).
    split; [lia|]. split; [lia|]. split; [|lia].
    exists (g1 ++ g2). now rewrite R3, T3, <- app_assoc.
Qed.

Lemma length_recruits prefix side type n :
  length (recruits prefix side type n) = n.
Proof. unfold recruits. now rewrite length_map, length_seq. Qed.

Lemma length_mapAssets selectedMap : length (mapAssets selectedMap) = 5%nat.
Proof. now destruct selectedMap. Qed.

(** X12.  From [initSimulation] on, whatever the flags of the ticks: the
    friendly drones in the array and the friendly losses add up to the
    friendly drones deployed, the assets standing and the assets destroyed
    to the five assets of the map, and there are never more hostile drones
    than were sent. *)
Theorem losses_accounted (H : Host) (selectedMap : MapKey)
        (friendlyCount hostileCount bomberCount hostileBomberCount : nat)
        (spawnFormation formation : FormationType)
        (flags : list (bool * bool)) (w0 : SimState) :
  let w := run H formation flags
               (initSimulation H selectedMap friendlyCount hostileCount
                               bomberCount hostileBomberCount spawnFormation w0) in
  (friendlyLosses w + length (friendlyDrones w)
   = friendlyCount + bomberCount)%nat
  /\ (length (destroyedAssets w) + length (groundAssets w) = 5)%nat
  /\ (length (hostileDrones w) <= hostileCount + hostileBomberCount)%nat.
Proof.
  cbv zeta.
  destruct (initSimulation_recruits H selectedMap friendlyCount hostileCount
              bomberCount hostileBomberCount spawnFormation w0) as (IF & IH).
  destruct (initSimulation_ground H selectedMap friendlyCount hostileCount
              bomberCount hostileBomberCount spawnFormation w0)
    as (IA & ID & _ & IL).
  apply (f_equal (@length _)) in IF, IH.
  rewrite length_map, length_app, !length_recruits in IF, IH.
  destruct (run_accounts H formation flags
              (initSimulation H selectedMap friendlyCount hostileCount
                              bomberCount hostileBomberCount spawnFormation w0))
    as (R1 & R2 & _ & R4).
  rewrite IL, IF in R1. rewrite ID, IA, length_mapAssets in R2. rewrite IH in R4.
  cbn [length] in R2. auto.
Qed.

Lemma Forall_of_map {A B : Type} (P : A -> Prop) (Q : B -> Prop) (g : A -> B) l :
  (forall a, Q (g a) -> P a) -> Forall Q (map g l) -> Forall P l.
Proof.
  intros Hg. induction l as [|a l IH]; cbn; [constructor|].
  intros Hl. apply Forall_cons in Hl as [Ha Hl]. constructor; auto.
Qed.

Lemma Forall_recruits (P : Drone.t -> Prop) prefix side type n :
  (forall id, P (Drone.new id 0 0 side type)) ->
  Forall P (recruits prefix side type n).
Proof.
  intros HP. unfold recruits. apply Forall_map, Forall_forall. intros; apply HP.
Qed.

(** X13.  No trail ever holds more than ten points: from [initSimulation]
    on, whatever the flags of the ticks. *)
Theorem trails_stay_short (H : Host) (selectedMap : MapKey)
        (friendlyCount hostileCount bomberCount hostileBomberCount : nat)
        (spawnFormation formation : FormationType)
        (flags : list (bool * bool)) (w0 : SimState) :
  boundedTrails
    (run H formation flags
         (initSimulation H selectedMap friendlyCount hostileCount bomberCount
                         hostileBomberCount spawnFormation w0)).
Proof.
  apply (run_invariant boundedTrails).
  - intros c jam w. apply boundedTrails_tick.
  - destruct (initSimulation_recruits H selectedMap friendlyCount hostileCount
                bomberCount hostileBomberCount spawnFormation w0) as (IF & IH).
    split.
    + apply (Forall_of_map shortTrail shortTrail unplaced); [now intros d|].
      rewrite IF. apply Forall_app. split; apply Forall_recruits;
        intros; unfold shortTrail; cbn; lia.
    + apply (Forall_of_map shortTrail shortTrail unplaced); [now intros d|].
      rewrite IH. apply Forall_app. split; apply Forall_recruits;
        intros; unfold shortTrail; cbn; lia.
Qed.

(** ** [moveTo] *)

(** X14.  A move towards a point more than 1 away, on a host whose square
    root is exact at the distance: the step has the length of the speed,
    and the distance left is the distance less the speed, in absolute
    value: a drone nearer than its speed overshoots.  Within 1 of the point
    the drone keeps its position and its velocity. *)
Theorem moveTo_advances (H : Host) (tx ty speed : Q) (d : Drone.t) :
  let dx := tx - Drone.x d in
  let dy := ty - Drone.y d in
  let dist := sqrt H (dx * dx + dy * dy) in
  let d' := moveTo H tx ty speed d in
  (1 < dist -> dist * dist == dx * dx + dy * dy ->
   Drone.vx d' * Drone.vx d' + Drone.vy d' * Drone.vy d' == speed * speed
   /\ Drone.x d' == Drone.x d + Drone.vx d'
   /\ Drone.y d' == Drone.y d + Drone.vy d'
   /\ (tx - Drone.x d') * (tx - Drone.x d') + (ty - Drone.y d') * (ty - Drone.y d')
      == (dist - speed) * (dist - speed))
  /\ (dist <= 1 ->
      Drone.pos d' = Drone.pos d
      /\ Drone.vx d' = Drone.vx d /\ Drone.vy d' = Drone.vy d).
Proof.
  cbv zeta. unfold moveTo, pushTrail.
  set (dx := tx - Drone.x d). set (dy := ty - Drone.y d).
  set (dist := sqrt H (dx * dx + dy * dy)).
  split.
  - intros Hfar Hsq. apply Qltb_lt in Hfar as Hb. rewrite Hb.
    cbn [Drone.vx Drone.vy Drone.x Drone.y Drone.set_trail Drone.set_pos
         Drone.set_vel].
    set (u := dx / dist). set (v := dy / dist).
    assert (Hnz : ~ dist == 0) by lra.
    assert (Hu : u * dist == dx) by (unfold u; field; exact Hnz).
    assert (Hv : v * dist == dy) by (unfold v; field; exact Hnz).
    assert (Hs : u * u + v * v == 1).
    { assert (E : (u * u + v * v - 1) * (dist * dist) == 0).
      { transitivity ((u * dist) * (u * dist) + (v * dist) * (v * dist)
                      - dist * dist); [ring|].
        rewrite Hu, Hv, Hsq. ring. }
      apply Qmult_integral in E. destruct E as [E|E]; [lra|]. nra. }
    split; [|split; [reflexivity|split; [reflexivity|]]].
    + transitivity ((u * u + v * v) * (speed * speed)); [ring|].
      rewrite Hs. ring.
    + assert (A : tx - (Drone.x d + u * speed) == u * (dist - speed)).
      { unfold dx in Hu. lra. }
      assert (B : ty - (Drone.y d + v * speed) == v * (dist - speed)).
      { unfold dy in Hv. lra. }
      rewrite A, B.
      transitivity ((u * u + v * v) * ((dist - speed) * (dist - speed))); [ring|].
      rewrite Hs. ring.
  - intros Hnear. apply Qltb_ge in Hnear. rewrite Hnear. repeat split.
Qed.

Lemma moveTo_advances_witness :
  let d := Drone.new "F-1" 0 0 true Drone.drone in
  let d' := moveTo benchHost 30 40 2 d in
  Drone.vx d' * Drone.vx d' + Drone.vy d' * Drone.vy d' == 2 * 2
  /\ Drone.x d' == Drone.x d + Drone.vx d'
  /\ Drone.y d' == Drone.y d + Drone.vy d'
  /\ (30 - Drone.x d') * (30 - Drone.x d') + (40 - Drone.y d') * (40 - Drone.y d')
     == (sqrt benchHost ((30 - 0) * (30 - 0) + (40 - 0) * (40 - 0)) - 2)
        * (sqrt benchHost ((30 - 0) * (30 - 0) + (40 - 0) * (40 - 0)) - 2).
Proof.
  apply (proj1 (moveTo_advances benchHost 30 40 2
                  (Drone.new "F-1" 0 0 true Drone.drone))).
  - vm_compute. reflexivity.
  - vm_compute. reflexivity.
Defined.

(** ** A shot *)

Lemma targetHealth_hitParticle H t color w t' :
  targetHealth (hitParticle H t color w) t' = targetHealth w t'.
Proof. now destruct t' as [[?|?]|?]. Qed.

Lemma targetHealth_damageTarget t damage w :
  validTarget w t ->
  targetHealth (damageTarget t damage w) t = targetHealth w t - damage.
Proof.
  destruct t as [r|k]; cbn [validTarget targetHealth damageTarget]; intros Hv.
  - now rewrite deref_modify_same.
  - unfold assetAt, modifyAsset. cbn [groundAssets set_groundAssets].
    rewrite list_lookup_alter_eq.
    destruct (lookup_lt_is_Some_2 _ _ Hv) as [a ->]. reflexivity.
Qed.

Lemma targetHealth_lastFired this z w t :
  targetHealth (modify this (Drone.set_lastFired z) w) t = targetHealth w t.
Proof.
  destruct t as [r|k]; cbn [targetHealth].
  - now apply (deref_modify_field Drone.health).
  - now destruct this.
Qed.

Lemma validTarget_lastFired this z w t :
  validTarget w t -> validTarget (modify this (Drone.set_lastFired z) w) t.
Proof.
  destruct t as [[i|j]|k], this as [i'|j']; cbn; rewrite ?length_alter; auto.
Qed.

Lemma hitParticle_effect H t color w :
  exists p,
    particles (hitParticle H t color w) = particles w ++ [p]
    /\ spark color p
    /\ clockReads (hitParticle H t color w) = clockReads w
    /\ randomReads (hitParticle H t color w) = (randomReads w + 6)%nat.
Proof.
  unfold hitParticle, readRandom. cbv beta iota zeta. eexists.
  split; [reflexivity|]. split; [split; reflexivity|].
  split; [reflexivity|]. cbn. lia.
Qed.

Lemma damageTarget_counters t damage this z w :
  particles (damageTarget t damage (modify this (Drone.set_lastFired z) w))
  = particles w
  /\ clockReads (damageTarget t damage (modify this (Drone.set_lastFired z) w))
     = clockReads w
  /\ randomReads (damageTarget t damage (modify this (Drone.set_lastFired z) w))
     = randomReads w.
Proof. destruct t as [[?|?]|?], this; repeat split. Qed.



(** ** The ageing of the particles *)

Lemma ofNat_succ n : ofNat (S n) == ofNat n + 1.
Proof.
  unfold ofNat. rewrite Nat2Z.inj_succ, <- Z.add_1_r, inject_Z_plus. reflexivity.
Qed.

Lemma life_aged n p :
  Particle.life (Nat.iter n ageParticle p) == Particle.life p - ofNat n.
Proof.
  induction n as [|n IH].
  - unfold ofNat. cbn. ring.
  - pose proof (ofNat_succ n) as Hn.
    change (Particle.life (Nat.iter (S n) ageParticle p))
      with (Particle.life (Nat.iter n ageParticle p) - 1).
    lra.
Qed.

Lemma filter_map_swap {A B : Type} (f : B -> bool) (g : A -> B) l :
  List.filter f (map g l) = map g (List.filter (fun a => f (g a)) l).
Proof.
  induction l as [|a l IH]; cbn; [reflexivity|].
  destruct (f (g a)); cbn; now rewrite IH.
Qed.

Lemma filter_filter_ext {A : Type} (f g h : A -> bool) l :
  (forall a, g a && f a = h a) ->
  List.filter f (List.filter g l) = List.filter h l.
Proof.
  intros E. induction l as [|a l IH]; cbn; [reflexivity|].
  rewrite <- E. destruct (g a); cbn; [destruct (f a)|]; now rewrite IH.
Qed.

Lemma filter_ext_of {A : Type} (f g : A -> bool) l :
  (forall a, f a = g a) -> List.filter f l = List.filter g l.
Proof.
  intros E. induction l as [|a l IH]; cbn; [reflexivity|]. now rewrite E, IH.
Qed.

Lemma survives_one p : Qltb 0 (Particle.life (ageParticle p))
                       = Qltb (ofNat 1) (Particle.life p).
Proof.
  change (Particle.life (ageParticle p)) with (Particle.life p - 1).
  change (ofNat 1) with 1.
  destruct (Qltb 1 (Particle.life p)) eqn:E.
  - apply Qltb_lt in E. apply Qltb_lt. lra.
  - apply Qltb_ge in E. apply Qltb_ge. lra.
Qed.

Lemma survives_more n p :
  Qltb (ofNat (S n)) (Particle.life p)
  && Qltb 0 (Particle.life (ageParticle (Nat.iter (S n) ageParticle p)))
  = Qltb (ofNat (S (S n))) (Particle.life p).
Proof.
  change (Particle.life (ageParticle (Nat.iter (S n) ageParticle p)))
    with (Particle.life (Nat.iter (S n) ageParticle p) - 1).
  pose proof (life_aged (S n) p) as Hl.
  pose proof (ofNat_succ (S n)) as Hs.
  destruct (Qltb (ofNat (S (S n))) (Particle.life p)) eqn:E.
  - apply Qltb_lt in E. apply andb_true_iff. split; apply Qltb_lt; lra.
  - apply Qltb_ge in E. apply andb_false_iff. right. apply Qltb_ge. lra.
Qed.

(** X16.  The particles after [n + 1] ageings are those whose life exceeded
    [n + 1], in their order, each aged [n + 1] times, and each with some
    life left; the arrays of drones and of assets are as before. *)
Theorem particles_expire (n : nat) (w : SimState) :
  let w' := Nat.iter (S n) ageParticles w in
  particles w'
  = map (Nat.iter (S n) ageParticle)
        (List.filter (fun p => Qltb (ofNat (S n)) (Particle.life p))
                     (particles w))
  /\ Forall (fun p => 0 < Particle.life p) (particles w')
  /\ sameArrays w w'.
Proof.
  cbv zeta.
  assert (E : particles (Nat.iter (S n) ageParticles w)
              = map (Nat.iter (S n) ageParticle)
                    (List.filter (fun p => Qltb (ofNat (S n)) (Particle.life p))
                                 (particles w))
              /\ sameArrays w (Nat.iter (S n) ageParticles w)).
  { induction n as [|n [IH IS]].
    - change (Nat.iter 1 ageParticles w) with (ageParticles w).
      split; [|repeat split].
      unfold ageParticles. cbn [particles set_particles].
      rewrite filter_map_swap.
      rewrite (filter_ext_of _ _ _ survives_one). reflexivity.
    - change (Nat.iter (S (S n)) ageParticles w)
        with (ageParticles (Nat.iter (S n) ageParticles w)).
      split; [|destruct IS as (?&?&?&?); repeat split; assumption].
      unfold ageParticles at 1. cbn [particles set_particles].
      rewrite IH, map_map, filter_map_swap, filter_filter_ext
        with (h := fun p => Qltb (ofNat (S (S n))) (Particle.life p)).
      + reflexivity.
      + intros p. apply survives_more. }
  destruct E as [E Hs]. split; [exact E|]. split; [|exact Hs].
  change (Nat.iter (S n) ageParticles w)
    with (ageParticles (Nat.iter n ageParticles w)).
  unfold ageParticles. cbn [particles set_particles].
  apply Forall_forall. intros p Hp.
  apply list_elem_of_In, filter_In in Hp as [_ Hp]. now apply Qltb_lt.
Qed.

(** ** Lost drones *)

Lemma forIndices_indexed {St : Type} (P : nat -> St -> Prop) f : forall n k (s : St),
  P k s ->
  (forall i s, (k <= i < k + n)%nat -> P i s -> P (S i) (f i s)) ->
  P (k + n)%nat (forIndices f k n s).
Proof.
  induction n as [|n IH]; intros k s Hs Hf; cbn [forIndices].
  - now rewrite Nat.add_0_r.
  - replace (k + S n)%nat with (S k + n)%nat by lia. apply IH.
    + apply Hf; [lia | exact Hs].
    + intros i s' Hi. apply Hf. lia.
Qed.

Lemma lostCoords_cleared k s :
  Drone.lostCoords
    (deref (modify (Friendly k) (Drone.set_lostCoords None) s) (Friendly k))
  = None.
Proof.
  cbn. rewrite list_lookup_alter_eq. now destruct (_ !! k).
Qed.

(** X17.  When the loop over the lost neighbours ends without a rescue
    move, no other friendly drone is marked as lost any more: each one that
    was has been found within 100 and reconnected. *)
Theorem rescue_or_all_connected (H : Host) (i : nat) (w : SimState) :
  snd (rescueLoop H (Friendly i) w) = false ->
  forall k, k <> i ->
    Drone.lostCoords (deref (fst (rescueLoop H (Friendly i) w)) (Friendly k))
    = None.
Proof.
  unfold rescueLoop, forEachIndex.
  pose (P := fun (k : nat) (st : SimState * bool) =>
               length (friendlyDrones (fst st)) = length (friendlyDrones w)
               /\ (snd st = false ->
                   forall k', (k' < k)%nat -> k' <> i ->
                     Drone.lostCoords (deref (fst st) (Friendly k')) = None)).
  assert (HP : P (0 + length (friendlyDrones w))%nat
                 (forIndices (rescueStep H (Friendly i)) 0
                             (length (friendlyDrones w)) (w, false))).
  { apply forIndices_indexed.
    - unfold P. split; [reflexivity|]. intros _ k' Hk'. lia.
    - intros k [s b] _ [Hl Hinv]. unfold P. cbn [fst snd] in *.
      unfold rescueStep.
      destruct (negb (sameRef (Friendly k) (Friendly i))) eqn:Es.
      + destruct (Drone.lostCoords (deref s (Friendly k))) as [lost|] eqn:El.
        * destruct (Qltb _ 100).
          -- cbn [fst snd]. split; [cbn; now rewrite length_alter|].
             intros Hb k' Hk' Hne.
             destruct (decide (k' = k)) as [->|Hkk].
             ++ apply lostCoords_cleared.
             ++ rewrite deref_modify_other by congruence. apply Hinv; auto. lia.
          -- destruct (negb b) eqn:Eb; cbn [fst snd].
             ++ split; [cbn; now rewrite length_alter | discriminate].
             ++ split; [exact Hl|]. intros Hb. subst b. discriminate Eb.
        * cbn [fst snd]. split; [exact Hl|]. intros Hb k' Hk' Hne.
          destruct (decide (k' = k)) as [->|Hkk]; [exact El|].
          apply Hinv; auto. lia.
      + cbn [fst snd]. split; [exact Hl|]. intros Hb k' Hk' Hne.
        cbn in Es. apply negb_false_iff, Nat.eqb_eq in Es. subst k.
        apply Hinv; auto. lia. }
  destruct HP as [Hl Hinv]. intros Hb k Hne.
  destruct (Nat.lt_ge_cases k (length (friendlyDrones w))) as [Hk|Hk].
  - apply Hinv; auto.
  - cbn. rewrite (proj2 (lookup_ge_None _ _)) by lia. reflexivity.
Qed.

Lemma rescue_or_all_connected_witness :
  Drone.lostCoords (deref reunion (Friendly 1)) = Some (Point.mk 50 0)
  /\ Drone.lostCoords
       (deref (fst (rescueLoop benchHost (Friendly 0) reunion)) (Friendly 1))
     = None.
Proof.
  split; [reflexivity|].
  apply (rescue_or_all_connected benchHost 0 reunion).
  - vm_compute. reflexivity.
  - lia.
Defined.

Lemma deref_modify_cases r f w :
  deref (modify r f w) r = f (deref w r) \/ deref (modify r f w) r = deref w r.
Proof.
  destruct r as [i|j]; cbn; rewrite list_lookup_alter_eq;
    destruct (_ !! _); cbn; auto.
Qed.

(** ** The autonomous mode *)

Lemma length_pos_nonempty {A : Type} (l : list A) :
  (0 <? length l)%nat = negb (match l with [] => true | _ => false end).
Proof. now destruct l. Qed.

Lemma randomReads_modify r f w : randomReads (modify r f w) = randomReads w.
Proof. now destruct r. Qed.

Lemma validRef_random n w r : validRef w r -> validRef (set_randomReads n w) r.
Proof. now destruct r. Qed.

Lemma validRef_modify r f w r' : validRef w r' -> validRef (modify r f w) r'.
Proof. destruct r, r'; cbn; now rewrite ?length_alter. Qed.

(** X18.  Without communication a friendly drone draws a number: below 0.7,
    and with an asset left, it moves at full speed towards a nearest asset,
    and that is all it does; otherwise it moves towards a nearest hostile
    drone, if there is one, and that is all it does; otherwise it hovers,
    shifted by two more draws less 0.5 each. *)
Theorem autonomous_heads_for_nearest (H : Host) (this : DroneRef) (w : SimState) :
  let r := mathRandom H (randomReads w) in
  let w1 := set_randomReads (S (randomReads w)) w in
  let me := deref w this in
  (r < 0.7 -> groundAssets w <> [] ->
   exists a,
     In a (groundAssets w)
     /\ (forall a', In a' (groundAssets w) ->
                    calculateDistance H me (Asset.pos a)
                    <= calculateDistance H me (Asset.pos a'))
     /\ autonomousMode H this w
        = modify this (moveTo H (Asset.x a) (Asset.y a) DRONE_SPEED) w1)
  /\ (0.7 <= r \/ groundAssets w = [] -> hostileDrones w <> [] ->
      exists h,
        In h (hostileDrones w)
        /\ (forall h', In h' (hostileDrones w) ->
                       calculateDistance H me (Drone.pos h)
                       <= calculateDistance H me (Drone.pos h'))
        /\ autonomousMode H this w
           = modify this (moveTo H (Drone.x h) (Drone.y h) DRONE_SPEED) w1)
  /\ (0.7 <= r \/ groundAssets w = [] -> hostileDrones w = [] ->
      validRef w this ->
      let w' := autonomousMode H this w in
      Drone.x (deref w' this)
      = Drone.x me + (mathRandom H (S (randomReads w)) - 0.5)
      /\ Drone.y (deref w' this)
         = Drone.y me + (mathRandom H (S (S (randomReads w))) - 0.5)
      /\ randomReads w' = (randomReads w + 3)%nat).
Proof.
  cbv zeta. unfold autonomousMode, readRandom. cbv beta iota zeta.
  rewrite !deref_random.
  change (groundAssets (set_randomReads ?n w)) with (groundAssets w).
  change (hostileDrones (set_randomReads ?n w)) with (hostileDrones w).
  split; [|split].
  - intros Hr Ha. apply Qltb_lt in Hr. rewrite Hr.
    pose proof (nearestByReduce_nearest H Asset.pos (deref w this) (groundAssets w))
      as Hn.
    destruct (groundAssets w) as [|a0 l] eqn:El; [congruence|].
    cbn [length Nat.ltb Nat.leb andb].
    destruct (nearestByReduce _ _ _ _) as [a|]; [|discriminate Hn].
    destruct Hn as [Hin Hall]. exists a. auto.
  - intros Hr Hh.
    assert (E : Qltb (mathRandom H (randomReads w)) 0.7
                && (0 <? length (groundAssets w))%nat = false).
    { destruct Hr as [Hr| ->]; [|apply andb_false_r].
      apply Qltb_ge in Hr. now rewrite Hr. }
    rewrite E.
    pose proof (nearestByReduce_nearest H Drone.pos (deref w this) (hostileDrones w))
      as Hn.
    destruct (hostileDrones w) as [|h0 l] eqn:El; [congruence|].
    cbn [length Nat.ltb Nat.leb].
    destruct (nearestByReduce _ _ _ _) as [h|]; [|discriminate Hn].
    destruct Hn as [Hin Hall]. exists h. auto.
  - intros Hr Hh Hv.
    assert (E : Qltb (mathRandom H (randomReads w)) 0.7
                && (0 <? length (groundAssets w))%nat = false).
    { destruct Hr as [Hr| ->]; [|apply andb_false_r].
      apply Qltb_ge in Hr. now rewrite Hr. }
    rewrite E, Hh. cbn [length Nat.ltb Nat.leb].
    cbn [randomReads set_randomReads].
    split; [|split].
    + rewrite (deref_modify_field Drone.x) by reflexivity.
      rewrite deref_random, deref_modify_same, deref_random
        by (destruct this; exact Hv).
      reflexivity.
    + rewrite !randomReads_modify. cbn [randomReads set_randomReads].
      rewrite deref_modify_same
        by (apply validRef_random, validRef_modify, validRef_random; exact Hv).
      cbn [Drone.y Drone.set_pos]. rewrite deref_random.
      rewrite (deref_modify_field Drone.y) by reflexivity.
      now rewrite !deref_random.
    + rewrite !randomReads_modify. cbn. lia.
Qed.

Lemma autonomous_heads_for_nearest_witness :
  exists a,
    In a (groundAssets (pursuit 60 false))
    /\ (forall a', In a' (groundAssets (pursuit 60 false)) ->
                   calculateDistance benchHost (deref (pursuit 60 false) (Friendly 0))
                                     (Asset.pos a)
                   <= calculateDistance benchHost
                                        (deref (pursuit 60 false) (Friendly 0))
                                        (Asset.pos a'))
    /\ autonomousMode benchHost (Friendly 0) (pursuit 60 false)
       = modify (Friendly 0) (moveTo benchHost (Asset.x a) (Asset.y a) DRONE_SPEED)
                (set_randomReads (S (randomReads (pursuit 60 false)))
                                 (pursuit 60 false)).
Proof.
  apply (autonomous_heads_for_nearest benchHost (Friendly 0) (pursuit 60 false)).
  - vm_compute. reflexivity.
  - vm_compute. discriminate.
Defined.

(** ** The separation *)

Lemma separationFrom_none H this me dist (l : list Drone.t) : forall k acc,
  (forall k' other, l !! k' = Some other ->
                    sameRef (Friendly (k + k')) this = false ->
                    0 < Drone.health other ->
                    calculateDistance H me (Drone.pos other) <= 0
                    \/ dist <= calculateDistance H me (Drone.pos other)) ->
  separationFrom H this me dist k l acc = acc.
Proof.
  induction l as [|other l IH]; intros k acc Hall; cbn [separationFrom];
    [reflexivity|].
  assert (Es : separationStep H this me dist k other acc = acc).
  { unfold separationStep. destruct acc as [[sx sy] c].
    destruct (negb (sameRef (Friendly k) this)) eqn:E1; [|reflexivity].
    destruct (Qltb 0 (Drone.health other)) eqn:E2; [|reflexivity].
    cbn [andb]. apply negb_true_iff in E1. apply Qltb_lt in E2.
    destruct (Hall 0%nat other eq_refl) as [Hd|Hd]; auto.
    - now rewrite Nat.add_0_r.
    - apply Qltb_ge in Hd. now rewrite Hd, andb_false_r.
    - apply Qltb_ge in Hd. now rewrite Hd. }
  rewrite Es. apply IH. intros k' o Hk' Hs Hh.
  apply (Hall (S k') o); auto. now replace (k + S k')%nat with (S k + k')%nat by lia.
Qed.

(** X19.  The separation moves a drone only away from a living neighbour
    nearer than the separation distance and not at its very position: with
    no such neighbour, and so for drones stacked on one point, it changes
    nothing. *)
Theorem separation_needs_a_neighbour (H : Host) (i : nat) (dist : Q)
        (w : SimState) :
  (forall k other,
      friendlyDrones w !! k = Some other -> k <> i ->
      0 < Drone.health other ->
      calculateDistance H (deref w (Friendly i)) (Drone.pos other) <= 0
      \/ dist <= calculateDistance H (deref w (Friendly i)) (Drone.pos other)) ->
  applySeparation H (Friendly i) dist w = w.
Proof.
  intros Hall. unfold applySeparation.
  rewrite separationFrom_none; [reflexivity|].
  intros k other Hk Hs Hh. apply (Hall k other); auto.
  cbn in Hs. apply Nat.eqb_neq in Hs. lia.
Qed.

Lemma separation_needs_a_neighbour_witness :
  applySeparation benchHost (Friendly 0) 40 twoJammers = twoJammers.
Proof.
  apply (separation_needs_a_neighbour benchHost 0 40 twoJammers).
  intros [|[|k]] other Hk Hne Hh; try (cbn in Hk; discriminate Hk).
  - lia.
  - injection Hk as <-. right. vm_compute. discriminate.
Defined.

(** ** What a pass leaves alone *)

Lemma Forall2_changes_map {B : Type} l (g : Drone.t -> B) a b :
  (forall d d', changes l d d' -> g d' = g d) ->
  Forall2 (changes l) a b -> map g b = map g a.
Proof.
  intros Hg. induction 1 as [|d d' a b Hd _ IH]; [reflexivity|].
  cbn. now rewrite (Hg _ _ Hd), IH.
Qed.

Lemma Forall2_assets_same a b : Forall2 (assetChanges false) a b -> b = a.
Proof.
  induction 1 as [|x x' a b Hx _ IH]; [reflexivity|]. subst. f_equal.
  destruct Hx, x, x'. cbn in *. congruence.
Qed.

Lemma friendly_raid H c jam f w :
  sided w -> evolves friendlyRaid w (updateFriendlies H c jam f w).
Proof.
  intros Hs. apply evolves_updateFriendlies; try reflexivity; auto;
    try (intros d _); intros; exact I.
Qed.

Lemma hostile_raid H c jam f w :
  sided w -> evolves hostileRaid w (updateHostiles H c jam f w).
Proof.
  intros Hs. apply evolves_updateHostiles; try reflexivity; auto;
    try (intros d _); intros; exact I.
Qed.

(** X20.  Each pass spares its own side, in a state whose arrays hold the
    drones of their side.  The friendly pass leaves the ground assets as
    they are, and the health of every friendly drone; of a hostile drone it
    changes nothing but the health and the jam flag.  The hostile pass
    leaves the health of every hostile drone, and of a friendly drone it
    changes nothing but the health. *)
Theorem passes_spare_their_side (H : Host) (communication jammingEnabled : bool)
        (formation : FormationType) (w : SimState) :
  sided w ->
  let w1 := updateFriendlies H communication jammingEnabled formation w in
  let w2 := updateHostiles H communication jammingEnabled formation w in
  (groundAssets w1 = groundAssets w
   /\ map Drone.health (friendlyDrones w1) = map Drone.health (friendlyDrones w)
   /\ Forall2 (changes [fHealth; fJammed]) (hostileDrones w) (hostileDrones w1))
  /\ (map Drone.health (hostileDrones w2) = map Drone.health (hostileDrones w)
      /\ Forall2 (changes [fHealth]) (friendlyDrones w) (friendlyDrones w2)).
Proof.
  intros Hs. cbv zeta. split.
  - destruct (friendly_raid H communication jammingEnabled formation w Hs)
      as [HF HH HA _ _].
    split; [now apply Forall2_assets_same|]. split; [|exact HH].
    apply (Forall2_changes_map friendlyWrites); [|exact HF].
    intros d d' Hd. pose proof (ch_health _ _ _ Hd) as Hh.
    now apply keeps_not in Hh.
  - destruct (hostile_raid H communication jammingEnabled formation w Hs)
      as [HF HH _ _ _].
    split; [|exact HF].
    apply (Forall2_changes_map hostileWrites); [|exact HH].
    intros d d' Hd. pose proof (ch_health _ _ _ Hd) as Hh.
    now apply keeps_not in Hh.
Qed.

Section Quiet.
Variable H : Host.
Variable p : Perm.
Hypothesis anything : forall e, onTrace p e.
Hypothesis friendly_side : allows (onFriendly p) friendlyWrites = true.
Hypothesis hostile_side : allows (onHostile p) hostileWrites = true.
Hypothesis hurts_friendly : may (onFriendly p) fHealth = true.
Hypothesis hurts_assets : onAssets p = true.
Hypothesis particles_too : onParticles p = true.

Lemma anything_divisions : divisionsMay p.
Proof. intros d _. apply anything. Qed.

(** The step of a friendly drone that does not reach the jamming loop. *)
Lemma evolves_update_quiet i communication jammingEnabled formation w0 w :
  communication = false
  \/ (jammingEnabled = false /\ may (onHostile p) fHealth = true) ->
  validRef w (Friendly i) ->
  Drone.isFriendly (deref w (Friendly i)) = true ->
  evolves p w0 w ->
  evolves p w0 (update H (Friendly i) communication jammingEnabled formation w).
Proof.
  intros Hq Hv Hside Hev. unfold update.
  rewrite (update_friendly_reset i w Hside).
  set (w1 := modify _ _ w).
  assert (Hev1 : evolves p w0 w1).
  { subst w1. eapply evolves_trans; [exact Hev|].
    apply evolves_reset. cbn [on]. solve_may. }
  assert (Hv1 : validRef w1 (Friendly i)).
  { subst w1. cbn in *. now rewrite length_alter. }
  clearbody w1.
  destruct communication; cbn [negb].
  - destruct Hq as [Hq|[-> Hh]]; [discriminate Hq|].
    pose proof (evolves_rescueLoop H p (Friendly i) w0 w1) as Hr.
    assert (Hev2 : evolves p w0 (fst (rescueLoop H (Friendly i) w1))).
    { apply Hr; auto; [cbn [on]; solve_allows | solve_may]. }
    destruct (rescueLoop _ _ _) as [w2 performingRescue]. cbn [fst] in Hev2.
    assert (Hev3 : evolves p w0 (markLost H (Friendly i) w2)).
    { apply evolves_markLost; auto using anything_divisions. cbn [on]. solve_may. }
    destruct performingRescue; [assumption|].
    apply evolves_engagement; auto using anything_divisions.
    assert (Hl : length (friendlyDrones (markLost H (Friendly i) w2))
                 = length (friendlyDrones w0)).
    { destruct Hev3 as [HF _ _ _ _]. symmetry. exact (Forall2_length _ _ _ HF). }
    assert (Hl1 : length (friendlyDrones w1) = length (friendlyDrones w0)).
    { destruct Hev1 as [HF _ _ _ _]. symmetry. exact (Forall2_length _ _ _ HF). }
    cbn in *. lia.
  - apply evolves_autonomousMode; auto. cbn [on]. solve_allows.
Qed.

Lemma evolves_passes_quiet communication jammingEnabled formation w :
  communication = false
  \/ (jammingEnabled = false /\ may (onHostile p) fHealth = true) ->
  sided w ->
  evolves p w (updatePasses H communication jammingEnabled formation w).
Proof.
  intros Hq Hs. unfold updatePasses.
  assert (Hf : evolves p w (updateFriendlies H communication jammingEnabled
                              formation w)).
  { unfold updateFriendlies, forEachIndex.
    apply (forIndices_invariant (fun w' => evolves p w w')).
    - apply evolves_refl.
    - intros i w' Hi Hev.
      assert (Hv : validRef w (Friendly i)) by (cbn; lia).
      apply evolves_update_quiet; auto.
      + apply (evolves_validRef p w); [|exact Hv].
        apply evolves_logEvent; [apply anything | exact Hev].
      + apply (sided_deref_friendly p w); auto.
        apply evolves_logEvent; [apply anything | exact Hev].
      + apply evolves_logEvent; [apply anything | exact Hev]. }
  eapply evolves_trans; [exact Hf|].
  apply evolves_updateHostiles; auto using anything_divisions.
  eapply sided_evolves; eauto.
Qed.
End Quiet.

Lemma evolves_start_of_tick p w :
  may (onHostile p) fJammed = true -> onParticles p = true ->
  evolves p w (clearJamFlags (ageParticles w)).
Proof.
  intros Hj Hp. eapply evolves_trans; [now apply evolves_ageParticles|].
  now apply evolves_clearJamFlags.
Qed.

Lemma noneJammed_clearJamFlags w : noneJammed (clearJamFlags w).
Proof.
  unfold noneJammed. cbn. apply Forall_map, Forall_forall. reflexivity.
Qed.

Lemma sided_start_of_tick w : sided w -> sided (clearJamFlags (ageParticles w)).
Proof.
  apply (sided_evolves (mkPerm [] [fJammed] false true (fun _ => True))).
  now apply evolves_start_of_tick.
Qed.

(** X21.  From a state whose arrays hold the drones of their side, after a
    tick whose communication flag or whose jamming flag is off no hostile
    drone is marked as jammed, whatever the jam flags were before. *)
Theorem jamming_needs_both_flags (H : Host) (communication jammingEnabled : bool)
        (formation : FormationType) (w : SimState) :
  sided w ->
  communication = false \/ jammingEnabled = false ->
  noneJammed (updateSimulation H communication jammingEnabled formation w).
Proof.
  intros Hs Hq. unfold updateSimulation.
  set (w0 := clearJamFlags (ageParticles w)).
  assert (Hs0 : sided w0) by now apply sided_start_of_tick.
  assert (Hev : evolves unjammedTick w0
                  (updatePasses H communication jammingEnabled formation w0)).
  { apply evolves_passes_quiet; try reflexivity; auto.
    destruct Hq as [?|?]; [now left | right; now split]. }
  assert (Hn : noneJammed (updatePasses H communication jammingEnabled formation w0)).
  { pose proof (noneJammed_clearJamFlags (ageParticles w)) as Hn0. fold w0 in Hn0.
    destruct Hev as [_ HH _ _ _]. unfold noneJammed in *.
    revert Hn0. induction HH as [|d d' l l' Hd _ IH]; [constructor|].
    intros Hl. apply Forall_cons in Hl as [Hd0 Hl]. constructor; [|now apply IH].
    pose proof (ch_isJammed _ _ _ Hd) as Hj. apply keeps_not in Hj; [|reflexivity].
    congruence. }
  destruct (casualtyPartition_arrays H
              (updatePasses H communication jammingEnabled formation w0))
    as (_ & EH & _).
  unfold noneJammed. rewrite EH. now apply Forall_filter_of.
Qed.

Lemma jamming_needs_both_flags_witness :
  noneJammed (updateSimulation benchHost true false extended_line twoJammers).
Proof.
  apply (jamming_needs_both_flags benchHost true false extended_line twoJammers).
  - vm_compute. split; repeat constructor.
  - right. reflexivity.
Defined.

Lemma filter_all {A : Type} (f : A -> bool) l :
  Forall (fun a => f a = true) l -> List.filter f l = l.
Proof.
  induction 1 as [|a l Ha _ IH]; cbn; [reflexivity|]. now rewrite Ha, IH.
Qed.

Lemma alive_of_health (l l' : list Drone.t) :
  map Drone.health l' = map Drone.health l ->
  Forall (fun d => 0 < Drone.health d) l ->
  Forall (fun d => droneAlive d = true) l'.
Proof.
  revert l'. induction l as [|d l IH]; intros [|d' l'] E Hl;
    try discriminate E; constructor.
  - injection E as E _. apply Forall_cons in Hl as [Hd _].
    unfold droneAlive. rewrite E. now apply Qltb_lt.
  - injection E as _ E. apply Forall_cons in Hl as [_ Hl]. auto.
Qed.

Lemma silent_tick H jam f w :
  sided w ->
  Forall (fun d => 0 < Drone.health d) (hostileDrones w) ->
  let w' := updateSimulation H false jam f w in
  sided w'
  /\ map Drone.id (hostileDrones w') = map Drone.id (hostileDrones w)
  /\ map Drone.health (hostileDrones w') = map Drone.health (hostileDrones w).
Proof.
  intros Hs Ha. cbv zeta. unfold updateSimulation.
  set (w0 := clearJamFlags (ageParticles w)).
  assert (Hs0 : sided w0) by now apply sided_start_of_tick.
  assert (Hev : evolves silentTick w0 (updatePasses H false jam f w0)).
  { apply evolves_passes_quiet; try reflexivity; auto. }
  set (mid := updatePasses H false jam f w0) in *.
  assert (Hh : map Drone.health (hostileDrones mid) = map Drone.health (hostileDrones w)).
  { destruct Hev as [_ HH _ _ _].
    rewrite (Forall2_changes_map hostileWrites Drone.health _ _
               (fun d d' Hd =>
                  keeps_not hostileWrites fHealth _ _ eq_refl
                            (ch_health _ _ _ Hd)) HH).
    subst w0. cbn. rewrite map_map. reflexivity. }
  assert (Hi : map Drone.id (hostileDrones mid) = map Drone.id (hostileDrones w)).
  { rewrite (evolves_hostile_ids _ _ _ Hev).
    subst w0. cbn. rewrite map_map. reflexivity. }
  destruct (casualtyPartition_arrays H mid) as (EF & EH & _).
  rewrite EH, (filter_all droneAlive)
    by (eapply alive_of_health; [exact Hh | exact Ha]).
  split; [|split; [exact Hi | exact Hh]].
  destruct (sided_evolves _ _ _ Hev Hs0) as [S1 S2].
  split; rewrite ?EF, ?EH; [now apply Forall_filter_of|].
  rewrite (filter_all droneAlive)
    by (eapply alive_of_health; [exact Hh | exact Ha]).
  exact S2.
Qed.

(** X22.  While communication is lost no hostile drone is harmed: from a
    state whose arrays hold the drones of their side and whose hostile
    drones are alive, through any number of ticks with the communication
    flag off, the hostile drones stay in their array, each with the health
    it had. *)
Theorem silence_spares_hostiles (H : Host) (formation : FormationType)
        (flags : list (bool * bool)) (w : SimState) :
  sided w ->
  Forall (fun d => 0 < Drone.health d) (hostileDrones w) ->
  Forall (fun flag => fst flag = false) flags ->
  let w' := run H formation flags w in
  map Drone.id (hostileDrones w') = map Drone.id (hostileDrones w)
  /\ map Drone.health (hostileDrones w') = map Drone.health (hostileDrones w).
Proof.
  cbv zeta. revert w. induction flags as [|[c jam] flags IH]; intros w Hs Ha Hf;
    cbn [run]; [auto|].
  apply Forall_cons in Hf as [Hc Hf]. cbn in Hc. subst c.
  destruct (silent_tick H jam formation w Hs Ha) as (Hs1 & Ei & Eh).
  destruct (IH (updateSimulation H false jam formation w)) as [Ei' Eh']; auto.
  - apply Forall_forall. intros d Hd.
    assert (Hal : Forall (fun d => droneAlive d = true)
                         (hostileDrones (updateSimulation H false jam formation w)))
      by (eapply alive_of_health; [exact Eh | exact Ha]).
    rewrite Forall_forall in Hal. apply Qltb_lt. now apply Hal.
  - split; congruence.
Qed.

Lemma silence_spares_hostiles_witness :
  map Drone.health
      (hostileDrones (run benchHost extended_line [(false, true); (false, false)]
                          twoJammers))
  = map Drone.health (hostileDrones twoJammers).
Proof.
  apply (silence_spares_hostiles benchHost extended_line
           [(false, true); (false, false)] twoJammers).
  - vm_compute. split; repeat constructor.
  - vm_compute. repeat constructor.
  - repeat constructor.
Defined.

Lemma passes_spare_their_side_witness :
  groundAssets (updateFriendlies benchHost true true extended_line crossfire)
  = groundAssets crossfire
  /\ map Drone.health
         (hostileDrones (updateHostiles benchHost true true extended_line crossfire))
     = map Drone.health (hostileDrones crossfire).
Proof.
  split.
  - apply (passes_spare_their_side benchHost true true extended_line crossfire).
    vm_compute. split; repeat constructor.
  - apply (passes_spare_their_side benchHost true true extended_line crossfire).
    vm_compute. split; repeat constructor.
Defined.

(** ** The statistics *)

(** X23.  The threats the statistics count are the hostile drones the
    engine takes for critical. *)
Theorem threats_are_the_critical (H : Host) (w : SimState) :
  threatCount H w
  = length (List.filter (isCriticalThreat H w) (hostileDrones w)).
Proof.
  unfold threatCount. f_equal.
  induction (hostileDrones w) as [|h l IH]; [reflexivity|]. cbn [List.filter].
  assert (E : existsb (fun asset =>
                         Qleb (calculateDistance H h (Asset.pos asset))
                              THREATENING_RANGE) (groundAssets w)
              = isCriticalThreat H w h).
  { pose proof (isCriticalThreat_iff H w h) as Hc.
    destruct (isCriticalThreat H w h) eqn:E.
    - apply existsb_exists. destruct (proj1 Hc eq_refl) as (a & Ha & Hd).
      exists a. split; [exact Ha | now apply Qleb_le].
    - apply not_true_iff_false. intros Hex. apply existsb_exists in Hex.
      destruct Hex as (a & Ha & Hd). apply Qleb_le in Hd.
      assert (true = false) by (rewrite <- (proj2 Hc); eauto). discriminate. }
  rewrite E, IH. reflexivity.
Qed.

Lemma totals_standing (l : list Asset.t) : forall h m,
  0 <= h -> h <= m ->
  Forall (fun a => 0 <= Asset.health a /\ Asset.health a <= Asset.maxHealth a
                   /\ 0 < Asset.maxHealth a) l ->
  let acc := fold_left (fun (acc : Q * Q) a =>
                          (fst acc + Asset.health a, snd acc + Asset.maxHealth a))
                       l (h, m) in
  0 <= fst acc /\ fst acc <= snd acc.
Proof.
  induction l as [|a l IH]; intros h m Hh Hm Hl; cbv zeta; cbn [fold_left fst snd].
  - auto.
  - apply Forall_cons in Hl as [(H1 & H2 & H3) Hl]. apply IH; auto; lra.
Qed.

Lemma totals_destroyed (l : list Asset.t) : forall h m,
  0 <= h -> h <= m ->
  Forall (fun a => 0 < Asset.maxHealth a) l ->
  let acc := fold_left (fun (acc : Q * Q) a =>
                          (fst acc + 0, snd acc + Asset.maxHealth a))
                       l (h, m) in
  0 <= fst acc /\ fst acc <= snd acc.
Proof.
  induction l as [|a l IH]; intros h m Hh Hm Hl; cbv zeta; cbn [fold_left fst snd].
  - auto.
  - apply Forall_cons in Hl as [H3 Hl]. apply IH; auto; lra.
Qed.

Lemma mathRound_percentage h m :
  0 <= h -> h <= m -> 0 < m -> (0 <= mathRound (h / m * 100) <= 100)%Z.
Proof.
  intros Hh Hm Hp. unfold mathRound.
  assert (Hx : 0 <= h / m /\ h / m <= 1).
  { split.
    - apply Qle_shift_div_l; [exact Hp | lra].
    - apply Qle_shift_div_r; [exact Hp | lra]. }
  destruct Hx as [H0 H1]. revert H0 H1. generalize (h / m). intros x H0 H1.
  split.
  - apply Z.le_trans with (Qfloor 0); [reflexivity|].
    apply Qfloor_resp_le. lra.
  - apply Z.le_trans with (Qfloor 100.5); [|reflexivity].
    apply Qfloor_resp_le. lra.
Qed.

Lemma integrity_percentage w :
  assetsSound w -> (0 <= integrity w <= 100)%Z.
Proof.
  intros [Hg Hd]. unfold integrity, assetTotals.
  pose proof (totals_standing (groundAssets w) 0 0 (Qle_refl 0) (Qle_refl 0) Hg)
    as Hs. cbv zeta in Hs.
  destruct (fold_left _ (groundAssets w) (0, 0)) as [h m]. cbn [fst snd] in Hs.
  destruct Hs as [Hs1 Hs2].
  pose proof (totals_destroyed (destroyedAssets w) h m Hs1 Hs2 Hd) as Ht.
  cbv zeta in Ht.
  destruct (fold_left _ (destroyedAssets w) (h, m)) as [th tm]. cbn [fst snd] in Ht.
  destruct Ht as [Ht1 Ht2].
  destruct (Qltb 0 tm) eqn:E; [|lia].
  apply Qltb_lt in E. now apply mathRound_percentage.
Qed.

Lemma tick_evolves H c jam f w :
  sided w -> friendliesAlive w ->
  evolves tickPerm w (updatePasses H c jam f (clearJamFlags (ageParticles w))).
Proof.
  intros Hs Ha. unfold updatePasses.
  set (w0 := clearJamFlags (ageParticles w)).
  assert (Hev0 : evolves friendlyPassPerm w w0).
  { subst w0. eapply evolves_trans; [apply evolves_ageParticles; reflexivity|].
    apply evolves_clearJamFlags. reflexivity. }
  assert (Hs0 : sided w0) by (eapply sided_evolves; eauto).
  assert (Ha0 : friendliesAlive w0) by exact Ha.
  set (w1 := updateFriendlies H c jam f w0).
  assert (Hev1 : evolves friendlyPassPerm w0 w1) by (now apply friendly_pass).
  assert (Hs1 : sided w1) by (eapply sided_evolves; eauto).
  assert (Hev2 : evolves hostilePassPerm w1 (updateHostiles H c jam f w1))
    by (now apply hostile_pass).
  eapply evolves_trans; [|eapply evolves_weaken; [|exact Hev2]];
    [|now apply weaker_tick].
  eapply evolves_weaken; [now apply (weaker_tick friendlyPassPerm)|].
  eapply evolves_trans; eauto.
Qed.

Lemma assets_stay_bounded (l l' : list Asset.t) :
  Forall2 (assetChanges true) l l' ->
  Forall (fun a => 0 <= Asset.health a /\ Asset.health a <= Asset.maxHealth a
                   /\ 0 < Asset.maxHealth a) l ->
  Forall (fun a => Asset.health a <= Asset.maxHealth a
                   /\ 0 < Asset.maxHealth a) l'.
Proof.
  induction 1 as [|a a' l l' Hc _ IH]; [constructor|].
  intros Hl. apply Forall_cons in Hl as [(H1 & H2 & H3) Hl].
  constructor; [|now apply IH].
  destruct Hc as [_ _ _ _ _ _ Em Hm _]. rewrite Em. split; [lra | exact H3].
Qed.

Lemma assetsSound_tick H c jam f w :
  sided w -> friendliesAlive w -> assetsSound w ->
  assetsSound (updateSimulation H c jam f w).
Proof.
  intros Hs Ha [Hg Hd].
  pose proof (tick_evolves H c jam f w Hs Ha) as Hev.
  pose proof (writes_updatePasses H c jam f (clearJamFlags (ageParticles w))) as Hw.
  unfold updateSimulation.
  set (mid := updatePasses H c jam f (clearJamFlags (ageParticles w))) in *.
  destruct (casualtyPartition_arrays H mid) as (_ & _ & EA & _).
  destruct (casualtyPartition_counters H mid) as (_ & ED).
  destruct (writes_counters _ _ Hw) as (_ & Wd & _).
  cbn [destroyedAssets clearJamFlags ageParticles set_hostileDrones set_particles]
    in Wd.
  destruct Hev as [_ _ HA _ _].
  assert (Hmid : Forall (fun a => Asset.health a <= Asset.maxHealth a
                                  /\ 0 < Asset.maxHealth a) (groundAssets mid)).
  { exact (assets_stay_bounded _ _ HA Hg). }
  split.
  - rewrite EA. apply Forall_forall. intros a Hin.
    apply list_elem_of_In, filter_In in Hin as [Hin Hal].
    rewrite Forall_forall in Hmid. apply list_elem_of_In in Hin.
    destruct (Hmid a Hin) as [H2 H3].
    unfold assetAlive in Hal. apply Qltb_lt in Hal.
    split; [lra | split; assumption].
  - rewrite ED, Wd. apply Forall_app. split; [exact Hd|].
    apply Forall_forall. intros a Hin.
    apply list_elem_of_In, filter_In in Hin as [Hin _].
    rewrite Forall_forall in Hmid. apply list_elem_of_In in Hin.
    now destruct (Hmid a Hin).
Qed.

Lemma mapAssets_sound selectedMap :
  Forall (fun a => 0 <= Asset.health a /\ Asset.health a <= Asset.maxHealth a
                   /\ 0 < Asset.maxHealth a) (mapAssets selectedMap).
Proof.
  destruct selectedMap; repeat constructor; cbn; try lra; discriminate.
Qed.

Lemma run_assetsSound H formation flags : forall w,
  sided w -> friendliesAlive w -> assetsSound w ->
  assetsSound (run H formation flags w).
Proof.
  induction flags as [|[c jam] flags IH]; intros w Hs Ha Hsound; cbn [run]; auto.
  destruct (tick_step H c jam formation w Hs Ha) as (Hs1 & Hal1 & _).
  apply IH; [exact Hs1 | exact (proj1 Hal1) |]. now apply assetsSound_tick.
Qed.

(** X24.  The integrity the statistics compute is a percentage: 100 in the
    state [initSimulation] leaves, and between 0 and 100 after any number
    of ticks. *)
Theorem integrity_is_a_percentage (H : Host) (selectedMap : MapKey)
        (friendlyCount hostileCount bomberCount hostileBomberCount : nat)
        (spawnFormation formation : FormationType)
        (flags : list (bool * bool)) (w0 : SimState) :
  let w := initSimulation H selectedMap friendlyCount hostileCount bomberCount
                          hostileBomberCount spawnFormation w0 in
  integrity w = 100%Z
  /\ (0 <= integrity (run H formation flags w) <= 100)%Z.
Proof.
  cbv zeta.
  destruct (initSimulation_ground H selectedMap friendlyCount hostileCount
              bomberCount hostileBomberCount spawnFormation w0) as (IA & ID & _).
  destruct (initSimulation_sound H selectedMap friendlyCount hostileCount
              bomberCount hostileBomberCount spawnFormation w0)
    as (Hs & Hal & _).
  split.
  - unfold integrity, assetTotals. rewrite IA, ID.
    destruct selectedMap; vm_compute; reflexivity.
  - apply integrity_percentage. apply run_assetsSound; auto.
    + exact (proj1 Hal).
    + split; [rewrite IA; apply mapAssets_sound | rewrite ID; constructor].
Qed.

(** ** What the step of a drone writes *)

Lemma touched_refl d : touched d d.
Proof. unfold touched. now destruct d. Qed.

Lemma touched_trans a b c : touched a b -> touched b c -> touched a c.
Proof.
  unfold touched. intros Hab Hbc. rewrite Hbc at 1. rewrite Hab at 1.
  now destruct a.
Qed.

Lemma foreign_touched f d : foreign f -> touched d (f d).
Proof. intros []; unfold touched; now destruct d. Qed.

Lemma deref_logEvent e w r : deref (logEvent e w) r = deref w r.
Proof. now destruct r. Qed.

Lemma deref_modifyAsset k f w r : deref (modifyAsset k f w) r = deref w r.
Proof. now destruct r. Qed.

Lemma DroneRef_dec (a b : DroneRef) : a = b \/ a <> b.
Proof.
  destruct a as [i|i], b as [j|j]; try (right; discriminate);
    destruct (Nat.eq_dec i j) as [->|Hne]; auto; right; congruence.
Qed.

Lemma writesOf_others this w0 w :
  writesOf this w0 w ->
  forall r, r <> this -> touched (deref w0 r) (deref w r).
Proof.
  induction 1 as [|f w Hf Hw IH|r' f w Hf Hw IH|k damage w Hw IH|n w Hw IH
                  |n w Hw IH|q w Hw IH|e w Hw IH]; intros r Hr.
  - apply touched_refl.
  - rewrite deref_modify_other by congruence. now apply IH.
  - destruct (DroneRef_dec r' r) as [->|Hne].
    + destruct (deref_modify_cases r f w) as [E|E]; rewrite E.
      * eapply touched_trans; [now apply IH|]. now apply foreign_touched.
      * now apply IH.
    + rewrite deref_modify_other by exact Hne. now apply IH.
  - rewrite deref_modifyAsset. now apply IH.
  - rewrite deref_clock. now apply IH.
  - rewrite deref_random. now apply IH.
  - rewrite deref_addParticle. now apply IH.
  - rewrite deref_logEvent. now apply IH.
Qed.

Lemma touched_lost d d' :
  touched d d' -> changes friendlyWrites d d' ->
  d' = Drone.set_lostCoords (Drone.lostCoords d') d.
Proof.
  unfold touched. intros Ht Hc.
  pose proof (keeps_not friendlyWrites fHealth _ _ eq_refl (ch_health _ _ _ Hc)) as Eh.
  pose proof (keeps_not friendlyWrites fJammed _ _ eq_refl (ch_isJammed _ _ _ Hc)) as Ej.
  rewrite Ht at 1. rewrite Eh, Ej. now destruct d.
Qed.

Lemma touched_hurt_jammed d d' :
  touched d d' -> changes friendlyHurts d d' ->
  d' = Drone.set_health (Drone.health d')
         (Drone.set_isJammed (Drone.isJammed d') d).
Proof.
  unfold touched. intros Ht Hc.
  pose proof (keeps_not friendlyHurts fLost _ _ eq_refl (ch_lostCoords _ _ _ Hc)) as El.
  rewrite Ht at 1. rewrite El. now destruct d.
Qed.

Lemma touched_none d d' :
  touched d d' -> changes hostileWrites d d' -> d' = d.
Proof.
  unfold touched. intros Ht Hc.
  pose proof (keeps_not hostileWrites fHealth _ _ eq_refl (ch_health _ _ _ Hc)) as Eh.
  pose proof (keeps_not hostileWrites fJammed _ _ eq_refl (ch_isJammed _ _ _ Hc)) as Ej.
  pose proof (keeps_not hostileWrites fLost _ _ eq_refl (ch_lostCoords _ _ _ Hc)) as El.
  rewrite Ht. rewrite Eh, Ej, El. now destruct d.
Qed.

Lemma touched_hurt d d' :
  touched d d' -> changes hostileHurts d d' ->
  d' = Drone.set_health (Drone.health d') d.
Proof.
  unfold touched. intros Ht Hc.
  pose proof (keeps_not hostileHurts fJammed _ _ eq_refl (ch_isJammed _ _ _ Hc)) as Ej.
  pose proof (keeps_not hostileHurts fLost _ _ eq_refl (ch_lostCoords _ _ _ Hc)) as El.
  rewrite Ht at 1. rewrite Ej, El. now destruct d.
Qed.

Lemma evolves_friendly_update H i c jam f w :
  validRef w (Friendly i) ->
  Drone.isFriendly (deref w (Friendly i)) = true ->
  evolves friendlyRaid w (update H (Friendly i) c jam f w).
Proof.
  intros Hv Hs.
  apply evolves_update_friendly; try reflexivity; auto;
    try apply evolves_refl; try (intros d _; exact I).
Qed.

Lemma evolves_hostile_update H j c jam f w :
  Drone.isFriendly (deref w (Hostile j)) = false ->
  evolves hostileRaid w (update H (Hostile j) c jam f w).
Proof.
  intros Hs.
  apply evolves_update_hostile; try reflexivity; auto;
    try apply evolves_refl; try (intros d _; exact I).
Qed.

Lemma friendly_update_others H i communication jammingEnabled formation w :
  validRef w (Friendly i) ->
  Drone.isFriendly (deref w (Friendly i)) = true ->
  let w' := update H (Friendly i) communication jammingEnabled formation w in
  (forall k, k <> i ->
     deref w' (Friendly k)
     = Drone.set_lostCoords (Drone.lostCoords (deref w' (Friendly k)))
                            (deref w (Friendly k)))
  /\ (forall j,
         deref w' (Hostile j)
         = Drone.set_health (Drone.health (deref w' (Hostile j)))
             (Drone.set_isJammed (Drone.isJammed (deref w' (Hostile j)))
                                 (deref w (Hostile j))))
  /\ groundAssets w' = groundAssets w.
Proof.
  intros Hv Hs. cbv zeta.
  pose proof (evolves_friendly_update H i communication jammingEnabled formation
                w Hv Hs) as Hev.
  pose proof (writes_update H (Friendly i) communication jammingEnabled formation
                w w (wo_refl _ _)) as Hw.
  split; [|split].
  - intros k Hk. apply touched_lost.
    + apply (writesOf_others _ _ _ Hw). congruence.
    + exact (evolves_deref friendlyRaid (Friendly k) _ _ Hev).
  - intros j. apply touched_hurt_jammed.
    + apply (writesOf_others _ _ _ Hw). discriminate.
    + exact (evolves_deref friendlyRaid (Hostile j) _ _ Hev).
  - destruct Hev as [_ _ HA _ _]. now apply Forall2_assets_same.
Qed.

Lemma hostile_update_others H j communication jammingEnabled formation w :
  Drone.isFriendly (deref w (Hostile j)) = false ->
  let w' := update H (Hostile j) communication jammingEnabled formation w in
  (forall j', j' <> j -> deref w' (Hostile j') = deref w (Hostile j'))
  /\ (forall k,
         deref w' (Friendly k)
         = Drone.set_health (Drone.health (deref w' (Friendly k)))
                            (deref w (Friendly k))).
Proof.
  intros Hs. cbv zeta.
  pose proof (evolves_hostile_update H j communication jammingEnabled formation
                w Hs) as Hev.
  pose proof (writes_update H (Hostile j) communication jammingEnabled formation
                w w (wo_refl _ _)) as Hw.
  split.
  - intros j' Hj. apply touched_none.
    + apply (writesOf_others _ _ _ Hw). congruence.
    + exact (evolves_deref hostileRaid (Hostile j') _ _ Hev).
  - intros k. apply touched_hurt.
    + apply (writesOf_others _ _ _ Hw). discriminate.
    + exact (evolves_deref hostileRaid (Friendly k) _ _ Hev).
Qed.

(** X25.  The step of a drone writes that drone.  Of the others, the step
    of a drone of the friendly array that is friendly changes nothing but
    the lost coordinates of a friendly drone and the health and the jam
    flag of a hostile one, and no asset; the step of a drone of the hostile
    array that is hostile changes nothing of another hostile drone, and
    nothing but the health of a friendly drone. *)
Theorem update_writes_its_own (H : Host) (communication jammingEnabled : bool)
        (formation : FormationType) (w : SimState) :
  (forall i,
      validRef w (Friendly i) ->
      Drone.isFriendly (deref w (Friendly i)) = true ->
      let w' := update H (Friendly i) communication jammingEnabled formation w in
      (forall k, k <> i ->
         deref w' (Friendly k)
         = Drone.set_lostCoords (Drone.lostCoords (deref w' (Friendly k)))
                                (deref w (Friendly k)))
      /\ (forall j,
             deref w' (Hostile j)
             = Drone.set_health (Drone.health (deref w' (Hostile j)))
                 (Drone.set_isJammed (Drone.isJammed (deref w' (Hostile j)))
                                     (deref w (Hostile j))))
      /\ groundAssets w' = groundAssets w)
  /\ (forall j,
         Drone.isFriendly (deref w (Hostile j)) = false ->
         let w' := update H (Hostile j) communication jammingEnabled formation w in
         (forall j', j' <> j -> deref w' (Hostile j') = deref w (Hostile j'))
         /\ (forall k,
                deref w' (Friendly k)
                = Drone.set_health (Drone.health (deref w' (Friendly k)))
                                   (deref w (Friendly k)))).
Proof.
  split.
  - intros i. apply friendly_update_others.
  - intros j. apply hostile_update_others.
Qed.

Lemma update_writes_its_own_witness :
  (forall k, k <> 0%nat ->
     deref (update benchHost (Friendly 0) true true extended_line strayed)
           (Friendly k)
     = Drone.set_lostCoords
         (Drone.lostCoords
            (deref (update benchHost (Friendly 0) true true extended_line strayed)
                   (Friendly k)))
         (deref strayed (Friendly k)))
  /\ (forall j', j' <> 0%nat ->
        deref (update benchHost (Hostile 0) true true extended_line strayed)
              (Hostile j')
        = deref strayed (Hostile j')).
Proof.
  split.
  - apply (proj1 (update_writes_its_own benchHost true true extended_line strayed)
                 0%nat).
    + simpl. lia.
    + reflexivity.
  - apply (proj2 (update_writes_its_own benchHost true true extended_line strayed)
                 0%nat).
    reflexivity.
Defined.

(** ** [isEngaging] and [target] *)

Lemma coherent_lost c d : coherent d -> coherent (Drone.set_lostCoords c d).
Proof. now intros Hd. Qed.

Lemma coherent_health h d : coherent d -> coherent (Drone.set_health h d).
Proof. now intros Hd. Qed.

Lemma coherent_kept (l : list Field) d d' :
  may l fTarget = false -> may l fEngaging = false ->
  changes l d d' -> coherent d -> coherent d'.
Proof.
  intros Ht He Hc Hd. unfold coherent in *.
  rewrite (keeps_not l fTarget _ _ Ht (ch_target _ _ _ Hc)).
  rewrite (keeps_not l fEngaging _ _ He (ch_isEngaging _ _ _ Hc)). exact Hd.
Qed.

Lemma update_this_coherent H i c jam f w :
  validRef w (Friendly i) ->
  Drone.isFriendly (deref w (Friendly i)) = true ->
  coherent (deref w (Friendly i)) ->
  coherent (deref (update H (Friendly i) c jam f w) (Friendly i)).
Proof.
  intros Hv Hs Hc. unfold update.
  rewrite (update_friendly_reset i w Hs).
  set (w1 := modify (Friendly i) (Drone.set_jammingTargets []) w).
  assert (Hd : forall p, (forall e, onTrace p e) -> divisionsMay p)
    by exact trivial_divisions.
  destruct c; cbn [negb].
  - destruct (rescueLoop H (Friendly i) w1) as [w2 rescue] eqn:Er.
    destruct rescue.
    + assert (Hev : evolves detourPerm w (markLost H (Friendly i) w2)).
      { apply evolves_markLost; [apply Hd; intros; exact I | reflexivity |].
        change w2 with (fst (w2, true)). rewrite <- Er.
        apply evolves_rescueLoop; try reflexivity. now apply evolves_reset. }
      apply (coherent_kept (on detourPerm (Friendly i)) _ _ eq_refl eq_refl
               (evolves_deref detourPerm (Friendly i) _ _ Hev) Hc).
    + assert (Hev3 : evolves friendlyPerm w (markLost H (Friendly i) w2)).
      { apply evolves_markLost; [apply Hd; intros; exact I | reflexivity |].
        change w2 with (fst (w2, false)). rewrite <- Er.
        apply evolves_rescueLoop; try reflexivity. now apply evolves_reset. }
      set (w4 := if jam then _ else _).
      assert (Hev4 : evolves friendlyPerm w w4).
      { subst w4. destruct jam; [|exact Hev3].
        apply evolves_jamLoop; try reflexivity. exact Hev3. }
      assert (Hv4 : validRef w4 (Friendly i)) by (eapply evolves_validRef; eauto).
      pose proof (engagement_target H i true f w4 Hv4) as Ht. cbv zeta in Ht.
      unfold coherent.
      destruct (selectTarget H w4 (Friendly i) true) as [j|];
        destruct Ht as [-> ->]; reflexivity.
  - assert (Hev : evolves detourPerm w (autonomousMode H (Friendly i) w1)).
    { apply evolves_autonomousMode; [reflexivity|]. now apply evolves_reset. }
    apply (coherent_kept (on detourPerm (Friendly i)) _ _ eq_refl eq_refl
             (evolves_deref detourPerm (Friendly i) _ _ Hev) Hc).
Qed.

Lemma friendly_update_coherent H i c jam f w :
  validRef w (Friendly i) ->
  Drone.isFriendly (deref w (Friendly i)) = true ->
  (forall k, coherent (deref w (Friendly k))) ->
  forall k, coherent (deref (update H (Friendly i) c jam f w) (Friendly k)).
Proof.
  intros Hv Hs Hall k.
  destruct (Nat.eq_dec k i) as [->|Hne].
  - now apply update_this_coherent.
  - destruct (friendly_update_others H i c jam f w Hv Hs) as (Hk & _).
    cbv zeta in Hk. rewrite (Hk k Hne). apply coherent_lost, Hall.
Qed.

Lemma hostile_update_coherent H j c jam f w :
  Drone.isFriendly (deref w (Hostile j)) = false ->
  (forall k, coherent (deref w (Friendly k))) ->
  forall k, coherent (deref (update H (Hostile j) c jam f w) (Friendly k)).
Proof.
  intros Hs Hall k.
  destruct (hostile_update_others H j c jam f w Hs) as (_ & Hk).
  cbv zeta in Hk. rewrite (Hk k). apply coherent_health, Hall.
Qed.

Lemma coherent_nowhere : coherent Drone.nowhere.
Proof. reflexivity. Qed.

Lemma coherent_all w :
  Forall coherent (friendlyDrones w) <->
  forall k, coherent (deref w (Friendly k)).
Proof.
  split.
  - intros Hf k. cbn. destruct (friendlyDrones w !! k) as [d|] eqn:E; cbn.
    + eapply Forall_lookup_1; eauto.
    + apply coherent_nowhere.
  - intros Hall. apply Forall_lookup_2. intros k d Hk.
    specialize (Hall k). cbn in Hall. now rewrite Hk in Hall.
Qed.

Lemma passes_coherent H c jam f w :
  sided w ->
  Forall coherent (friendlyDrones w) ->
  Forall coherent (friendlyDrones (updatePasses H c jam f w)).
Proof.
  intros Hs Hc0. pose proof (proj1 (coherent_all w) Hc0) as Hc. clear Hc0.
  apply (proj2 (coherent_all _)).
  unfold updatePasses.
  assert (Hf : evolves friendlyRaid w (updateFriendlies H c jam f w)
               /\ forall k, coherent (deref (updateFriendlies H c jam f w)
                                            (Friendly k))).
  { unfold updateFriendlies, forEachIndex.
    apply (forIndices_invariant
             (fun s => evolves friendlyRaid w s
                       /\ forall k, coherent (deref s (Friendly k)))).
    - split; [apply evolves_refl | exact Hc].
    - intros i s Hi [Hev Hall].
      assert (Hv : validRef w (Friendly i)) by (cbn; lia).
      set (s1 := logEvent _ s).
      assert (Hev1 : evolves friendlyRaid w s1)
        by (subst s1; apply evolves_logEvent; [exact I | exact Hev]).
      assert (Hv1 : validRef s1 (Friendly i))
        by (eapply evolves_validRef; eauto).
      assert (Hs1 : Drone.isFriendly (deref s1 (Friendly i)) = true)
        by (eapply sided_deref_friendly; eauto).
      split.
      + eapply evolves_trans; [exact Hev1|].
        now apply evolves_friendly_update.
      + apply friendly_update_coherent; auto. }
  destruct Hf as [Hevf Hcf].
  set (w1 := updateFriendlies H c jam f w) in *.
  assert (Hs1 : sided w1) by (eapply sided_evolves; eauto).
  unfold updateHostiles, forEachIndex.
  apply (forIndices_invariant
           (fun s => evolves hostileRaid w1 s
                     /\ forall k, coherent (deref s (Friendly k)))).
  - split; [apply evolves_refl | exact Hcf].
  - intros j s Hj [Hev Hall].
    destruct (Qltb 0 _); [|now split].
    assert (Hv : validRef w1 (Hostile j)) by (cbn; lia).
    set (s1 := logEvent _ s).
    assert (Hev1 : evolves hostileRaid w1 s1)
      by (subst s1; apply evolves_logEvent; [exact I | exact Hev]).
    assert (Hh1 : Drone.isFriendly (deref s1 (Hostile j)) = false)
      by (eapply sided_deref_hostile; eauto).
    split.
    + eapply evolves_trans; [exact Hev1|].
      now apply evolves_hostile_update.
    + apply hostile_update_coherent; auto.
Qed.

Lemma tick_coherent H c jam f w :
  sided w ->
  Forall coherent (friendlyDrones w) ->
  sided (updateSimulation H c jam f w)
  /\ Forall coherent (friendlyDrones (updateSimulation H c jam f w)).
Proof.
  intros Hs Hc. unfold updateSimulation.
  set (w0 := clearJamFlags (ageParticles w)).
  assert (Hs0 : sided w0) by now apply sided_start_of_tick.
  assert (Hc0 : Forall coherent (friendlyDrones w0)) by exact Hc.
  pose proof (passes_coherent H c jam f w0 Hs0 Hc0) as Hc1.
  assert (Hs1 : sided (updatePasses H c jam f w0)).
  { unfold updatePasses.
    eapply (sided_evolves hostileRaid); [apply hostile_raid|].
    - eapply (sided_evolves friendlyRaid); [apply friendly_raid|]; exact Hs0.
    - eapply (sided_evolves friendlyRaid); [apply friendly_raid|]; exact Hs0. }
  destruct (casualtyPartition_arrays H (updatePasses H c jam f w0))
    as (EF & EH & _).
  destruct Hs1 as [S1 S2].
  split; [split|]; rewrite ?EF, ?EH; now apply Forall_filter_of.
Qed.

(** X26.  In every state reached from [initSimulation], a friendly drone
    reports [isEngaging] exactly when it has a target: the count of engaged
    drones the statistics show is the count of friendly drones with a
    target. *)
Theorem engaged_means_targeting (H : Host) (selectedMap : MapKey)
        (friendlyCount hostileCount bomberCount hostileBomberCount : nat)
        (spawnFormation formation : FormationType)
        (flags : list (bool * bool)) (w0 : SimState) :
  let w := run H formation flags
               (initSimulation H selectedMap friendlyCount hostileCount
                               bomberCount hostileBomberCount spawnFormation w0) in
  Forall coherent (friendlyDrones w)
  /\ engagedCount w = length (List.filter targeting (friendlyDrones w)).
Proof.
  cbv zeta.
  assert (Hc : Forall coherent
                 (friendlyDrones
                    (run H formation flags
                         (initSimulation H selectedMap friendlyCount hostileCount
                            bomberCount hostileBomberCount spawnFormation w0)))).
  { apply (run_invariant (fun s => sided s /\ Forall coherent (friendlyDrones s))).
    - intros c jam w [Hs Hcoh]. now apply tick_coherent.
    - destruct (initSimulation_sound H selectedMap friendlyCount hostileCount
                  bomberCount hostileBomberCount spawnFormation w0) as (Hs & _).
      split; [exact Hs|].
      destruct (initSimulation_recruits H selectedMap friendlyCount hostileCount
                  bomberCount hostileBomberCount spawnFormation w0) as (IF & _).
      apply (Forall_of_map coherent coherent unplaced); [now intros d|].
      rewrite IF. apply Forall_app. split; apply Forall_recruits; reflexivity. }
  split; [exact Hc|].
  unfold engagedCount. f_equal.
  induction Hc as [|d l Hd _ IH]; [reflexivity|].
  cbn [List.filter]. unfold targeting at 1. rewrite <- Hd, IH. reflexivity.
Qed.

(** ** C10: the ledger of the jamming *)

Lemma modify_logEvent r f e w :
  modify r f (logEvent e w) = logEvent e (modify r f w).
Proof. now destruct r. Qed.

Lemma rescueStep_logEvent H this k e s b :
  rescueStep H this k (logEvent e s, b)
  = (logEvent e (fst (rescueStep H this k (s, b))),
     snd (rescueStep H this k (s, b))).
Proof.
  unfold rescueStep. rewrite !deref_logEvent.
  destruct (negb _); [|reflexivity].
  destruct (Drone.lostCoords _); [|reflexivity].
  destruct (Qltb _ _); [now rewrite modify_logEvent|].
  destruct (negb b); [now rewrite modify_logEvent | reflexivity].
Qed.

Lemma rescueLoop_logEvent H this e w :
  rescueLoop H this (logEvent e w)
  = (logEvent e (fst (rescueLoop H this w)), snd (rescueLoop H this w)).
Proof.
  unfold rescueLoop, forEachIndex.
  change (length (friendlyDrones (logEvent e w)))
    with (length (friendlyDrones w)).
  generalize (length (friendlyDrones w)) as n. generalize 0%nat as k.
  generalize false as b. revert w.
  intros w b k n. revert w b k.
  induction n as [|n IH]; intros w b k; cbn [forIndices]; [reflexivity|].
  rewrite rescueStep_logEvent.
  destruct (rescueStep H this k (w, b)) as [w1 b1]. cbn [fst snd]. apply IH.
Qed.

Lemma jams_logEvent H i j e w : jams H i j (logEvent e w) = jams H i j w.
Proof.
  unfold jams. rewrite !deref_logEvent, modify_logEvent, rescueLoop_logEvent.
  reflexivity.
Qed.

(** A drone that makes no rescue move stays where it is in the loop over
    the lost neighbours. *)
Lemma rescueLoop_still H this w :
  snd (rescueLoop H this w) = false ->
  Drone.pos (deref (fst (rescueLoop H this w)) this) = Drone.pos (deref w this).
Proof.
  unfold rescueLoop, forEachIndex.
  apply (forIndices_invariant
           (fun st => snd st = false ->
                      Drone.pos (deref (fst st) this) = Drone.pos (deref w this))).
  - reflexivity.
  - intros k [s b] _ IH. cbn [fst snd] in IH. unfold rescueStep.
    destruct (negb _); [|exact IH].
    destruct (Drone.lostCoords _); [|exact IH].
    destruct (Qltb _ _).
    + cbn [fst snd]. intros Hb.
      rewrite (deref_modify_field Drone.pos) by reflexivity. now apply IH.
    + destruct (negb b); [discriminate | exact IH].
Qed.

Lemma markLost_pos H this w r :
  Drone.pos (deref (markLost H this w) r) = Drone.pos (deref w r).
Proof.
  unfold markLost, divide. destruct (_ <? _)%nat; [|reflexivity].
  cbv beta iota zeta. destruct (_ && _).
  - rewrite (deref_modify_field Drone.pos) by reflexivity.
    now rewrite !deref_logEvent.
  - now rewrite !deref_logEvent.
Qed.

(** Before its jamming loop a friendly drone leaves the hostile drones as they
    are. *)
Lemma prelude_hostiles H i w :
  hostileDrones
    (markLost H (Friendly i)
       (fst (rescueLoop H (Friendly i)
               (modify (Friendly i) (Drone.set_jammingTargets []) w))))
  = hostileDrones w.
Proof.
  apply evolves_quiet_hostiles.
  apply evolves_markLost; [exact quiet_divisions | reflexivity |].
  apply evolves_rescueLoop; try reflexivity.
  now apply evolves_reset.
Qed.

Lemma deref_hostile_eq w w' j :
  hostileDrones w' = hostileDrones w -> deref w' (Hostile j) = deref w (Hostile j).
Proof. intros E. cbn. now rewrite E. Qed.

Lemma strike_health H i j' j w :
  validRef w (Hostile j) ->
  exists shot, shotDamage shot
    /\ Drone.health (deref (strike H (Friendly i) j' w) (Hostile j))
       == Drone.health (deref w (Hostile j)) - shot
    /\ Drone.isJammed (deref (strike H (Friendly i) j' w) (Hostile j))
       = Drone.isJammed (deref w (Hostile j)).
Proof.
  intros Hv. unfold strike. destruct (Qleb _ _).
  - unfold fireAt, readClock. cbv beta iota zeta.
    rewrite !deref_clock. destruct (_ <? _)%Z.
    + exists 0. split; [now left|]. rewrite !deref_clock. split; [ring | reflexivity].
    + rewrite !deref_hitParticle. cbn [damageTarget].
      destruct (Nat.eq_dec j' j) as [->|Hne].
      * rewrite deref_modify_same
          by (apply validRef_modify; destruct j; exact Hv).
        rewrite deref_modify_other by discriminate. rewrite !deref_clock.
        cbn [Drone.health Drone.set_health Drone.isJammed].
        eexists. split; [|split; [reflexivity|reflexivity]].
        destruct (Drone.type _); [right; left | right; right]; reflexivity.
      * rewrite deref_modify_other by congruence.
        rewrite deref_modify_other by discriminate. rewrite !deref_clock.
        exists 0. split; [now left|]. split; [ring | reflexivity].
  - rewrite deref_modify_other by discriminate.
    exists 0. split; [now left|]. split; [ring | reflexivity].
Qed.

Lemma engagement_health H i c f j w :
  validRef w (Friendly i) -> validRef w (Hostile j) ->
  exists shot, shotDamage shot
    /\ Drone.health (deref (engagement H (Friendly i) c f w) (Hostile j))
       == Drone.health (deref w (Hostile j)) - shot
    /\ Drone.isJammed (deref (engagement H (Friendly i) c f w) (Hostile j))
       = Drone.isJammed (deref w (Hostile j)).
Proof.
  intros Hi Hv.
  assert (Hquiet : forall w', hostileDrones w' = hostileDrones w ->
            exists shot, shotDamage shot
              /\ Drone.health (deref w' (Hostile j))
                 == Drone.health (deref w (Hostile j)) - shot
              /\ Drone.isJammed (deref w' (Hostile j))
                 = Drone.isJammed (deref w (Hostile j))).
  { intros w' E. rewrite (deref_hostile_eq _ _ j E).
    exists 0. split; [now left|]. split; [ring | reflexivity]. }
  unfold engagement. destruct (selectTarget _ _ _ _) as [j'|].
  - set (w2 := modify (Friendly i) (Drone.set_isEngaging true) _).
    assert (E2 : hostileDrones w2 = hostileDrones w) by reflexivity.
    assert (Hi2 : validRef w2 (Friendly i))
      by (subst w2; now do 2 apply validRef_modify).
    assert (Hv2 : validRef w2 (Hostile j))
      by (subst w2; now do 2 apply validRef_modify).
    rewrite <- (deref_hostile_eq _ _ j E2). clearbody w2.
    unfold engageTarget.
    destruct (isCriticalThreat _ _ _).
    + now apply strike_health.
    + unfold shouldEngage, divide. cbv beta iota zeta.
      destruct (_ || _).
      * match goal with
        | |- context [strike H (Friendly i) j' ?s] =>
            destruct (strike_health H i j' j s) as (shot & Hs & Eh & Ej);
              [exact Hv2|]
        end.
        rewrite deref_logEvent in Eh, Ej. eauto.
      * match goal with
        | |- context [maintainDefensivePosition H (Friendly i) ?s] =>
            assert (E : hostileDrones (maintainDefensivePosition H (Friendly i) s)
                        = hostileDrones w2)
        end.
        { apply evolves_quiet_hostiles.
          apply evolves_maintainDefensivePosition;
            [exact quiet_divisions | reflexivity |].
          apply evolves_logEvent; [exact I | apply evolves_refl]. }
        rewrite (deref_hostile_eq _ _ j E).
        exists 0. split; [now left|]. split; [ring | reflexivity].
  - apply Hquiet. apply evolves_quiet_hostiles.
    apply evolves_patrolPosition; [exact quiet_divisions | reflexivity |].
    apply evolves_modify; [intros d; now apply changes_set_isEngaging|].
    apply evolves_modify; [intros d; now apply changes_set_target|].
    apply evolves_refl.
Qed.

(** The step of a friendly drone, with communication and jamming enabled, in
    the accounts of a hostile drone. *)
Lemma update_ledger H i j f w :
  validRef w (Friendly i) -> validRef w (Hostile j) ->
  Drone.isFriendly (deref w (Friendly i)) = true ->
  exists shot, shotDamage shot
    /\ Drone.health (deref (update H (Friendly i) true true f w) (Hostile j))
       == Drone.health (deref w (Hostile j))
          - (if jams H i j w then 0.1 else 0) - shot
    /\ Drone.isJammed (deref (update H (Friendly i) true true f w) (Hostile j))
       = Drone.isJammed (deref w (Hostile j)) || jams H i j w.
Proof.
  intros Hi Hv Hs.
  pose proof (prelude_hostiles H i w) as Eh.
  unfold update. rewrite (update_friendly_reset i w Hs). cbn [negb].
  unfold jams.
  set (w0 := modify (Friendly i) (Drone.set_jammingTargets []) w) in *.
  pose proof (rescueLoop_still H (Friendly i) w0) as Hstill.
  assert (Hev : evolves detourPerm w
                  (markLost H (Friendly i) (fst (rescueLoop H (Friendly i) w0)))).
  { apply evolves_markLost; [intros d _; exact I | reflexivity |].
    apply evolves_rescueLoop; try reflexivity. now apply evolves_reset. }
  destruct (rescueLoop H (Friendly i) w0) as [w1 rescue]. cbn [fst snd] in *.
  set (w2 := markLost H (Friendly i) w1) in *.
  assert (Ej : deref w2 (Hostile j) = deref w (Hostile j))
    by now apply deref_hostile_eq.
  destruct rescue; cbn [negb andb].
  - rewrite Ej. exists 0. split; [now left|].
    split; [ring | now rewrite orb_false_r].
  - assert (Hv2 : validRef w2 (Hostile j)) by (eapply evolves_validRef; eauto).
    assert (Hi2 : validRef w2 (Friendly i)) by (eapply evolves_validRef; eauto).
    assert (Ep : Drone.pos (deref w2 (Friendly i)) = Drone.pos (deref w (Friendly i))).
    { subst w2. rewrite markLost_pos, Hstill by reflexivity.
      subst w0. now rewrite (deref_modify_field Drone.pos). }
    destruct (jamLoop_hostile H i j w2 Hv2) as [Jh _].
    rewrite (jammedBy_ext H _ (deref w (Friendly i))) in Jh by exact Ep.
    rewrite Ej in Jh.
    assert (Hv3 : validRef (jamLoop H (Friendly i) w2) (Hostile j)).
    { eapply evolves_validRef; [apply evolves_jamLoop_jamPerm | exact Hv2]. }
    assert (Hi3 : validRef (jamLoop H (Friendly i) w2) (Friendly i)).
    { eapply evolves_validRef; [apply evolves_jamLoop_jamPerm | exact Hi2]. }
    destruct (engagement_health H i true f j _ Hi3 Hv3) as (shot & Hshot & E1 & E2).
    exists shot. split; [exact Hshot|].
    rewrite E1, E2, Jh. unfold jammedBy.
    destruct (_ && _); cbn [Drone.health Drone.set_health Drone.isJammed
                            Drone.set_isJammed].
    + split; [ring | now rewrite orb_true_r].
    + split; [ring | now rewrite orb_false_r].
Qed.

Lemma ofNat_add n m : ofNat (n + m) == ofNat n + ofNat m.
Proof. unfold ofNat. now rewrite Nat2Z.inj_add, inject_Z_plus. Qed.

Lemma evolves_friendlyTurn H c jam f w i s :
  sided w -> validRef w (Friendly i) ->
  evolves friendlyRaid w s ->
  evolves friendlyRaid w (friendlyTurn H c jam f i s).
Proof.
  intros Hs Hi Hev. unfold friendlyTurn. cbv zeta.
  set (s' := logEvent _ s).
  assert (Hev' : evolves friendlyRaid w s')
    by (subst s'; apply evolves_logEvent; [exact I | exact Hev]).
  eapply evolves_trans; [exact Hev'|].
  apply evolves_friendly_update.
  - eapply evolves_validRef; eauto.
  - eapply sided_deref_friendly; eauto.
Qed.

Lemma pass_ledger H f j w : sided w -> validRef w (Hostile j) ->
  forall n k s,
    (k + n <= length (friendlyDrones w))%nat ->
    evolves friendlyRaid w s ->
    let s' := forIndices (friendlyTurn H true true f) k n s in
    (exists shots bomberShots : nat,
        Drone.health (deref s' (Hostile j))
        == Drone.health (deref s (Hostile j))
           - 0.1 * ofNat (jammersFrom H f j k n s)
           - (2 * ofNat shots + 20 * ofNat bomberShots))
    /\ Drone.isJammed (deref s' (Hostile j))
       = Drone.isJammed (deref s (Hostile j))
         || (0 <? jammersFrom H f j k n s)%nat.
Proof.
  intros Hs Hv. induction n as [|n IH]; intros k s Hk Hev; cbv zeta;
    cbn [forIndices jammersFrom].
  - split; [|now rewrite orb_false_r].
    exists 0%nat, 0%nat. unfold ofNat. cbn. ring.
  - assert (Hi : validRef w (Friendly k)) by (cbn; lia).
    pose proof (evolves_friendlyTurn H true true f w k s Hs Hi Hev) as Hev1.
    destruct (IH (S k) (friendlyTurn H true true f k s)) as [(a & b & Eh) Ej];
      [lia | exact Hev1 |].
    cbv zeta in Eh, Ej.
    set (e := EvUpdate true (Drone.id (deref s (Friendly k)))
                       (Drone.health (deref s (Friendly k)))).
    assert (Hev' : evolves friendlyRaid w (logEvent e s))
      by (apply evolves_logEvent; [exact I | exact Hev]).
    destruct (update_ledger H k j f (logEvent e s)) as (shot & Hshot & Sh & Sj).
    + eapply evolves_validRef; eauto.
    + eapply evolves_validRef; eauto.
    + eapply sided_deref_friendly; eauto.
    + rewrite jams_logEvent, deref_logEvent in Sh, Sj.
      change (update H (Friendly k) true true f (logEvent e s))
        with (friendlyTurn H true true f k s) in Sh, Sj.
      split.
      * assert (Eb : forall b : bool,
                   ofNat (if b then 1 else 0) == (if b then 1 else 0))
          by (now intros []).
        destruct Hshot as [->|[->| ->]].
        -- exists a, b. rewrite Eh, Sh, ofNat_add, Eb.
           destruct (jams H k j s); ring.
        -- exists (S a), b. rewrite Eh, Sh, ofNat_add, Eb, (ofNat_S a).
           destruct (jams H k j s); ring.
        -- exists a, (S b). rewrite Eh, Sh, ofNat_add, Eb, (ofNat_S b).
           destruct (jams H k j s); ring.
      * rewrite Ej, Sj. destruct (jams H k j s); cbn.
        -- now rewrite !orb_true_r.
        -- now rewrite orb_false_r.
Qed.



